(** * Verification of the PDF structuring core (pdf_to_json.py)

    Shallow embedding of the text segmenter, the table classifier, the
    metadata extractor and the document assembler of [pdf_to_json.py],
    and of the JSON text form the assembled document is persisted in.

    Python [str] values are modelled as [string]: sequences of
    characters with code points 0..255 (Latin-1).  On these, case
    mapping, white space and line boundaries are those of Python's
    [str] methods and of [re] on [str] patterns. *)

From Stdlib Require Import String Ascii List Bool Arith ZArith Lia Permutation Sorted.
From Stdlib Require DecimalString DecimalN.
From Stdlib.Strings Require Byte.
Import ListNotations.
Open Scope string_scope.
Open Scope bool_scope.

(** ** Python string primitives *)

Module PyStr.

Definition code (c : ascii) : nat := nat_of_ascii c.

Definition between (lo hi : nat) (c : ascii) : bool :=
  ((lo <=? code c) && (code c <=? hi))%nat.

(** The classes [[A-Z]], [[a-z]], [[A-Za-z]] and [\d] of [re]. *)
Definition is_AZ (c : ascii) : bool := between 65 90 c.
Definition is_az (c : ascii) : bool := between 97 122 c.
Definition is_letter (c : ascii) : bool := is_AZ c || is_az c.
Definition is_digit (c : ascii) : bool := between 48 57 c.

(** Upper-case and lower-case characters, as [str.isupper] and
    [str.lower] see them: the ASCII letters, the accented capitals
    U+00C0..U+00DE but the multiplication sign, and as lower case the
    feminine and masculine ordinals, the micro sign and U+00DF..U+00FF
    but the division sign. *)
Definition is_uppercase (c : ascii) : bool :=
  between 65 90 c || between 192 214 c || between 216 222 c.

Definition is_lowercase (c : ascii) : bool :=
  between 97 122 c || (code c =? 170)%nat || (code c =? 181)%nat
  || (code c =? 186)%nat || between 223 246 c || between 248 255 c.

(** [str.isspace] on one character, also the class [\s] of [re]:
    TAB, LF, VT, FF, CR, FS, GS, RS, US, the space, NEL and the
    no-break space. *)
Definition is_space (c : ascii) : bool :=
  between 9 13 c || between 28 31 c || (code c =? 32)%nat
  || (code c =? 133)%nat || (code c =? 160)%nat.

(** The line boundaries of [str.splitlines]: LF, VT, FF, CR, FS, GS,
    RS and NEL. *)
Definition is_linebreak (c : ascii) : bool :=
  between 10 13 c || between 28 30 c || (code c =? 133)%nat.

Definition LF : string := String (ascii_of_nat 10) "".

Definition lower_char (c : ascii) : ascii :=
  if is_uppercase c then ascii_of_nat (code c + 32) else c.

(** [s.lower()] *)
Fixpoint lower (s : string) : string :=
  match s with
  | "" => ""
  | String c r => String (lower_char c) (lower r)
  end.

Fixpoint existsb_str (p : ascii -> bool) (s : string) : bool :=
  match s with
  | "" => false
  | String c r => p c || existsb_str p r
  end.

(** [s.isupper()]: at least one cased character, and no lower-case one. *)
Definition isupper (s : string) : bool :=
  existsb_str is_uppercase s && negb (existsb_str is_lowercase s).

(** [needle in hay] *)
Fixpoint str_in (needle hay : string) : bool :=
  if prefix needle hay then true
  else match hay with
       | "" => false
       | String _ r => str_in needle r
       end.

(** [any(x in s for x in xs)] *)
Definition any_in (xs : list string) (s : string) : bool :=
  existsb (fun x => str_in x s) xs.

(** [sep.join(xs)] *)
Definition join (sep : string) (xs : list string) : string := String.concat sep xs.

(** [not s] for a string: the empty string is falsy. *)
Definition is_empty (s : string) : bool :=
  match s with "" => true | _ => false end.

Fixpoint lstrip (s : string) : string :=
  match s with
  | "" => ""
  | String c r => if is_space c then lstrip r else s
  end.

Fixpoint rstrip (s : string) : string :=
  match s with
  | "" => ""
  | String c r =>
      let r' := rstrip r in
      if is_space c && is_empty r' then "" else String c r'
  end.

(** [s.strip()] *)
Definition strip (s : string) : string := lstrip (rstrip s).

(** [s.splitlines()]: a CR LF pair is one boundary, and a boundary at
    the very end opens no further line. *)
Fixpoint splitlines (s : string) : list string :=
  match s with
  | "" => []
  | String c r =>
      if is_linebreak c then
        "" :: splitlines (if (code c =? 13)%nat
                          then match r with
                               | String d r' => if (code d =? 10)%nat then r' else r
                               | "" => r
                               end
                          else r)
      else match splitlines r with
           | [] => [String c ""]
           | l :: ls => String c l :: ls
           end
  end.

(** [s.split("\n")]: always at least one piece. *)
Fixpoint split_lf (s : string) : list string :=
  match s with
  | "" => [""]
  | String c r =>
      if (code c =? 10)%nat then "" :: split_lf r
      else match split_lf r with
           | [] => [String c ""]
           | l :: ls => String c l :: ls
           end
  end.

(** [s.replace(c, "")] for a one-character [c] *)
Fixpoint remove_char (x : ascii) (s : string) : string :=
  match s with
  | "" => ""
  | String c r => if Ascii.eqb c x then remove_char x r else String c (remove_char x r)
  end.

(** The longest prefix of characters in a class, and what follows it:
    what a greedy [[...]*] consumes when nothing after it can start
    with a character of the class. *)
Fixpoint span (p : ascii -> bool) (s : string) : string * string :=
  match s with
  | "" => ("", "")
  | String c r =>
      if p c then let '(a, b) := span p r in (String c a, b) else ("", s)
  end.

(** At most [n] leading characters of a class: a greedy [[...]{0,n}]. *)
Fixpoint span_upto (n : nat) (p : ascii -> bool) (s : string) : string * string :=
  match n, s with
  | S n', String c r =>
      if p c then let '(a, b) := span_upto n' p r in (String c a, b) else ("", s)
  | _, _ => ("", s)
  end.

(** [s[n:]] *)
Fixpoint drop (n : nat) (s : string) : string :=
  match n, s with
  | S n', String _ r => drop n' r
  | _, _ => s
  end.

(** [s[:n]] *)
Fixpoint take (n : nat) (s : string) : string :=
  match n, s with
  | S n', String c r => String c (take n' r)
  | _, _ => ""
  end.

End PyStr.

Import PyStr.

(** ** clean_text *)

(** [clean_text]: the stripped non-blank lines of [s], joined by spaces.
    [None] and the empty string give the empty string. *)
Definition clean_text (s : option string) : string :=
  match s with
  | None => ""
  | Some s =>
      if is_empty s then ""
      else join " " (filter (fun l => negb (is_empty l)) (map strip (splitlines s)))
  end.

(** ** Table classifier *)

Module Classifier.

Definition table := list (list string).

(** The conditions of the successive [if]s of [classify_table], on
    [header_str]. *)
Definition rule_performance (h : string) : bool :=
  str_in "scheme performance" h
  || (str_in "performance" h && str_in "scheme" h)
  || str_in "ptp" h
  || str_in "last 1 year" h
  || str_in "since inception" h.

Definition rule_sip (h : string) : bool :=
  str_in "sip" h || str_in "if you had invested" h.

Definition rule_holdings (h : string) : bool :=
  any_in ["company"; "issuer"; "instrument"; "name"; "sector"; "%"; "weight";
          "net assets"] h.

Definition rule_debt (h : string) : bool :=
  str_in "debt" h || str_in "credit rating" h.

Definition rule_allocation (h : string) : bool :=
  any_in ["sector allocation"; "group allocation"; "market capitalisation";
          "allocation"] h.

Definition rule_risk (h : string) : bool :=
  any_in ["riskometer"; "risk profile"; "std. dev"; "beta"; "sharpe";
          "treynor"; "risk"] h.

Definition rule_macro (h : string) : bool :=
  any_in ["macro"; "economic"; "indicators"; "gdp"; "inflation"] h.

(** [header_str]: the cells of row 0, lower-cased and joined by spaces. *)
Definition header_str (row0 : list string) : string :=
  join " " (map lower row0).

Definition classify_header (h : string) : option string * option string :=
  if rule_performance h then (Some "scheme_performance", Some "Performance Data")
  else if rule_sip h then (Some "scheme_performance", Some "SIP Performance")
  else if rule_holdings h then
    if rule_debt h then (Some "debt_portfolio", Some "Debt Holdings")
    else (Some "portfolio", Some "Holdings")
  else if rule_allocation h then (Some "allocation", Some "Allocation Data")
  else if rule_risk h then (Some "risk", Some "Risk Metrics")
  else if rule_macro h then (Some "macro", Some "Economic Indicators")
  else (None, None).

Definition classify_table (t : table) : option string * option string :=
  match t with
  | [] => (None, None)
  | row0 :: _ => classify_header (header_str row0)
  end.

End Classifier.

(** ** Text segmenter *)

Module Segmenter.

(** A paragraph entry: the dictionary with ["type": "paragraph"]. *)
Record paragraph := mk_paragraph {
  p_section : option string;
  p_sub_section : option string;
  p_text : string
}.

(** [re.match(r'^#\s+[A-Z]', line)] *)
Definition match_hash_heading (line : string) : bool :=
  match line with
  | String c r =>
      Ascii.eqb c "#" &&
      (let '(ws, rest) := span is_space r in
       negb (is_empty ws) &&
       match rest with String d _ => is_AZ d | "" => false end)
  | "" => false
  end.

(** [(line.isupper() and len(line) < 120) or re.match(r'^#\s+[A-Z]', line)] *)
Definition is_main_heading (line : string) : bool :=
  (isupper line && (String.length line <? 120)%nat) || match_hash_heading line.

(** [re.match(r'^[A-Za-z][A-Za-z\s]+:', line)] *)
Definition match_colon_label (line : string) : bool :=
  match line with
  | String c r =>
      is_letter c &&
      (let '(run, rest) := span (fun d => is_letter d || is_space d) r in
       negb (is_empty run) && prefix ":" rest)
  | "" => false
  end.

Definition is_subsection (line : string) : bool :=
  match_colon_label line && (String.length line <? 120)%nat.

(** [line.replace('#', '').strip()] *)
Definition section_name (line : string) : string :=
  strip (remove_char "#" line).

(** The local variables of [detect_sections_from_text]. *)
Record seg_state := mk_seg {
  current_section : option string;
  current_subsection : option string;
  current_text : list string;
  result : list paragraph
}.

Definition seg_init : seg_state := mk_seg None None [] [].

(** Truth value of [current_section]: [None] and [""] are falsy. *)
Definition truthy (o : option string) : bool :=
  match o with
  | Some s => negb (is_empty s)
  | None => false
  end.

(** [current_section and current_text] *)
Definition pending (st : seg_state) : bool :=
  truthy (current_section st) &&
  match current_text st with [] => false | _ => true end.

(** The dictionary appended to [result] by a flush. *)
Definition flushed (st : seg_state) : paragraph :=
  mk_paragraph (current_section st) (current_subsection st)
               (clean_text (Some (join LF (current_text st)))).

(** The guarded block of both heading branches: append and empty the
    buffer, only when a section is open and the buffer is not empty. *)
Definition flush (st : seg_state) : seg_state :=
  if pending st
  then mk_seg (current_section st) (current_subsection st) []
              (result st ++ [flushed st])
  else st.

(** One iteration of the loop over [lines]. *)
Definition step (st : seg_state) (raw : string) : seg_state :=
  let line := strip raw in
  if is_empty line then st
  else if is_main_heading line then
    let st' := flush st in
    mk_seg (Some (section_name line)) None (current_text st') (result st')
  else if is_subsection line then
    let st' := flush st in
    mk_seg (current_section st') (Some line) (current_text st') (result st')
  else
    mk_seg (current_section st) (current_subsection st)
           (current_text st ++ [line]) (result st).

(** The block after the loop. *)
Definition finish (st : seg_state) : list paragraph :=
  if pending st then result st ++ [flushed st] else result st.

(** [lines = [ln.rstrip() for ln in text.splitlines()]] *)
Definition raw_lines (text : string) : list string :=
  map rstrip (splitlines text).

Definition detect_sections_from_text (text : string) : list paragraph :=
  if is_empty text then []
  else finish (fold_left step (raw_lines text) seg_init).

(** The lines as the loop body sees them, after [line.strip()]. *)
Definition seen_lines (text : string) : list string :=
  map strip (raw_lines text).

(** The reading of "text preceding the first detected heading is
    discarded": whenever the lines split into a heading-free prefix, a
    first main heading and the rest, no non-blank line of the prefix
    occurs in the text of an emitted paragraph. *)
Definition preheading_discarded (text : string) : Prop :=
  forall pre h post,
    seen_lines text = (pre ++ h :: post)%list ->
    (forall l, In l pre -> is_main_heading l = false) ->
    is_main_heading h = true ->
    forall r l, In r (detect_sections_from_text text) ->
                In l pre -> l <> "" -> str_in l (p_text r) = false.

End Segmenter.

(** ** Metadata extractor *)

Module Metadata.

(** The [metadata] dictionary: six fixed keys. *)
Record metadata := mk_metadata {
  fund_name : string;
  aum : string;
  benchmark : string;
  additional_benchmark : string;
  fund_manager : string;
  launch_date : string
}.

Definition NA : string := "N/A".

Definition metadata_init : metadata := mk_metadata NA NA NA NA NA NA.

(** [metadata[k] == "N/A"] *)
Definition is_NA (s : string) : bool := String.eqb s NA.

Inductive field :=
  FundName | Aum | Benchmark | AdditionalBenchmark | FundManager | LaunchDate.

Definition get (f : field) (m : metadata) : string :=
  match f with
  | FundName => fund_name m
  | Aum => aum m
  | Benchmark => benchmark m
  | AdditionalBenchmark => additional_benchmark m
  | FundManager => fund_manager m
  | LaunchDate => launch_date m
  end.

(** [metadata[k] = v] *)
Definition set (f : field) (v : string) (m : metadata) : metadata :=
  match f with
  | FundName =>
      mk_metadata v (aum m) (benchmark m) (additional_benchmark m)
                  (fund_manager m) (launch_date m)
  | Aum =>
      mk_metadata (fund_name m) v (benchmark m) (additional_benchmark m)
                  (fund_manager m) (launch_date m)
  | Benchmark =>
      mk_metadata (fund_name m) (aum m) v (additional_benchmark m)
                  (fund_manager m) (launch_date m)
  | AdditionalBenchmark =>
      mk_metadata (fund_name m) (aum m) (benchmark m) v
                  (fund_manager m) (launch_date m)
  | FundManager =>
      mk_metadata (fund_name m) (aum m) (benchmark m) (additional_benchmark m)
                  v (launch_date m)
  | LaunchDate =>
      mk_metadata (fund_name m) (aum m) (benchmark m) (additional_benchmark m)
                  (fund_manager m) v
  end.

(** [any(x in low for x in ["disclaimer", "page |", "mutual fund:"])] *)
Definition skipped (low : string) : bool :=
  any_in ["disclaimer"; "page |"; "mutual fund:"] low.

(** *** The regular expressions

    Each pattern is matched the way the backtracking matcher does on
    it.  In all of them a greedy repetition is followed by something
    that cannot start with a character of the repeated class, so only
    the longest repetition can succeed; the one exception, the
    [[A-Z\s]+] before [(FUND|SCHEME)], is tried at every length. *)

Definition is_AZ_or_space (c : ascii) : bool := is_AZ c || is_space c.

(** [(FUND|SCHEME)] after any number of further [[A-Z\s]] *)
Fixpoint fund_suffix (s : string) : bool :=
  prefix "FUND" s || prefix "SCHEME" s ||
  match s with
  | String c r => is_AZ_or_space c && fund_suffix r
  | "" => false
  end.

(** [re.match(r'^[A-Z][A-Z\s]+(FUND|SCHEME)', line)] *)
Definition match_fund_name (line : string) : bool :=
  match line with
  | String c (String d r) => is_AZ c && is_AZ_or_space d && fund_suffix r
  | _ => false
  end.

(** [re.search]: the match at the leftmost position that has one. *)
Fixpoint search (m : string -> option string) (s : string) : option string :=
  match m s with
  | Some x => Some x
  | None => match s with
            | String _ r => search m r
            | "" => None
            end
  end.

(** The first alternative, in order, that the text starts with, case
    ignored; the matched text is returned as it is written. *)
Definition first_alt (alts : list string) (s : string) : option string :=
  match find (fun u => prefix u (lower s)) alts with
  | Some u => Some (take (String.length u) s)
  | None => None
  end.

Definition is_numch (c : ascii) : bool :=
  is_digit c || Ascii.eqb c "," || Ascii.eqb c ".".

(** [([\d,\.]+\s*(cr|crore|lakh|million|billion))] at the start of [s] *)
Definition aum_at (s : string) : option string :=
  let '(num, r1) := span is_numch s in
  if is_empty num then None
  else
    let '(ws, r2) := span is_space r1 in
    match first_alt ["cr"; "crore"; "lakh"; "million"; "billion"] r2 with
    | Some u => Some (num ++ ws ++ u)
    | None => None
    end.

Definition months : list string :=
  ["jan"; "feb"; "mar"; "apr"; "may"; "jun";
   "jul"; "aug"; "sep"; "oct"; "nov"; "dec"].

(** [\d{1,2}\s+(jan|...|dec)[a-z]*\s+\d{2,4}] at the start of [s] *)
Definition date_named_at (s : string) : option string :=
  let '(d, r1) := span_upto 2 is_digit s in
  if is_empty d then None
  else
    let '(w1, r2) := span is_space r1 in
    if is_empty w1 then None
    else
      match first_alt months r2 with
      | None => None
      | Some mon =>
          let '(al, r4) := span is_letter (drop 3 r2) in
          let '(w2, r5) := span is_space r4 in
          if is_empty w2 then None
          else
            let '(y, _) := span_upto 4 is_digit r5 in
            if (String.length y <? 2)%nat then None
            else Some (d ++ w1 ++ mon ++ al ++ w2 ++ y)
      end.

Definition is_date_sep (c : ascii) : bool :=
  Ascii.eqb c "-" || Ascii.eqb c "/".

(** [\d{1,2}[-/]\d{1,2}[-/]\d{2,4}] at the start of [s] *)
Definition date_numeric_at (s : string) : option string :=
  let '(d1, r1) := span_upto 2 is_digit s in
  if is_empty d1 then None
  else
    match r1 with
    | String s1 r2 =>
        if is_date_sep s1 then
          let '(d2, r3) := span_upto 2 is_digit r2 in
          if is_empty d2 then None
          else
            match r3 with
            | String s2 r4 =>
                if is_date_sep s2 then
                  let '(y, _) := span_upto 4 is_digit r4 in
                  if (String.length y <? 2)%nat then None
                  else Some (d1 ++ String s1 d2 ++ String s2 y)
                else None
            | "" => None
            end
        else None
    | "" => None
    end.

Definition date_at (s : string) : option string :=
  match date_named_at s with
  | Some x => Some x
  | None => date_numeric_at s
  end.

(** [line.split(":", 1)[1]], when [":" in line] *)
Fixpoint after_colon (s : string) : option string :=
  match s with
  | "" => None
  | String c r => if Ascii.eqb c ":" then Some r else after_colon r
  end.

(** The value both colon rules store: the stripped text after the first
    colon, or the whole stripped line when there is no colon. *)
Definition colon_value (line : string) : string :=
  match after_colon line with
  | Some r => strip r
  | None => strip line
  end.

(** *** The rules, in the order of the loop body *)

Definition rule_fund_name (line low : string) (m : metadata) : metadata :=
  if is_NA (fund_name m) && match_fund_name line
  then set FundName line m else m.

Definition rule_aum (line low : string) (m : metadata) : metadata :=
  if is_NA (aum m) &&
     (str_in "aum" low || str_in "assets under management" low)
  then match search aum_at line with
       | Some v => set Aum v m
       | None => m
       end
  else m.

Definition rule_benchmark (line low : string) (m : metadata) : metadata :=
  if str_in "benchmark" low then
    let name := colon_value line in
    if str_in "additional" low then
      if is_NA (additional_benchmark m) then set AdditionalBenchmark name m else m
    else
      if is_NA (benchmark m) then set Benchmark name m else m
  else m.

Definition rule_fund_manager (line low : string) (m : metadata) : metadata :=
  if str_in "fund manager" low && is_NA (fund_manager m)
  then set FundManager (colon_value line) m else m.

Definition rule_launch_date (line low : string) (m : metadata) : metadata :=
  if (str_in "launch" low || str_in "inception" low) && is_NA (launch_date m)
  then match search date_at line with
       | Some v => set LaunchDate v m
       | None => m
       end
  else m.

(** One iteration of the loop over the lines of a page. *)
Definition step (m : metadata) (line : string) : metadata :=
  let low := lower line in
  if skipped low then m
  else
    rule_launch_date line low
      (rule_fund_manager line low
        (rule_benchmark line low
          (rule_aum line low
            (rule_fund_name line low m)))).

(** [[ln.strip() for ln in text.split("\n") if ln.strip()]] *)
Definition page_lines (text : string) : list string :=
  map strip (filter (fun ln => negb (is_empty (strip ln))) (split_lf text)).

(** [page.extract_text() or ""] *)
Definition text_or_empty (t : option string) : string :=
  match t with Some s => s | None => "" end.

(** [extract_metadata], on the texts the pages extract to. *)
Definition extract_metadata (pages : list (option string)) : metadata :=
  fold_left
    (fun m page => fold_left step (page_lines (text_or_empty page)) m)
    pages metadata_init.

(** What the rule of a field stores for a line when the field is still
    ["N/A"]: [None] when the line is skipped or the rule does not match. *)
Definition capture (f : field) (line : string) : option string :=
  let low := lower line in
  if skipped low then None
  else
    match f with
    | FundName => if match_fund_name line then Some line else None
    | Aum =>
        if str_in "aum" low || str_in "assets under management" low
        then search aum_at line else None
    | Benchmark =>
        if str_in "benchmark" low && negb (str_in "additional" low)
        then Some (colon_value line) else None
    | AdditionalBenchmark =>
        if str_in "benchmark" low && str_in "additional" low
        then Some (colon_value line) else None
    | FundManager =>
        if str_in "fund manager" low then Some (colon_value line) else None
    | LaunchDate =>
        if str_in "launch" low || str_in "inception" low
        then search date_at line else None
    end.

(** The reading of "the first line in document order that matches the
    field's rule determines its value": whatever the first matching
    line makes the rule store is the extracted value. *)
Definition first_match_wins (f : field) (lines : list string) : Prop :=
  forall pre l post v,
    lines = (pre ++ l :: post)%list ->
    (forall x, In x pre -> capture f x = None) ->
    capture f l = Some v ->
    get f (fold_left step lines metadata_init) = v.

End Metadata.

(** ** Document assembler *)

Module Assembler.

Import Classifier Segmenter Metadata.
Local Open Scope list_scope.

(** Object identity.  The dictionaries and lists the assembler builds
    are never mutated once they are linked into the document, so an
    object is its creation number together with its contents: two
    occurrences are the same object exactly when the numbers agree.
    Numbers are drawn from a counter threaded through the run. *)
Definition oid := nat.

(** The list object [cleaned] that [extract_tables_from_page] builds for
    one table. *)
Record table_obj := mk_table_obj {
  t_id : oid;
  t_rows : table
}.

(** The dictionary appended to [result["sections"][section_type]]. *)
Record section_entry := mk_section_entry {
  se_id : oid;
  se_page : nat;
  se_table_data : table_obj;
  se_section_name : option string
}.

(** The dictionaries appended to [page_entry["content"]], by ["type"]. *)
Inductive content_entry :=
| CParagraph (p : paragraph)
| CTable (id : oid) (section : option string) (table_data : table_obj)
| CChart (image : string) (description : option string).

Record page_entry := mk_page_entry {
  page_number : nat;
  content : list content_entry
}.

(** [result["sections"]]: a dictionary, kept in insertion order. *)
Definition sections_map := list (string * list section_entry).

Record document := mk_document {
  doc_metadata : metadata;
  doc_sections : sections_map;
  doc_pages : list page_entry
}.

(** What the PDF libraries hand over for one page: the extracted text
    ([None] when there is none), the raw tables with their possibly
    missing cells (no table when the extraction fails), and the paths of
    the images that were saved. *)
Record pdf_page := mk_pdf_page {
  extract_text : option string;
  extract_tables : list (list (list (option string)));
  page_images : list string
}.

(** [("" if c is None else str(c).strip())] *)
Definition clean_cell (c : option string) : string :=
  match c with
  | None => ""
  | Some s => strip s
  end.

(** The two comprehensions on [cleaned]: cells cleaned, then the rows
    without any non-empty cell dropped. *)
Definition clean_table (tbl : list (list (option string))) : table :=
  filter (fun r => existsb (fun cell => negb (String.eqb cell "")) r)
         (map (map clean_cell) tbl).

(** One iteration of [for tbl in raw_tables]: a cleaned table that
    still has a row is kept, as a new list object. *)
Definition keep_table (acc : list table_obj * oid)
    (tbl : list (list (option string))) : list table_obj * oid :=
  let '(tables, n) := acc in
  match clean_table tbl with
  | [] => (tables, n)
  | cleaned => (tables ++ [mk_table_obj n cleaned], S n)
  end.

(** [extract_tables_from_page], from creation number [n] on. *)
Definition extract_tables_from_page (n : oid)
    (raw : list (list (list (option string)))) : list table_obj * oid :=
  fold_left keep_table raw ([], n).

(** [sections.setdefault(k, []).append(v)] *)
Fixpoint setdefault_append (k : string) (v : section_entry)
    (m : sections_map) : sections_map :=
  match m with
  | [] => [(k, [v])]
  | (k', vs) :: m' =>
      if String.eqb k' k then (k', vs ++ [v]) :: m'
      else (k', vs) :: setdefault_append k v m'
  end.

(** [sections[k]], the empty list standing for a missing key *)
Fixpoint lookup (k : string) (m : sections_map) : list section_entry :=
  match m with
  | [] => []
  | (k', vs) :: m' => if String.eqb k' k then vs else lookup k m'
  end.

Definition sections_init : sections_map :=
  [("portfolio", []); ("scheme_performance", []); ("allocation", []);
   ("risk", []); ("macro", []); ("debt_portfolio", [])].

(** The state of the loop over the tables of a page. *)
Record tbl_state := mk_tbl_state {
  ts_next : oid;
  ts_sections : sections_map;
  ts_content : list content_entry
}.

(** One iteration of [for tbl in tables]: the section dictionary is
    built first, when the table is classified, then the content one. *)
Definition add_table (page_no : nat) (st : tbl_state) (tbl : table_obj)
    : tbl_state :=
  let '(section_type, section_name) := classify_table (t_rows tbl) in
  let '(n1, sections1) :=
    match section_type with
    | Some k =>
        if is_empty k then (ts_next st, ts_sections st)
        else (S (ts_next st),
              setdefault_append k
                (mk_section_entry (ts_next st) page_no tbl section_name)
                (ts_sections st))
    | None => (ts_next st, ts_sections st)
    end in
  mk_tbl_state (S n1) sections1
               (ts_content st ++ [CTable n1 section_name tbl]).

(** The state of the loop over the pages. *)
Record asm_state := mk_asm_state {
  as_next : oid;
  as_sections : sections_map;
  as_pages : list page_entry
}.

Section Parse.

(** [--ocr], and the text the OCR service reads in an image. *)
Variable do_ocr : bool.
Variable ocr_image : string -> string.

Definition chart_entry (path : string) : content_entry :=
  CChart path (if do_ocr then Some (ocr_image path) else None).

(** One iteration of [for i, pl_page in enumerate(plpdf.pages)]. *)
Definition add_page (st : asm_state) (ip : nat * pdf_page) : asm_state :=
  let '(i, pl_page) := ip in
  let page_no := i + 1 in
  let text := text_or_empty (extract_text pl_page) in
  let content0 := map CParagraph (detect_sections_from_text text) in
  let '(tables, n1) :=
    extract_tables_from_page (as_next st) (extract_tables pl_page) in
  let ts := fold_left (add_table page_no) tables
                      (mk_tbl_state n1 (as_sections st) content0) in
  let content2 := ts_content ts ++ map chart_entry (page_images pl_page) in
  mk_asm_state (ts_next ts) (ts_sections ts)
               (as_pages st ++ [mk_page_entry page_no content2]).

(** [enumerate(xs)] *)
Definition enumerate {A} (xs : list A) : list (nat * A) :=
  combine (seq 0 (List.length xs)) xs.

(** [parse_pdf_to_json], up to the [result] that is written out. *)
Definition parse_pdf_to_json (pdf : list pdf_page) : document :=
  let metadata := extract_metadata (map extract_text pdf) in
  let st := fold_left add_page (enumerate pdf)
                      (mk_asm_state 0 sections_init []) in
  mk_document metadata (as_sections st) (as_pages st).

End Parse.

(** *** Observations on a document *)

(** A table entry of a page: the page number, the identity of the
    entry, its ["section"] and its ["table_data"] object. *)
Record table_ref := mk_table_ref {
  tr_page : nat;
  tr_id : oid;
  tr_section : option string;
  tr_table : table_obj
}.

(** The table entries of a content list. *)
Fixpoint content_tables (page_no : nat) (cs : list content_entry)
    : list table_ref :=
  match cs with
  | [] => []
  | CTable id lab t :: cs' =>
      mk_table_ref page_no id lab t :: content_tables page_no cs'
  | _ :: cs' => content_tables page_no cs'
  end.

(** All table entries of all pages. *)
Definition page_tables (ps : list page_entry) : list table_ref :=
  flat_map (fun pe => content_tables (page_number pe) (content pe)) ps.

(** All entries of all [sections] lists, with their category. *)
Definition section_tables (m : sections_map) : list (string * section_entry) :=
  flat_map (fun kv => map (pair (fst kv)) (snd kv)) m.

(** The tables [extract_tables_from_page] keeps of a page: the cleaned
    ones that still have a row. *)
Definition kept_tables (pl_page : pdf_page) : list table :=
  filter (fun t => match t with [] => false | _ => true end)
         (map clean_table (extract_tables pl_page)).

(** The reading of "the entry in sections[category] is the same record
    (same object, not a copy) as the table entry in the page's content
    list". *)
Definition same_record (d : document) : Prop :=
  forall k se, In (k, se) (section_tables (doc_sections d)) ->
    exists tr, In tr (page_tables (doc_pages d)) /\ tr_id tr = se_id se.

End Assembler.


(** ** The persisted text form

    [json.dump(result, f, ensure_ascii=False, indent=2)] writes the
    document, and the report scripts read it back with [json.load].
    Both belong to Python's [json] package; they are modelled here on
    the values a document is made of: [None], integers, strings, lists
    and dictionaries with string keys.  The text is taken as the
    sequence of characters handed to the file object and got back from
    it (both sides open the file as UTF-8). *)

Module Json.

Local Open Scope list_scope.

#[local] Unset Elimination Schemes.

Inductive json :=
| JNull
| JInt (z : Z)
| JStr (s : string)
| JArr (vs : list json)
| JObj (kvs : list (string * json)).

#[local] Set Elimination Schemes.

(** The double quote and the backslash. *)
Definition DQ : ascii := ascii_of_nat 34.
Definition BS : ascii := ascii_of_nat 92.

(** *** Encoder *)

Definition hex_digit (n : nat) : ascii :=
  if (n <? 10)%nat then ascii_of_nat (48 + n) else ascii_of_nat (87 + n).

(** [ESCAPE_DCT]: the quote, the backslash and the control characters
    are escaped, the short escapes first, the others as [\u00xx]; every
    other character is written as it is ([ensure_ascii=False]). *)
Definition escape_char (c : ascii) : string :=
  if Ascii.eqb c DQ then String BS (String DQ "")
  else if Ascii.eqb c BS then String BS (String BS "")
  else if (code c =? 8)%nat then String BS "b"
  else if (code c =? 12)%nat then String BS "f"
  else if (code c =? 10)%nat then String BS "n"
  else if (code c =? 13)%nat then String BS "r"
  else if (code c =? 9)%nat then String BS "t"
  else if (code c <? 32)%nat then
    String BS (String "u" (String "0" (String "0"
      (String (hex_digit (code c / 16))
        (String (hex_digit (code c mod 16)) "")))))
  else String c "".

Fixpoint escape (s : string) : string :=
  match s with
  | "" => ""
  | String c r => (escape_char c ++ escape r)%string
  end.

(** [py_encode_basestring] *)
Definition encode_string (s : string) : string :=
  String DQ (escape s ++ String DQ "")%string.

(** [int.__repr__] *)
Definition encode_nat (n : N) : string :=
  DecimalString.NilEmpty.string_of_uint (N.to_uint n).

Definition encode_int (z : Z) : string :=
  if (z <? 0)%Z then String "-" (encode_nat (Z.abs_N z))
  else encode_nat (Z.abs_N z).

Fixpoint spaces (n : nat) : string :=
  match n with
  | 0 => ""
  | S n' => String " " (spaces n')
  end.

(** ['\n' + indent * level], with [indent=2] *)
Definition newline_indent (level : nat) : string :=
  (LF ++ spaces (2 * level))%string.

(** [',' + newline_indent] *)
Definition item_separator (level : nat) : string :=
  String "," (newline_indent level).

(** [_iterencode] at nesting depth [level]: an empty list is [[]], an
    empty dictionary [{}]; the items of the others come each on a line
    of its own, indented one level deeper, and the closing bracket on a
    line at the level of the value. *)
Fixpoint encode (level : nat) (v : json) : string :=
  match v with
  | JNull => "null"
  | JInt z => encode_int z
  | JStr s => encode_string s
  | JArr [] => "[]"
  | JArr vs =>
      ("[" ++ newline_indent (S level)
           ++ join (item_separator (S level)) (map (encode (S level)) vs)
           ++ newline_indent level ++ "]")%string
  | JObj [] => "{}"
  | JObj kvs =>
      ("{" ++ newline_indent (S level)
           ++ join (item_separator (S level))
                (map (fun kv => let '(k, x) := kv in
                                encode_string k ++ ": " ++ encode (S level) x)
                     kvs)
           ++ newline_indent level ++ "}")%string
  end.

(** [json.dumps(v, ensure_ascii=False, indent=2)]: the text that
    [json.dump] writes. *)
Definition json_dumps (v : json) : string := encode 0 v.

(** *** Decoder *)

(** [WHITESPACE]: space, TAB, LF, CR *)
Definition is_ws (c : ascii) : bool :=
  (code c =? 32)%nat || (code c =? 9)%nat || (code c =? 10)%nat
  || (code c =? 13)%nat.

Fixpoint skip_ws (s : string) : string :=
  match s with
  | "" => ""
  | String c r => if is_ws c then skip_ws r else s
  end.

Definition hex_value (c : ascii) : option nat :=
  if is_digit c then Some (code c - 48)
  else if between 97 102 c then Some (code c - 87)
  else if between 65 70 c then Some (code c - 55)
  else None.

(** [BACKSLASH]: the one-character escapes *)
Definition unescape (c : ascii) : option ascii :=
  if Ascii.eqb c DQ then Some DQ
  else if Ascii.eqb c BS then Some BS
  else if Ascii.eqb c "/" then Some "/"%char
  else if Ascii.eqb c "b" then Some (ascii_of_nat 8)
  else if Ascii.eqb c "f" then Some (ascii_of_nat 12)
  else if Ascii.eqb c "n" then Some (ascii_of_nat 10)
  else if Ascii.eqb c "r" then Some (ascii_of_nat 13)
  else if Ascii.eqb c "t" then Some (ascii_of_nat 9)
  else None.

Definition cons_char (c : ascii) (r : option (string * string))
    : option (string * string) :=
  match r with
  | Some (t, rest) => Some (String c t, rest)
  | None => None
  end.

(** [scanstring], after the opening quote, in strict mode: the string
    read and the text after the closing quote.  A [\u] escape beyond
    the characters of the model is given up on. *)
Fixpoint scan_string (s : string) : option (string * string) :=
  match s with
  | "" => None
  | String c r =>
      if Ascii.eqb c DQ then Some ("", r)
      else if Ascii.eqb c BS then
        match r with
        | String "u" (String h1 (String h2 (String h3 (String h4 r')))) =>
            match hex_value h1, hex_value h2, hex_value h3, hex_value h4 with
            | Some a, Some b, Some c', Some d =>
                let n := ((a * 16 + b) * 16 + c') * 16 + d in
                if (n <? 256)%nat
                then cons_char (ascii_of_nat n) (scan_string r')
                else None
            | _, _, _, _ => None
            end
        | String e r' =>
            match unescape e with
            | Some x => cons_char x (scan_string r')
            | None => None
            end
        | "" => None
        end
      else if (code c <? 32)%nat then None
      else cons_char c (scan_string r)
  end.

(** Whether the text starts with the character [c], and what follows
    its first character. *)
Definition head_is (c : ascii) (s : string) : bool :=
  match s with
  | String d _ => Ascii.eqb d c
  | "" => false
  end.

Definition tail (s : string) : string :=
  match s with
  | String _ r => r
  | "" => ""
  end.

(** Whether a fraction [\.\d+] or an exponent [[eE][-+]?\d+] follows:
    the number is then a float, which no document holds. *)
Definition float_tail (s : string) : bool :=
  match s with
  | String c r =>
      if Ascii.eqb c "." then
        match r with String d _ => is_digit d | "" => false end
      else if Ascii.eqb c "e" || Ascii.eqb c "E" then
        match r with
        | String sg r' =>
            is_digit sg ||
            ((Ascii.eqb sg "+" || Ascii.eqb sg "-") &&
             match r' with String d _ => is_digit d | "" => false end)
        | "" => false
        end
      else false
  | "" => false
  end.

(** The integer part of [NUMBER_RE]: a lone zero, or a digit from 1 to
    9 followed by any number of digits. *)
Definition scan_nat (s : string) : option (N * string) :=
  match s with
  | String c r =>
      if Ascii.eqb c "0" then Some (0%N, r)
      else if is_digit c then
        let '(ds, rest) := span is_digit s in
        match DecimalString.NilEmpty.uint_of_string ds with
        | Some u => Some (N.of_uint u, rest)
        | None => None
        end
      else None
  | "" => None
  end.

(** [NUMBER_RE] at the start of [s], for an integer. *)
Definition scan_number (s : string) : option (json * string) :=
  let neg := head_is "-" s in
  match scan_nat (if neg then tail s else s) with
  | Some (n, rest) =>
      if float_tail rest then None
      else Some (JInt (if neg then Z.opp (Z.of_N n) else Z.of_N n), rest)
  | None => None
  end.

(** [d[k] = v] on a dictionary kept in insertion order *)
Fixpoint dict_set (k : string) (v : json) (d : list (string * json))
    : list (string * json) :=
  match d with
  | [] => [(k, v)]
  | (k', v') :: d' =>
      if String.eqb k' k then (k', v) :: d'
      else (k', v') :: dict_set k v d'
  end.

(** [dict(pairs)] *)
Definition dict_of_pairs (pairs : list (string * json)) : list (string * json) :=
  fold_left (fun d kv => dict_set (fst kv) (snd kv) d) pairs [].

(** [scan_once], with [JSONArray] and [JSONObject]; [fuel] bounds the
    number of values and items read.  [true], [false] and the float
    constants, which no document holds, are given up on. *)
Fixpoint parse_value (fuel : nat) (s : string) : option (json * string) :=
  match fuel with
  | 0 => None
  | S f =>
      if head_is DQ s then
        match scan_string (tail s) with
        | Some (t, rest) => Some (JStr t, rest)
        | None => None
        end
      else if head_is "{" s then
        let r1 := skip_ws (tail s) in
        if head_is "}" r1 then Some (JObj [], tail r1)
        else
          match parse_members f r1 with
          | Some (pairs, rest) => Some (JObj (dict_of_pairs pairs), rest)
          | None => None
          end
      else if head_is "[" s then
        let r1 := skip_ws (tail s) in
        if head_is "]" r1 then Some (JArr [], tail r1)
        else
          match parse_elements f r1 with
          | Some (vs, rest) => Some (JArr vs, rest)
          | None => None
          end
      else if head_is "n" s then
        if prefix "null" s then Some (JNull, drop 4 s) else None
      else scan_number s
  end

with parse_elements (fuel : nat) (s : string) : option (list json * string) :=
  match fuel with
  | 0 => None
  | S f =>
      match parse_value f s with
      | Some (v, r) =>
          let r1 := skip_ws r in
          if head_is "]" r1 then Some ([v], tail r1)
          else if head_is "," r1 then
            match parse_elements f (skip_ws (tail r1)) with
            | Some (vs, rest) => Some (v :: vs, rest)
            | None => None
            end
          else None
      | None => None
      end
  end

with parse_members (fuel : nat) (s : string)
    : option (list (string * json) * string) :=
  match fuel with
  | 0 => None
  | S f =>
      if head_is DQ s then
        match scan_string (tail s) with
        | Some (k, r1) =>
            let r2 := skip_ws r1 in
            if head_is ":" r2 then
              match parse_value f (skip_ws (tail r2)) with
              | Some (v, r3) =>
                  let r4 := skip_ws r3 in
                  if head_is "}" r4 then Some ([(k, v)], tail r4)
                  else if head_is "," r4 then
                    match parse_members f (skip_ws (tail r4)) with
                    | Some (kvs, rest) => Some ((k, v) :: kvs, rest)
                    | None => None
                    end
                  else None
              | None => None
              end
            else None
        | None => None
        end
      else None
  end.

(** [json.loads(s)]: one value, with nothing but white space around
    it.  One unit of fuel per character is more than a text can use. *)
Definition json_loads (s : string) : option json :=
  match parse_value (S (String.length s)) (skip_ws s) with
  | Some (v, rest) => if is_empty (skip_ws rest) then Some v else None
  | None => None
  end.

(** *** The document as the value that is dumped *)

Import Segmenter Metadata Assembler.

Definition jstr_or_null (o : option string) : json :=
  match o with
  | Some s => JStr s
  | None => JNull
  end.

Definition jnat (n : nat) : json := JInt (Z.of_nat n).

(** [table_data]: a list of lists of strings *)
Definition table_to_json (t : table_obj) : json :=
  JArr (map (fun row => JArr (map JStr row)) (t_rows t)).

Definition metadata_to_json (m : metadata) : json :=
  JObj [("fund_name", JStr (fund_name m));
        ("aum", JStr (aum m));
        ("benchmark", JStr (benchmark m));
        ("additional_benchmark", JStr (additional_benchmark m));
        ("fund_manager", JStr (fund_manager m));
        ("launch_date", JStr (launch_date m))].

Definition section_entry_to_json (se : section_entry) : json :=
  JObj [("page", jnat (se_page se));
        ("table_data", table_to_json (se_table_data se));
        ("section_name", jstr_or_null (se_section_name se))].

Definition content_to_json (c : content_entry) : json :=
  match c with
  | CParagraph p =>
      JObj [("type", JStr "paragraph");
            ("section", jstr_or_null (p_section p));
            ("sub_section", jstr_or_null (p_sub_section p));
            ("text", JStr (p_text p))]
  | CTable _ section table_data =>
      JObj [("type", JStr "table");
            ("section", jstr_or_null section);
            ("table_data", table_to_json table_data)]
  | CChart image description =>
      JObj [("type", JStr "chart");
            ("image", JStr image);
            ("description", jstr_or_null description)]
  end.

Definition page_to_json (pe : page_entry) : json :=
  JObj [("page_number", jnat (page_number pe));
        ("content", JArr (map content_to_json (content pe)))].

(** [result], as [json.dump] walks it. *)
Definition document_to_json (d : document) : json :=
  JObj [("metadata", metadata_to_json (doc_metadata d));
        ("sections",
         JObj (map (fun kv => (fst kv, JArr (map section_entry_to_json (snd kv))))
                   (doc_sections d)));
        ("pages", JArr (map page_to_json (doc_pages d)))].

End Json.

(** ** Image files: naming, hashing, duplicates *)

Module Images.

Local Open Scope list_scope.

(** [str(n)] of a number that is not negative *)
Definition str_of_nat (n : nat) : string := Json.encode_nat (N.of_nat n).

(** [f"page_{page_index+1}_img_{img_idx}.png"] *)
Definition base_name (page_index img_idx : nat) : string :=
  ("page_" ++ str_of_nat (page_index + 1) ++ "_img_" ++ str_of_nat img_idx
   ++ ".png")%string.

(** The dictionary [{"image_path": ..., "page_index": ...}]. *)
Record image_meta := mk_image_meta {
  image_path : string;
  page_index : nat
}.

Section Paths.

(** [os.path.join] *)
Variable path_join : string -> string -> string.

(** [enumerate(xs, start=n)] *)
Fixpoint enumerate_from {A} (n : nat) (xs : list A) : list (nat * A) :=
  match xs with
  | [] => []
  | x :: xs' => (n, x) :: enumerate_from (S n) xs'
  end.

(** [extract_images_with_pymupdf], on the images of the page: for each
    one, whether making and saving its pixmap goes through. *)
Definition extract_images_with_pymupdf (images_dir : string)
    (page_idx : nat) (images : list bool) : list image_meta :=
  fold_left
    (fun results ii =>
       let '(img_idx, saved) := ii in
       let path := path_join images_dir (base_name page_idx img_idx) in
       if saved : bool
       then results ++ [mk_image_meta path (page_idx + 1)]
       else results)
    (enumerate_from 1 images) [].

End Paths.

Section Hashing.

(** [hashlib.md5()]: the fresh hasher, [update] and [hexdigest]. *)
Variable hasher : Type.
Variable md5 : hasher.
Variable update : hasher -> list Byte.byte -> hasher.
Variable hexdigest : hasher -> string.

(** [f.read(n)] on what is left of the file: everything for a negative
    [n], else at most [n] bytes; the bytes read and the bytes left. *)
Definition read (n : Z) (rest : list Byte.byte)
    : list Byte.byte * list Byte.byte :=
  if (n <? 0)%Z then (rest, [])
  else (firstn (Z.to_nat n) rest, skipn (Z.to_nat n) rest).

(** [while buf: hasher.update(buf); buf = f.read(blocksize)], with a
    bound on the number of rounds. *)
Fixpoint feed (fuel : nat) (blocksize : Z) (h : hasher)
    (buf rest : list Byte.byte) : option hasher :=
  match buf with
  | [] => Some h
  | _ =>
      match fuel with
      | 0 => None
      | S fuel' =>
          let '(buf', rest') := read blocksize rest in
          feed fuel' blocksize (update h buf) buf' rest'
      end
  end.

(** [file_hash(path, blocksize)], on the content of the file; [None]
    as a content is a file that cannot be opened or read, [None] as a
    result an exception. *)
Definition file_hash (content : option (list Byte.byte)) (blocksize : Z)
    : option string :=
  match content with
  | None => None
  | Some bytes =>
      let '(buf, rest) := read blocksize bytes in
      match feed (List.length bytes) blocksize md5 buf rest with
      | Some h => Some (hexdigest h)
      | None => None
      end
  end.

(** An entry of the images directory: a regular file, with its content
    when it can be read and whether [os.remove] succeeds on it, or
    something that is not a file. *)
Inductive node :=
| NFile (content : option (list Byte.byte)) (removable : bool)
| NOther.

Definition entry := (string * node)%type.

(** The digest [file_hash] gives for an entry, if any. *)
Definition digest_of (e : entry) : option string :=
  match snd e with
  | NFile content _ => file_hash content 65536
  | NOther => None
  end.

(** The state of the loop: the dictionary [seen], the counter
    [removed], and, for the file system, the entries still there and
    the ones [os.remove] deleted. *)
Record dedup_state := mk_dedup {
  seen : list (string * string);
  removed : nat;
  kept : list entry;
  deleted : list entry
}.

Variable path_join : string -> string -> string.

(** One iteration of [for fname in os.listdir(images_dir)]. *)
Definition visit (images_dir : string) (st : dedup_state) (e : entry)
    : dedup_state :=
  let fpath := path_join images_dir (fst e) in
  let stay := mk_dedup (seen st) (removed st) (kept st ++ [e]) (deleted st) in
  match snd e with
  | NOther => stay
  | NFile content removable =>
      match file_hash content 65536 with
      | None => stay
      | Some h =>
          if existsb (String.eqb h) (map fst (seen st)) then
            if removable
            then mk_dedup (seen st) (S (removed st)) (kept st) (deleted st ++ [e])
            else stay
          else mk_dedup (seen st ++ [(h, fpath)]) (removed st)
                        (kept st ++ [e]) (deleted st)
      end
  end.

(** [remove_duplicate_images(images_dir)], on the listing of the
    directory, [None] when the directory does not exist: the entries
    left, the entries deleted and the counter. *)
Definition remove_duplicate_images (images_dir : string)
    (listing : option (list entry)) : option (list entry) * list entry * nat :=
  match listing with
  | None => (None, [], 0)
  | Some entries =>
      let st := fold_left (visit images_dir) entries (mk_dedup [] 0 [] []) in
      (Some (kept st), deleted st, removed st)
  end.

End Hashing.

End Images.

(** ** analyze_output.py: the tables the charts are drawn from *)

Module Analyze.

Import Json.
Local Open Scope list_scope.

(** [d[k]] for a string [k]: a [KeyError] or a [TypeError] is [None]. *)
Fixpoint assoc (k : string) (kvs : list (string * json)) : option json :=
  match kvs with
  | [] => None
  | (k', v) :: kvs' => if String.eqb k' k then Some v else assoc k kvs'
  end.

Definition getitem (v : json) (k : string) : option json :=
  match v with
  | JObj kvs => assoc k kvs
  | _ => None
  end.

(** [d.get(k, default)]: only a dictionary has the method. *)
Definition get (v : json) (k : string) (default : json) : option json :=
  match v with
  | JObj kvs =>
      match assoc k kvs with
      | Some x => Some x
      | None => Some default
      end
  | _ => None
  end.

Fixpoint chars (s : string) : list json :=
  match s with
  | "" => []
  | String c r => JStr (String c "") :: chars r
  end.

(** What [for x in v] runs through: the items of a list, the keys of a
    dictionary, the characters of a string; nothing else is iterable. *)
Definition iterate (v : json) : option (list json) :=
  match v with
  | JArr vs => Some vs
  | JObj kvs => Some (map (fun kv => JStr (fst kv)) kvs)
  | JStr s => Some (chars s)
  | _ => None
  end.

(** The truth value of a value. *)
Definition truthy (v : json) : bool :=
  match v with
  | JNull => false
  | JInt z => negb (Z.eqb z 0)
  | JStr s => negb (PyStr.is_empty s)
  | JArr vs => match vs with [] => false | _ => true end
  | JObj kvs => match kvs with [] => false | _ => true end
  end.

(** The dictionary appended to [tables]. *)
Record table_rec := mk_table_rec {
  a_table_data : json;
  a_section : json;
  a_page : json
}.

(** The body of [for block in page["content"]]. *)
Definition visit_block (page : json) (tables : list table_rec) (block : json)
    : option (list table_rec) :=
  match getitem block "type" with
  | None => None
  | Some ty =>
      match ty with
      | JStr "table" =>
          match get block "table_data" (JArr []) with
          | None => None
          | Some td =>
              match get block "section" (JStr "") with
              | None => None
              | Some sec =>
                  match getitem page "page_number" with
                  | None => None
                  | Some pn => Some (tables ++ [mk_table_rec td sec pn])
                  end
              end
          end
      | _ => Some tables
      end
  end.

(** A loop whose body can raise. *)
Fixpoint for_each {A B} (body : A -> B -> option A) (xs : list B) (acc : A)
    : option A :=
  match xs with
  | [] => Some acc
  | x :: xs' =>
      match body acc x with
      | Some acc' => for_each body xs' acc'
      | None => None
      end
  end.

(** The body of [for page in data["pages"]]. *)
Definition visit_page (tables : list table_rec) (page : json)
    : option (list table_rec) :=
  match getitem page "content" with
  | None => None
  | Some content =>
      match iterate content with
      | None => None
      | Some blocks => for_each (visit_block page) blocks tables
      end
  end.

(** Lines 15 to 23: the list [tables], or [None] for an exception. *)
Definition collect_tables (data : json) : option (list table_rec) :=
  match getitem data "pages" with
  | None => None
  | Some pages =>
      match iterate pages with
      | None => None
      | Some ps => for_each visit_page ps []
      end
  end.

Section Macro.

(** [str(v)] for a list or a dictionary. *)
Variable py_repr : json -> string.

(** [str(v)] *)
Definition py_str (v : json) : string :=
  match v with
  | JStr s => s
  | JNull => "None"
  | JInt z => encode_int z
  | _ => py_repr v
  end.

(** [len(v) > 0]; a number or [None] has no length. *)
Definition len_positive (v : json) : option bool :=
  match v with
  | JStr s => Some (negb (PyStr.is_empty s))
  | JArr vs => Some (match vs with [] => false | _ => true end)
  | JObj kvs => Some (match kvs with [] => false | _ => true end)
  | _ => None
  end.

(** [v[0]] *)
Definition first_item (v : json) : option json :=
  match v with
  | JArr (x :: _) => Some x
  | JStr (String c _) => Some (JStr (String c ""))
  | _ => None
  end.

(** [str(table_data[0]) if table_data and len(table_data) > 0 else ""] *)
Definition first_row (table_data : json) : option string :=
  if truthy table_data then
    match len_positive table_data with
    | None => None
    | Some true =>
        match first_item table_data with
        | Some x => Some (py_str x)
        | None => None
        end
    | Some false => Some ""
    end
  else Some "".

(** The body of the loop that fills [performance_tables]. *)
Definition visit_performance (performance_tables : list table_rec)
    (t : table_rec) : option (list table_rec) :=
  let table_data := a_table_data t in
  let section := py_str (a_section t) in
  match first_row table_data with
  | None => None
  | Some row =>
      if PyStr.str_in "Performance Data" section
         || PyStr.str_in "Scheme Performance" row
         || PyStr.str_in "PTP" row
      then Some (performance_tables ++ [t])
      else Some performance_tables
  end.

(** Lines 34 to 42. *)
Definition performance_tables (tables : list table_rec)
    : option (list table_rec) :=
  for_each visit_performance tables [].

(** The body of the loop that fills [macro_tables]. *)
Definition visit_macro (macro_tables : list table_rec) (t : table_rec)
    : option (list table_rec) :=
  let table_data := a_table_data t in
  let section := PyStr.lower (py_str (a_section t)) in
  match first_row table_data with
  | None => None
  | Some row =>
      if (PyStr.str_in "macro" section
          || PyStr.str_in "macro-economic indicators" (PyStr.lower row))
         && truthy table_data
      then Some (macro_tables ++ [t])
      else Some macro_tables
  end.

(** Lines 128 to 134. *)
Definition macro_tables (tables : list table_rec) : option (list table_rec) :=
  for_each visit_macro tables [].

End Macro.

End Analyze.


(** * Properties *)

(** ** Table classifier *)

Module ClassifierProps.

Import Classifier.

(** The eight possible results of [classify_table]. *)
Definition outcomes : list (option string * option string) :=
  [ (None, None);
    (Some "scheme_performance", Some "Performance Data");
    (Some "scheme_performance", Some "SIP Performance");
    (Some "portfolio", Some "Holdings");
    (Some "debt_portfolio", Some "Debt Holdings");
    (Some "allocation", Some "Allocation Data");
    (Some "risk", Some "Risk Metrics");
    (Some "macro", Some "Economic Indicators") ].

Lemma classify_header_outcomes h : In (classify_header h) outcomes.
Proof.
  unfold classify_header, outcomes.
  destruct (rule_performance h); [simpl; tauto|].
  destruct (rule_sip h); [simpl; tauto|].
  destruct (rule_holdings h); [destruct (rule_debt h); simpl; tauto|].
  destruct (rule_allocation h); [simpl; tauto|].
  destruct (rule_risk h); [simpl; tauto|].
  destruct (rule_macro h); simpl; tauto.
Qed.

Lemma any_in_last xs x h : str_in x h = true -> any_in (xs ++ [x]) h = true.
Proof.
  intros Hx. unfold any_in. rewrite existsb_app. simpl.
  rewrite Hx. now rewrite orb_true_r.
Qed.

(** A header string with "allocation" in it satisfies the condition of
    the allocation rule. *)
Lemma allocation_rule_fires h :
  str_in "allocation" h = true -> rule_allocation h = true.
Proof.
  intros H.
  exact (any_in_last ["sector allocation"; "group allocation";
                      "market capitalisation"] "allocation" h H).
Qed.

(** C2, as stated, fails: the header ["Risk", "Sector Allocation"] has
    both "risk" and "allocation" in its header string, and is classified
    as portfolio, by the holdings rule on "sector", which is tried
    before the allocation rule. *)
Lemma risk_allocation_not_always_allocation :
  let t := [["Risk"; "Sector Allocation"]] in
  str_in "risk" (header_str ["Risk"; "Sector Allocation"]) = true /\
  str_in "allocation" (header_str ["Risk"; "Sector Allocation"]) = true /\
  classify_table t = (Some "portfolio", Some "Holdings") /\
  fst (classify_table t) <> Some "allocation".
Proof.
  cbv zeta. repeat split; try (vm_compute; reflexivity).
  vm_compute. discriminate.
Qed.

(** C2, amended: a non-empty table whose header string contains both
    "risk" and "allocation" is never classified as risk, and it is
    classified as (allocation, "Allocation Data") exactly when none of
    the three rules tried before the allocation rule (performance, SIP,
    holdings) matches the header string. *)
Theorem risk_allocation_priority (row0 : list string) (rest : table) :
  str_in "risk" (header_str row0) = true ->
  str_in "allocation" (header_str row0) = true ->
  fst (classify_table (row0 :: rest)) <> Some "risk" /\
  (classify_table (row0 :: rest) = (Some "allocation", Some "Allocation Data")
   <-> rule_performance (header_str row0) = false /\
       rule_sip (header_str row0) = false /\
       rule_holdings (header_str row0) = false).
Proof.
  intros _ Ha. apply allocation_rule_fires in Ha.
  simpl. unfold classify_header. rewrite Ha.
  destruct (rule_performance _), (rule_sip _), (rule_holdings _);
    try destruct (rule_debt _); simpl;
    (split; [discriminate | split; [discriminate || tauto | intros (? & ? & ?); congruence]]).
Qed.

Lemma risk_allocation_priority_witness :
  fst (classify_table [["Risk"; "Allocation"]; ["x"; "y"]]) <> Some "risk" /\
  (classify_table [["Risk"; "Allocation"]; ["x"; "y"]]
     = (Some "allocation", Some "Allocation Data")
   <-> rule_performance (header_str ["Risk"; "Allocation"]) = false /\
       rule_sip (header_str ["Risk"; "Allocation"]) = false /\
       rule_holdings (header_str ["Risk"; "Allocation"]) = false).
Proof.
  apply (risk_allocation_priority ["Risk"; "Allocation"] [["x"; "y"]]);
    vm_compute; reflexivity.
Defined.

(** C5: [classify_table] is a function of the header row alone, and of
    that row only up to letter case: two non-empty tables whose header
    rows agree cell by cell once lower-cased get the same (category,
    label), whatever their other rows are. *)
Theorem classify_table_header_only (row0 row0' : list string)
    (rest rest' : table) :
  map lower row0 = map lower row0' ->
  classify_table (row0 :: rest) = classify_table (row0' :: rest').
Proof.
  intros H. simpl. unfold header_str. now rewrite H.
Qed.

Lemma classify_table_header_only_witness :
  classify_table [["Company"; "Weight"]; ["a"; "1"]; ["b"; "2"]]
  = classify_table [["COMPANY"; "weight"]; ["b"; "2"]].
Proof.
  apply (classify_table_header_only ["Company"; "Weight"] ["COMPANY"; "weight"]).
  vm_compute. reflexivity.
Defined.

(** C6: the three header scenarios, whatever rows follow the header,
    and the empty table. *)
Theorem classify_table_scenarios :
  (forall rest, classify_table (["Company"; "% to Net Assets"] :: rest)
                = (Some "portfolio", Some "Holdings")) /\
  (forall rest, classify_table (["Scheme"; "Last 1 Year"; "Since Inception"] :: rest)
                = (Some "scheme_performance", Some "Performance Data")) /\
  (forall rest, classify_table (["Sr"; "Unrelated"; "Stuff"] :: rest)
                = (None, None)) /\
  classify_table [] = (None, None).
Proof.
  repeat split; intros; vm_compute; reflexivity.
Qed.

(** C10: the result of [classify_table] is (null, null) or one of seven
    fixed pairs of a category and a label; so the category is null
    exactly when the label is. *)
Theorem classify_table_outcomes (t : table) :
  In (classify_table t) outcomes /\
  (fst (classify_table t) = None <-> snd (classify_table t) = None).
Proof.
  assert (H : In (classify_table t) outcomes).
  { destruct t as [|row0 rest]; [simpl; tauto|]. apply classify_header_outcomes. }
  split; [exact H|].
  unfold outcomes in H. simpl in H.
  repeat (destruct H as [H|H]; [rewrite <- H; simpl; split; congruence|]).
  contradiction.
Qed.

End ClassifierProps.

(** ** Text segmenter *)

Module SegmenterProps.

Import Segmenter.

(** C7: the segmentation scenario. *)
Theorem segmentation_scenario :
  detect_sections_from_text
    ("SUMMARY" ++ LF ++ "Alpha line" ++ LF ++ "Benchmark: X" ++ LF ++ "Beta line")
  = [ mk_paragraph (Some "SUMMARY") None "Alpha line";
      mk_paragraph (Some "SUMMARY") (Some "Benchmark: X") "Beta line" ].
Proof. vm_compute. reflexivity. Qed.

(** The invariant of the loop, relative to the lines [L] of the text:
    the open section and the section of every emitted paragraph are the
    names of main heading lines of the text. *)
Definition named_by (L : list string) (o : option string) : Prop :=
  exists h, In h L /\ is_main_heading h = true /\ o = Some (section_name h).

Definition sections_from (L : list string) (st : seg_state) : Prop :=
  (forall r, In r (result st) -> named_by L (p_section r)) /\
  (truthy (current_section st) = true -> named_by L (current_section st)).

Lemma pending_truthy st : pending st = true -> truthy (current_section st) = true.
Proof. unfold pending. intros H. now apply andb_true_iff in H. Qed.

Lemma emitted_named L st r :
  sections_from L st ->
  In r (result st ++ [flushed st])%list -> pending st = true ->
  named_by L (p_section r).
Proof.
  intros [Hres Hcur] Hin Hp. apply in_app_or in Hin as [Hin|[<-|[]]].
  - now apply Hres.
  - simpl. apply Hcur. now apply pending_truthy.
Qed.

Lemma flush_sections_from L st : sections_from L st -> sections_from L (flush st).
Proof.
  intros Hinv. unfold flush. destruct (pending st) eqn:Hp; [|exact Hinv].
  split; simpl.
  - intros r Hin. now apply (emitted_named L st).
  - apply Hinv.
Qed.

Lemma flush_current_section st : current_section (flush st) = current_section st.
Proof. unfold flush. now destruct (pending st). Qed.

Lemma step_sections_from L st raw :
  In (strip raw) L -> sections_from L st -> sections_from L (step st raw).
Proof.
  intros Hin Hinv. unfold step.
  destruct (is_empty (strip raw)); [exact Hinv|].
  destruct (is_main_heading (strip raw)) eqn:Hh.
  - split; simpl.
    + apply (flush_sections_from L st Hinv).
    + intros _. now exists (strip raw).
  - destruct (is_subsection (strip raw)).
    + split; simpl.
      * apply (flush_sections_from L st Hinv).
      * rewrite flush_current_section. apply Hinv.
    + split; simpl; apply Hinv.
Qed.

Lemma fold_sections_from L lines : forall st,
  (forall raw, In raw lines -> In (strip raw) L) ->
  sections_from L st -> sections_from L (fold_left step lines st).
Proof.
  induction lines as [|raw lines IH]; intros st Hl Hinv; simpl; [exact Hinv|].
  apply IH.
  - intros x Hx. apply Hl. now right.
  - apply step_sections_from; [apply Hl; now left | exact Hinv].
Qed.

Lemma finish_named L st r :
  sections_from L st -> In r (finish st) -> named_by L (p_section r).
Proof.
  intros Hinv. unfold finish. destruct (pending st) eqn:Hp.
  - intros Hin. now apply (emitted_named L st).
  - apply Hinv.
Qed.

Lemma detect_named text r :
  In r (detect_sections_from_text text) ->
  named_by (seen_lines text) (p_section r).
Proof.
  unfold detect_sections_from_text. destruct (is_empty text); [intros []|].
  apply finish_named. apply fold_sections_from.
  - intros raw Hraw. unfold seen_lines. now apply in_map.
  - split; simpl; [intros ? [] | discriminate].
Qed.

(** C1, as stated, fails: in "hello\nSUMMARY\nworld" the line "hello"
    precedes the first heading; the heading finds no open section, so
    the buffer is neither flushed nor emptied, and "hello" comes out in
    the paragraph of SUMMARY. *)
Lemma preheading_text_kept :
  detect_sections_from_text ("hello" ++ LF ++ "SUMMARY" ++ LF ++ "world")
  = [mk_paragraph (Some "SUMMARY") None "hello world"] /\
  ~ preheading_discarded ("hello" ++ LF ++ "SUMMARY" ++ LF ++ "world").
Proof.
  split; [vm_compute; reflexivity|].
  intros H.
  specialize (H ["hello"] "SUMMARY" ["world"]).
  assert (Hf : str_in "hello" "hello world" = false).
  { apply (H eq_refl) with (r := mk_paragraph (Some "SUMMARY") None "hello world").
    - intros l [<-|[]]. vm_compute. reflexivity.
    - vm_compute. reflexivity.
    - vm_compute. left. reflexivity.
    - now left.
    - discriminate. }
  vm_compute in Hf. discriminate.
Qed.

(** C1, amended: text is emitted only under a detected main heading.
    The section of every emitted paragraph is the name of a main
    heading line of the text, never null; and a text without any main
    heading line (such as "hello\nworld") produces no paragraph at all. *)
Theorem paragraphs_need_heading (text : string) :
  (forall r, In r (detect_sections_from_text text) ->
     exists h, In h (seen_lines text) /\ is_main_heading h = true /\
               p_section r = Some (section_name h)) /\
  ((forall l, In l (seen_lines text) -> is_main_heading l = false) ->
   detect_sections_from_text text = []).
Proof.
  split.
  - intros r Hin. exact (detect_named text r Hin).
  - intros Hno. destruct (detect_sections_from_text text) as [|r rs] eqn:E;
      [reflexivity|].
    destruct (detect_named text r) as (h & Hin & Hh & _).
    + rewrite E. now left.
    + rewrite (Hno h Hin) in Hh. discriminate.
Qed.

Lemma paragraphs_need_heading_witness :
  detect_sections_from_text ("hello" ++ LF ++ "world") = [] /\
  exists h, In h (seen_lines ("SUMMARY" ++ LF ++ "x")) /\
            is_main_heading h = true /\
            p_section (mk_paragraph (Some "SUMMARY") None "x")
            = Some (section_name h).
Proof.
  split.
  - apply (proj2 (paragraphs_need_heading ("hello" ++ LF ++ "world"))).
    intros l Hl. vm_compute in Hl.
    destruct Hl as [<-|[<-|[]]]; vm_compute; reflexivity.
  - apply (proj1 (paragraphs_need_heading ("SUMMARY" ++ LF ++ "x"))).
    vm_compute. left. reflexivity.
Defined.

End SegmenterProps.

(** ** Metadata extractor *)

Module MetadataProps.

Import Metadata.

(** All the lines of the document, in the order the two nested loops
    visit them. *)
Definition doc_lines (pages : list (option string)) : list string :=
  flat_map (fun page => page_lines (text_or_empty page)) pages.

Lemma extract_metadata_fold_from pages : forall m,
  fold_left (fun m page => fold_left step (page_lines (text_or_empty page)) m)
            pages m
  = fold_left step (doc_lines pages) m.
Proof.
  induction pages as [|p ps IH]; intros m; simpl; [reflexivity|].
  now rewrite fold_left_app, IH.
Qed.

Lemma extract_metadata_fold pages :
  extract_metadata pages = fold_left step (doc_lines pages) metadata_init.
Proof. apply extract_metadata_fold_from. Qed.

Lemma is_NA_true s : is_NA s = true <-> s = NA.
Proof. apply String.eqb_eq. Qed.

Lemma is_NA_false s : is_NA s = false <-> s <> NA.
Proof. apply String.eqb_neq. Qed.

Ltac rule_cases :=
  repeat match goal with
         | |- context [is_NA ?x] => destruct (is_NA x)
         | |- context [str_in ?a ?b] => destruct (str_in a b)
         | |- context [match_fund_name ?l] => destruct (match_fund_name l)
         | |- context [search ?a ?l] => destruct (search a l)
         end;
  reflexivity.

(** What each rule does to each field. *)
Lemma rule_fund_name_get f line low m :
  get f (rule_fund_name line low m)
  = match f with
    | FundName =>
        if is_NA (get f m) && match_fund_name line then line else get f m
    | _ => get f m
    end.
Proof.
  destruct f; unfold rule_fund_name; simpl; rule_cases.
Qed.

Lemma rule_aum_get f line low m :
  get f (rule_aum line low m)
  = match f with
    | Aum =>
        if is_NA (get f m) &&
           (str_in "aum" low || str_in "assets under management" low)
        then match search aum_at line with Some v => v | None => get f m end
        else get f m
    | _ => get f m
    end.
Proof.
  destruct f; unfold rule_aum; simpl; rule_cases.
Qed.

Lemma rule_benchmark_get f line low m :
  get f (rule_benchmark line low m)
  = match f with
    | Benchmark =>
        if str_in "benchmark" low && negb (str_in "additional" low)
           && is_NA (get f m)
        then colon_value line else get f m
    | AdditionalBenchmark =>
        if str_in "benchmark" low && str_in "additional" low
           && is_NA (get f m)
        then colon_value line else get f m
    | _ => get f m
    end.
Proof.
  destruct f; unfold rule_benchmark; simpl; rule_cases.
Qed.

Lemma rule_fund_manager_get f line low m :
  get f (rule_fund_manager line low m)
  = match f with
    | FundManager =>
        if str_in "fund manager" low && is_NA (get f m)
        then colon_value line else get f m
    | _ => get f m
    end.
Proof.
  destruct f; unfold rule_fund_manager; simpl; rule_cases.
Qed.

Lemma rule_launch_date_get f line low m :
  get f (rule_launch_date line low m)
  = match f with
    | LaunchDate =>
        if (str_in "launch" low || str_in "inception" low) && is_NA (get f m)
        then match search date_at line with Some v => v | None => get f m end
        else get f m
    | _ => get f m
    end.
Proof.
  destruct f; unfold rule_launch_date; simpl; rule_cases.
Qed.

(** One line, seen from one field: a field that is still ["N/A"] takes
    what its rule captures on the line, any other field is kept. *)
Lemma step_get f m line :
  get f (step m line)
  = if is_NA (get f m)
    then match capture f line with Some v => v | None => get f m end
    else get f m.
Proof.
  unfold step, capture.
  destruct (skipped (lower line)); [now destruct (is_NA (get f m))|].
  rewrite rule_launch_date_get, rule_fund_manager_get, rule_benchmark_get,
    rule_aum_get, rule_fund_name_get.
  destruct f; destruct (is_NA (get _ m)); simpl;
    rewrite ?andb_true_r, ?andb_false_r; try reflexivity.
  - destruct (match_fund_name line); reflexivity.
  - destruct (_ || _); reflexivity.
  - destruct (_ && _); reflexivity.
  - destruct (_ && _); reflexivity.
  - destruct (str_in _ _); reflexivity.
  - destruct (_ || _); reflexivity.
Qed.

Lemma step_keeps_found f m line :
  get f m <> NA -> get f (step m line) = get f m.
Proof.
  intros H. rewrite step_get. apply is_NA_false in H. now rewrite H.
Qed.

Lemma fold_keeps_found f lines : forall m,
  get f m <> NA -> get f (fold_left step lines m) = get f m.
Proof.
  induction lines as [|l ls IH]; intros m H; simpl; [reflexivity|].
  rewrite IH; rewrite step_keeps_found; auto.
Qed.

Lemma fold_stays_NA f lines : forall m,
  get f m = NA ->
  (forall x, In x lines -> capture f x = None \/ capture f x = Some NA) ->
  get f (fold_left step lines m) = NA.
Proof.
  induction lines as [|l ls IH]; intros m H Hl; simpl; [exact H|].
  apply IH.
  - rewrite step_get. apply is_NA_true in H as H'. rewrite H'.
    destruct (Hl l (or_introl eq_refl)) as [-> | ->]; auto.
  - intros x Hx. apply Hl. now right.
Qed.

(** C4, as stated, fails: a first matching line whose captured value
    is the text "N/A" itself leaves the field at the sentinel, and the
    next matching line then sets it. *)
Lemma first_match_can_lose :
  benchmark (extract_metadata
               [Some ("Benchmark: N/A" ++ LF ++ "Benchmark: Nifty 50")])
  = "Nifty 50" /\
  ~ first_match_wins Benchmark ["Benchmark: N/A"; "Benchmark: Nifty 50"].
Proof.
  split; [vm_compute; reflexivity|].
  intros H.
  specialize (H [] "Benchmark: N/A" ["Benchmark: Nifty 50"] "N/A" eq_refl).
  assert (Hv : get Benchmark
                 (fold_left step ["Benchmark: N/A"; "Benchmark: Nifty 50"]
                            metadata_init) = "N/A").
  { apply H; [intros x [] | vm_compute; reflexivity]. }
  vm_compute in Hv. discriminate.
Qed.

(** C4, amended: a field that holds a value other than "N/A" is never
    changed by later lines, neither back to "N/A" nor to another value;
    and the first line in document order on which the field's rule
    captures a value other than the text "N/A" determines the extracted
    value of the field. *)
Theorem metadata_write_once (f : field) :
  (forall m lines, get f m <> NA -> get f (fold_left step lines m) = get f m) /\
  (forall pages pre l post v,
     doc_lines pages = (pre ++ l :: post)%list ->
     (forall x, In x pre -> capture f x = None \/ capture f x = Some NA) ->
     capture f l = Some v ->
     v <> NA ->
     get f (extract_metadata pages) = v).
Proof.
  split.
  - intros m lines. apply fold_keeps_found.
  - intros pages pre l post v Hl Hpre Hc Hv.
    rewrite extract_metadata_fold, Hl, fold_left_app. simpl.
    assert (Hm : get f (step (fold_left step pre metadata_init) l) = v).
    { rewrite step_get, Hc.
      rewrite (fold_stays_NA f pre metadata_init); [reflexivity| |exact Hpre].
      now destruct f. }
    rewrite fold_keeps_found; rewrite Hm; auto.
Qed.

Lemma metadata_write_once_witness :
  get Benchmark
      (fold_left step ["Benchmark: Sensex"] (set Benchmark "Nifty 50 TRI" metadata_init))
  = get Benchmark (set Benchmark "Nifty 50 TRI" metadata_init) /\
  get Benchmark
      (extract_metadata
         [Some ("Benchmark: N/A" ++ LF ++ "Benchmark: Nifty 50 TRI"); None;
          Some "Benchmark: Sensex"])
  = "Nifty 50 TRI".
Proof.
  split.
  - apply (proj1 (metadata_write_once Benchmark)). vm_compute. discriminate.
  - apply (proj2 (metadata_write_once Benchmark)) with
      (pre := ["Benchmark: N/A"]) (l := "Benchmark: Nifty 50 TRI")
      (post := ["Benchmark: Sensex"]).
    + vm_compute. reflexivity.
    + intros x [<-|[]]. right. vm_compute. reflexivity.
    + vm_compute. reflexivity.
    + vm_compute. discriminate.
Defined.

(** C8: a line that contains "disclaimer", "page |" or "mutual fund:",
    in any letter case, leaves the whole metadata record as it is,
    whatever rules it would match; so dropping such a line from the
    sequence of lines changes nothing. *)
Theorem skipped_line_changes_nothing (line : string) :
  skipped (lower line) = true ->
  (forall m, step m line = m) /\
  (forall pre post m,
     fold_left step (pre ++ line :: post)%list m
     = fold_left step (pre ++ post)%list m).
Proof.
  intros Hs.
  assert (H1 : forall m, step m line = m).
  { intros m. unfold step. now rewrite Hs. }
  split; [exact H1|].
  intros pre post m. rewrite !fold_left_app. simpl. now rewrite H1.
Qed.

Lemma skipped_line_changes_nothing_witness :
  match_fund_name "HDFC MUTUAL FUND: EQUITY FUND" = true /\
  ((forall m, step m "HDFC MUTUAL FUND: EQUITY FUND" = m) /\
   (forall pre post m,
      fold_left step (pre ++ "HDFC MUTUAL FUND: EQUITY FUND" :: post)%list m
      = fold_left step (pre ++ post)%list m)).
Proof.
  split; [vm_compute; reflexivity|].
  apply (skipped_line_changes_nothing "HDFC MUTUAL FUND: EQUITY FUND").
  vm_compute. reflexivity.
Defined.

End MetadataProps.

(** ** Document assembler *)

Module AssemblerProps.

Import Classifier Assembler.
Local Open Scope list_scope.

(** The identity of the table object an entry refers to. *)
Definition tr_tid (tr : table_ref) : oid := t_id (tr_table tr).
Definition se_tid (kse : string * section_entry) : oid :=
  t_id (se_table_data (snd kse)).

(** *** The [sections] dictionary *)

Lemma section_tables_setdefault k v m :
  Permutation (section_tables (setdefault_append k v m))
              ((k, v) :: section_tables m).
Proof.
  induction m as [|[k' vs] m IH]; simpl; [apply Permutation_refl|].
  destruct (String.eqb k' k) eqn:E; simpl.
  - apply String.eqb_eq in E. subst k'.
    rewrite map_app, <- app_assoc. simpl.
    apply Permutation_sym, Permutation_middle.
  - eapply Permutation_trans; [|apply Permutation_sym, Permutation_middle].
    now apply Permutation_app_head.
Qed.

Lemma in_section_tables_setdefault k v m k' se :
  In (k', se) (section_tables (setdefault_append k v m)) ->
  (k', se) = (k, v) \/ In (k', se) (section_tables m).
Proof.
  intros H.
  apply (Permutation_in _ (section_tables_setdefault k v m)) in H.
  destruct H as [H|H]; [left; now symmetry | now right].
Qed.

Lemma section_tables_setdefault_incl k v m x :
  In x (section_tables m) -> In x (section_tables (setdefault_append k v m)).
Proof.
  intros H.
  apply (Permutation_in _ (Permutation_sym (section_tables_setdefault k v m))).
  now right.
Qed.

Lemma lookup_setdefault_same k v m :
  lookup k (setdefault_append k v m) = lookup k m ++ [v].
Proof.
  induction m as [|[k' vs] m IH]; simpl.
  - now rewrite String.eqb_refl.
  - destruct (String.eqb k' k) eqn:E; simpl; rewrite E; [reflexivity | exact IH].
Qed.

Lemma lookup_setdefault_other k v m k0 :
  k0 <> k -> lookup k0 (setdefault_append k v m) = lookup k0 m.
Proof.
  intros Hne. induction m as [|[k' vs] m IH]; simpl.
  - destruct (String.eqb k k0) eqn:E; [|reflexivity].
    apply String.eqb_eq in E. congruence.
  - destruct (String.eqb k' k) eqn:E; simpl.
    + apply String.eqb_eq in E. subst k'.
      destruct (String.eqb k k0) eqn:E0; [|reflexivity].
      apply String.eqb_eq in E0. congruence.
    + now rewrite IH.
Qed.

Lemma lookup_setdefault_incl k v m k0 se :
  In se (lookup k0 m) -> In se (lookup k0 (setdefault_append k v m)).
Proof.
  intros H. destruct (string_dec k0 k) as [->|Hne].
  - rewrite lookup_setdefault_same. apply in_or_app. now left.
  - now rewrite lookup_setdefault_other.
Qed.

(** *** Content lists *)

Lemma content_tables_app p a b :
  content_tables p (a ++ b) = content_tables p a ++ content_tables p b.
Proof.
  induction a as [|[q|id lab t|im d] a IH]; simpl; [reflexivity| | |]; now rewrite IH.
Qed.

Lemma content_tables_paragraphs p ps : content_tables p (map CParagraph ps) = [].
Proof. induction ps; simpl; auto. Qed.

Lemma content_tables_charts p b f ims :
  content_tables p (map (chart_entry b f) ims) = [].
Proof. induction ims; simpl; auto. Qed.

Lemma page_tables_snoc ps pe :
  page_tables (ps ++ [pe])
  = page_tables ps ++ content_tables (page_number pe) (content pe).
Proof.
  unfold page_tables. rewrite flat_map_app. simpl. now rewrite app_nil_r.
Qed.

(** *** Categories are never empty *)

Lemma classify_table_in_outcomes (t : table) :
  In (classify_table t) ClassifierProps.outcomes.
Proof.
  destruct t as [|row0 rest]; [simpl; tauto|].
  apply ClassifierProps.classify_header_outcomes.
Qed.

Lemma category_nonempty t k :
  fst (classify_table t) = Some k -> is_empty k = false.
Proof.
  pose proof (classify_table_in_outcomes t) as H.
  unfold ClassifierProps.outcomes in H. simpl in H.
  repeat (destruct H as [H|H];
          [rewrite <- H; simpl; intros E; inversion E; reflexivity|]).
  contradiction.
Qed.

(** *** Extracted tables are new objects *)

Lemma extract_tables_from raw : forall acc n,
  exists ts,
    fold_left keep_table raw (acc, n) = (acc ++ ts, n + List.length ts) /\
    map t_id ts = seq n (List.length ts) /\
    map t_rows ts
    = filter (fun t => match t with [] => false | _ => true end)
             (map clean_table raw).
Proof.
  induction raw as [|tbl raw IH]; intros acc n;
    cbn [fold_left map filter keep_table].
  - exists []. simpl. now rewrite app_nil_r, Nat.add_0_r.
  - destruct (clean_table tbl) as [|r rs] eqn:E.
    + apply IH.
    + destruct (IH (acc ++ [mk_table_obj n (r :: rs)]) (S n))
        as (ts & Hf & Hid & Hrows).
      exists (mk_table_obj n (r :: rs) :: ts).
      split; [|split].
      * eapply eq_trans; [exact Hf|].
        rewrite <- app_assoc. simpl. f_equal. lia.
      * simpl. now rewrite Hid.
      * simpl. now rewrite Hrows.
Qed.

Lemma extract_tables_from_page_spec n pl :
  exists ts,
    extract_tables_from_page n (extract_tables pl) = (ts, n + List.length ts) /\
    map t_id ts = seq n (List.length ts) /\
    map t_rows ts = kept_tables pl.
Proof.
  destruct (extract_tables_from (extract_tables pl) [] n) as (ts & Hf & Hid & Hr).
  exists ts. split; [exact Hf | split; [exact Hid | exact Hr]].
Qed.

(** *** The linking invariant

    [n] is the next free creation number, [S] the [sections]
    dictionary and [PT] the table entries of the content lists built
    so far. *)
Record linked (n : oid) (S : sections_map) (PT : list table_ref) : Prop := {
  lk_content_bound :
    forall tr, In tr PT -> tr_id tr < n /\ tr_tid tr < n;
  lk_section_bound :
    forall k se, In (k, se) (section_tables S) -> se_id se < n;
  lk_content_nodup : NoDup (map tr_tid PT);
  lk_section_nodup : NoDup (map se_tid (section_tables S));
  lk_classified :
    forall tr, In tr PT ->
      tr_section tr = snd (classify_table (t_rows (tr_table tr))) /\
      forall k, fst (classify_table (t_rows (tr_table tr))) = Some k ->
        exists se, In se (lookup k S) /\ se_table_data se = tr_table tr /\
                   se_page se = tr_page tr /\
                   se_section_name se = tr_section tr;
  lk_section_source :
    forall k se, In (k, se) (section_tables S) ->
      fst (classify_table (t_rows (se_table_data se))) = Some k /\
      exists tr, In tr PT /\ tr_table tr = se_table_data se /\
                 tr_page tr = se_page se /\
                 tr_section tr = se_section_name se;
  lk_distinct :
    forall k se tr, In (k, se) (section_tables S) -> In tr PT ->
      se_id se <> tr_id tr
}.

Lemma linked_init : linked 0 sections_init [].
Proof.
  constructor; simpl; try (intros; contradiction); constructor.
Qed.

Lemma linked_weaken n n' S PT : n <= n' -> linked n S PT -> linked n' S PT.
Proof.
  intros Hle [Hcb Hsb Hcn Hsn Hcl Hss Hd].
  constructor; auto.
  - intros tr Hin. destruct (Hcb tr Hin). lia.
  - intros k se Hin. specialize (Hsb k se Hin). lia.
Qed.

Lemma section_table_in_content n S PT x :
  linked n S PT -> In x (map se_tid (section_tables S)) -> In x (map tr_tid PT).
Proof.
  intros L Hin. apply in_map_iff in Hin as ([k se] & <- & Hin).
  destruct (lk_section_source _ _ _ L k se Hin) as (_ & tr & Htr & Ht & _).
  apply in_map_iff. exists tr. split; [|exact Htr].
  unfold tr_tid, se_tid. simpl. now rewrite Ht.
Qed.

Lemma NoDup_snoc {A} (l : list A) (x : A) :
  NoDup l -> ~ In x l -> NoDup (l ++ [x]).
Proof.
  intros Hl Hx.
  apply (Permutation_NoDup (Permutation_cons_append l x)).
  now constructor.
Qed.

(** A table that no rule classifies gets its content entry only. *)
Lemma link_unclassified n S PT tr :
  linked n S PT ->
  tr_id tr = n -> tr_tid tr < n -> ~ In (tr_tid tr) (map tr_tid PT) ->
  classify_table (t_rows (tr_table tr)) = (None, tr_section tr) ->
  linked (Datatypes.S n) S (PT ++ [tr]).
Proof.
  intros L Hid Hlt Hnew Hc.
  destruct L as [Hcb Hsb Hcn Hsn Hcl Hss Hd].
  constructor.
  - intros tr' Hin. apply in_app_or in Hin as [Hin|[<-|[]]].
    + destruct (Hcb tr' Hin). lia.
    + lia.
  - intros k se Hin. specialize (Hsb k se Hin). lia.
  - rewrite map_app. simpl. now apply NoDup_snoc.
  - exact Hsn.
  - intros tr' Hin. apply in_app_or in Hin as [Hin|[<-|[]]].
    + now apply Hcl.
    + rewrite Hc. simpl. split; [reflexivity | discriminate].
  - intros k se Hin. destruct (Hss k se Hin) as (Hk & tr' & Hin' & H').
    split; [exact Hk|]. exists tr'. split; [|exact H'].
    apply in_or_app. now left.
  - intros k se tr' Hs Hin. apply in_app_or in Hin as [Hin|[<-|[]]].
    + now apply (Hd k).
    + specialize (Hsb k se Hs). lia.
Qed.

(** A classified table gets a section entry, created first, and then
    its content entry. *)
Lemma link_classified n S PT tr k :
  linked n S PT ->
  tr_id tr = Datatypes.S n -> tr_tid tr < n ->
  ~ In (tr_tid tr) (map tr_tid PT) ->
  classify_table (t_rows (tr_table tr)) = (Some k, tr_section tr) ->
  linked (Datatypes.S (Datatypes.S n))
         (setdefault_append k
            (mk_section_entry n (tr_page tr) (tr_table tr) (tr_section tr)) S)
         (PT ++ [tr]).
Proof.
  intros L Hid Hlt Hnew Hc.
  pose proof (section_table_in_content n S PT (tr_tid tr) L) as Hsub.
  destruct L as [Hcb Hsb Hcn Hsn Hcl Hss Hd].
  set (v := mk_section_entry n (tr_page tr) (tr_table tr) (tr_section tr)).
  constructor.
  - intros tr' Hin. apply in_app_or in Hin as [Hin|[<-|[]]].
    + destruct (Hcb tr' Hin). lia.
    + lia.
  - intros k' se Hin.
    apply in_section_tables_setdefault in Hin as [E|Hin].
    + inversion E. subst. simpl. lia.
    + specialize (Hsb k' se Hin). lia.
  - rewrite map_app. simpl. now apply NoDup_snoc.
  - apply (Permutation_NoDup
             (Permutation_sym
                (Permutation_map se_tid (section_tables_setdefault k v S)))).
    simpl. constructor; [|exact Hsn].
    intros Hin. apply Hnew. now apply Hsub.
  - intros tr' Hin. apply in_app_or in Hin as [Hin|[<-|[]]].
    + destruct (Hcl tr' Hin) as [Hlab Hsec]. split; [exact Hlab|].
      intros k' Hk'. destruct (Hsec k' Hk') as (se & Hse & H').
      exists se. split; [|exact H']. now apply lookup_setdefault_incl.
    + rewrite Hc. simpl. split; [reflexivity|].
      intros k' E. inversion E. subst k'.
      exists v. rewrite lookup_setdefault_same.
      split; [apply in_or_app; right; now left | now simpl].
  - intros k' se Hin.
    apply in_section_tables_setdefault in Hin as [E|Hin].
    + inversion E. subst. simpl. rewrite Hc. split; [reflexivity|].
      exists tr. split; [apply in_or_app; right; now left | now simpl].
    + destruct (Hss k' se Hin) as (Hk & tr' & Hin' & H').
      split; [exact Hk|]. exists tr'. split; [|exact H'].
      apply in_or_app. now left.
  - intros k' se tr' Hs Hin.
    apply in_section_tables_setdefault in Hs as [E|Hs];
      apply in_app_or in Hin as [Hin|[<-|[]]].
    + inversion E. subst. simpl. destruct (Hcb tr' Hin). lia.
    + inversion E. subst. simpl. lia.
    + now apply (Hd k').
    + specialize (Hsb k' se Hs). lia.
Qed.

(** *** The loops *)

(** The table entries of the document while a page is being built:
    those of the finished pages, [PT0], and those of the content list
    under construction. *)
Definition tables_so_far (PT0 : list table_ref) (p : nat) (st : tbl_state)
    : list table_ref :=
  PT0 ++ content_tables p (ts_content st).

Lemma add_table_linked p PT0 st t :
  linked (ts_next st) (ts_sections st) (tables_so_far PT0 p st) ->
  t_id t < ts_next st ->
  ~ In (t_id t) (map tr_tid (tables_so_far PT0 p st)) ->
  linked (ts_next (add_table p st t)) (ts_sections (add_table p st t))
         (tables_so_far PT0 p (add_table p st t)) /\
  ts_next st <= ts_next (add_table p st t) /\
  exists tr,
    content_tables p (ts_content (add_table p st t))
    = content_tables p (ts_content st) ++ [tr] /\
    tr_table tr = t.
Proof.
  intros L Hlt Hnew. unfold add_table, tables_so_far in *.
  destruct (classify_table (t_rows t)) as [[k|] lab] eqn:Hc.
  - assert (Ek : is_empty k = false).
    { apply (category_nonempty (t_rows t)). now rewrite Hc. }
    rewrite Ek. simpl. rewrite content_tables_app, app_assoc. simpl.
    split; [|split; [lia|]].
    + apply (link_classified _ _ _
               (mk_table_ref p (S (ts_next st)) lab t) k); auto.
    + now exists (mk_table_ref p (S (ts_next st)) lab t).
  - simpl. rewrite content_tables_app, app_assoc. simpl.
    split; [|split; [lia|]].
    + apply (link_unclassified _ _ _ (mk_table_ref p (ts_next st) lab t)); auto.
    + now exists (mk_table_ref p (ts_next st) lab t).
Qed.

Lemma add_tables_linked p PT0 ts : forall st,
  linked (ts_next st) (ts_sections st) (tables_so_far PT0 p st) ->
  NoDup (map t_id ts) ->
  (forall t, In t ts ->
     t_id t < ts_next st /\
     ~ In (t_id t) (map tr_tid (tables_so_far PT0 p st))) ->
  linked (ts_next (fold_left (add_table p) ts st))
         (ts_sections (fold_left (add_table p) ts st))
         (tables_so_far PT0 p (fold_left (add_table p) ts st)) /\
  ts_next st <= ts_next (fold_left (add_table p) ts st) /\
  map tr_table (content_tables p (ts_content (fold_left (add_table p) ts st)))
  = map tr_table (content_tables p (ts_content st)) ++ ts.
Proof.
  induction ts as [|t ts IH]; intros st L Hnd Hts; simpl.
  - split; [exact L|]. split; [lia|]. now rewrite app_nil_r.
  - inversion Hnd as [|x l Hx Hnd']. subst.
    destruct (Hts t (or_introl eq_refl)) as [Hlt Hnew].
    destruct (add_table_linked p PT0 st t L Hlt Hnew)
      as (L' & Hle & tr & Hct & Htr).
    destruct (IH (add_table p st t) L' Hnd') as (L'' & Hle' & Hmap).
    + intros t' Hin. destruct (Hts t' (or_intror Hin)) as [Hlt' Hnew'].
      split; [lia|].
      unfold tables_so_far in *. rewrite Hct, app_assoc, map_app.
      intros Hin'. apply in_app_or in Hin' as [Hin'|[E|[]]]; [tauto|].
      unfold tr_tid in E. rewrite Htr in E.
      apply Hx. rewrite E. now apply in_map.
    + split; [exact L''|]. split; [lia|].
      rewrite Hmap, Hct, map_app. simpl. rewrite Htr, <- app_assoc.
      reflexivity.
Qed.

(** What a page entry owes to the page it was built from. *)
Definition page_built_from (ip : nat * pdf_page) (pe : page_entry) : Prop :=
  page_number pe = fst ip + 1 /\
  map (fun tr => t_rows (tr_table tr))
      (content_tables (page_number pe) (content pe))
  = kept_tables (snd ip).

Lemma add_page_linked b f st i pl :
  linked (as_next st) (as_sections st) (page_tables (as_pages st)) ->
  linked (as_next (add_page b f st (i, pl)))
         (as_sections (add_page b f st (i, pl)))
         (page_tables (as_pages (add_page b f st (i, pl)))) /\
  exists pe,
    as_pages (add_page b f st (i, pl)) = as_pages st ++ [pe] /\
    page_built_from (i, pl) pe.
Proof.
  intros L. unfold add_page.
  destruct (extract_tables_from_page_spec (as_next st) pl)
    as (ts & He & Hid & Hrows).
  rewrite He.
  set (content0 := map CParagraph _).
  set (st0 := mk_tbl_state (as_next st + List.length ts) (as_sections st) content0).
  assert (H0 : content_tables (i + 1) content0 = [])
    by apply content_tables_paragraphs.
  destruct (add_tables_linked (i + 1) (page_tables (as_pages st)) ts st0)
    as (L' & _ & Hmap).
  - unfold tables_so_far. simpl. rewrite H0, app_nil_r.
    apply (linked_weaken (as_next st)); [lia | exact L].
  - rewrite Hid. apply seq_NoDup.
  - intros t Hin. apply (in_map t_id) in Hin. rewrite Hid in Hin.
    apply in_seq in Hin. simpl. split; [lia|].
    unfold tables_so_far. simpl. rewrite H0, app_nil_r.
    intros Hin'. apply in_map_iff in Hin' as (tr & E & Hin').
    destruct (lk_content_bound _ _ _ L tr Hin'). lia.
  - simpl. rewrite page_tables_snoc. simpl.
    rewrite content_tables_app, content_tables_charts, app_nil_r.
    split; [exact L'|].
    eexists. split; [reflexivity|].
    split; simpl; [reflexivity|].
    rewrite content_tables_app, content_tables_charts, app_nil_r.
    rewrite <- map_map, Hmap. simpl. rewrite H0. simpl. exact Hrows.
Qed.

Lemma add_pages_linked b f l : forall st done,
  linked (as_next st) (as_sections st) (page_tables (as_pages st)) ->
  Forall2 page_built_from done (as_pages st) ->
  linked (as_next (fold_left (add_page b f) l st))
         (as_sections (fold_left (add_page b f) l st))
         (page_tables (as_pages (fold_left (add_page b f) l st))) /\
  Forall2 page_built_from (done ++ l)
          (as_pages (fold_left (add_page b f) l st)).
Proof.
  induction l as [|[i pl] l IH]; intros st done L HF; simpl.
  - rewrite app_nil_r. now split.
  - destruct (add_page_linked b f st i pl L) as (L' & pe & Hpe & Hb).
    destruct (IH (add_page b f st (i, pl)) (done ++ [(i, pl)]) L') as [L'' HF'].
    + rewrite Hpe. apply Forall2_app; [exact HF|]. now constructor.
    + rewrite <- app_assoc in HF'. now split.
Qed.

Lemma parse_linked b f pdf :
  let d := parse_pdf_to_json b f pdf in
  (exists n, linked n (doc_sections d) (page_tables (doc_pages d))) /\
  Forall2 page_built_from (enumerate pdf) (doc_pages d).
Proof.
  simpl.
  destruct (add_pages_linked b f (enumerate pdf)
              (mk_asm_state 0 sections_init []) [])
    as [L HF]; [exact linked_init | constructor |].
  split; [eexists; exact L | exact HF].
Qed.

Lemma lookup_in_section_tables k m se :
  In se (lookup k m) -> In (k, se) (section_tables m).
Proof.
  induction m as [|[k' vs] m IH]; simpl; [tauto|].
  destruct (String.eqb k' k) eqn:E; intros H; apply in_or_app.
  - apply String.eqb_eq in E. subst k'. left. now apply in_map.
  - right. now apply IH.
Qed.

(** A document with one page and one table on it. *)
Definition one_table_pdf : list pdf_page :=
  [mk_pdf_page None [[[Some "Company"; Some "Weight"]]] []].

(** C3, as stated, fails: the entry appended to sections[category] and
    the one appended to the page's content are two dictionaries, built
    by two dictionary displays, with different keys; no entry of a
    sections list is an entry of a content list. *)
Lemma section_entry_is_another_record :
  let d := parse_pdf_to_json false (fun s => s) one_table_pdf in
  let tbl := mk_table_obj 0 [["Company"; "Weight"]%string] in
  doc_sections d
  = [("portfolio"%string, [mk_section_entry 1 1 tbl (Some "Holdings"%string)]);
     ("scheme_performance"%string, []); ("allocation"%string, []);
     ("risk"%string, []); ("macro"%string, []); ("debt_portfolio"%string, [])] /\
  doc_pages d = [mk_page_entry 1 [CTable 2 (Some "Holdings"%string) tbl]] /\
  ~ same_record d.
Proof.
  cbv zeta. split; [vm_compute; reflexivity|].
  split; [vm_compute; reflexivity|].
  intros H.
  destruct (H "portfolio"%string
              (mk_section_entry 1 1 (mk_table_obj 0 [["Company"; "Weight"]%string])
                                (Some "Holdings"%string)))
    as (tr & Hin & Hid).
  - vm_compute. left. reflexivity.
  - vm_compute in Hin. destruct Hin as [<-|[]]. vm_compute in Hid. discriminate.
Qed.

(** C3, amended: every table extracted from a page has exactly one
    table entry, in the content list of that page and of no other, and
    every classified table additionally has exactly one entry among all
    the sections lists, in sections[category].  The two entries are
    different records, never the same object; what they share is the
    table_data object they both refer to, which is one object and not a
    copy. *)
Theorem tables_linked_once (do_ocr : bool) (ocr_image : string -> string)
    (pdf : list pdf_page) :
  let d := parse_pdf_to_json do_ocr ocr_image pdf in
  let PT := page_tables (doc_pages d) in
  let ST := section_tables (doc_sections d) in
  Forall2 page_built_from (enumerate pdf) (doc_pages d) /\
  NoDup (map tr_tid PT) /\
  NoDup (map se_tid ST) /\
  (forall tr k,
     In tr PT -> fst (classify_table (t_rows (tr_table tr))) = Some k ->
     exists se, In se (lookup k (doc_sections d)) /\ In (k, se) ST /\
                se_table_data se = tr_table tr /\ se_page se = tr_page tr) /\
  (forall k se,
     In (k, se) ST ->
     fst (classify_table (t_rows (se_table_data se))) = Some k /\
     exists tr, In tr PT /\ tr_table tr = se_table_data se /\
                tr_page tr = se_page se) /\
  (forall k se tr, In (k, se) ST -> In tr PT -> se_id se <> tr_id tr).
Proof.
  cbv zeta.
  destruct (parse_linked do_ocr ocr_image pdf) as [[n L] HF].
  split; [exact HF|].
  split; [exact (lk_content_nodup _ _ _ L)|].
  split; [exact (lk_section_nodup _ _ _ L)|].
  split; [|split].
  - intros tr k Hin Hk.
    destruct (lk_classified _ _ _ L tr Hin) as [_ H].
    destruct (H k Hk) as (se & Hse & Ht & Hp & _).
    exists se. split; [exact Hse|].
    split; [now apply lookup_in_section_tables | now split].
  - intros k se Hin.
    destruct (lk_section_source _ _ _ L k se Hin) as (Hk & tr & Htr & Ht & Hp & _).
    split; [exact Hk|]. now exists tr.
  - exact (lk_distinct _ _ _ L).
Qed.

Lemma tables_linked_once_witness :
  let d := parse_pdf_to_json false (fun s => s) one_table_pdf in
  let tbl := mk_table_obj 0 [["Company"; "Weight"]%string] in
  exists se, In se (lookup "portfolio" (doc_sections d)) /\
             In ("portfolio"%string, se) (section_tables (doc_sections d)) /\
             se_table_data se = tbl /\ se_page se = 1.
Proof.
  cbv zeta.
  apply (proj1 (proj2 (proj2 (proj2
           (tables_linked_once false (fun s => s) one_table_pdf))))
           (mk_table_ref 1 2 (Some "Holdings"%string)
                         (mk_table_obj 0 [["Company"; "Weight"]%string]))
           "portfolio"%string).
  - vm_compute. left. reflexivity.
  - vm_compute. reflexivity.
Defined.

End AssemblerProps.

(** ** The persisted text form *)

Module JsonProps.

Import Json.
Local Open Scope list_scope.

(** *** Strings *)

Lemma append_assoc (a b c : string) : ((a ++ b) ++ c = a ++ (b ++ c))%string.
Proof. induction a as [|x a IH]; simpl; [reflexivity | now rewrite IH]. Qed.

Lemma append_nil_r (a : string) : (a ++ "" = a)%string.
Proof. induction a as [|x a IH]; simpl; [reflexivity | now rewrite IH]. Qed.

Lemma length_append (a b : string) :
  String.length (a ++ b)%string = String.length a + String.length b.
Proof. induction a as [|x a IH]; simpl; [reflexivity | now rewrite IH]. Qed.

(** Reading an escaped character gives the character back. *)
Lemma scan_escape_char c X :
  scan_string (escape_char c ++ X)%string = cons_char c (scan_string X).
Proof.
  destruct c as [[] [] [] [] [] [] [] []]; reflexivity.
Qed.

Lemma scan_string_escape s rest :
  scan_string (escape s ++ String DQ rest)%string = Some (s, rest).
Proof.
  induction s as [|c s IH]; simpl; [reflexivity|].
  now rewrite append_assoc, scan_escape_char, IH.
Qed.

Lemma scan_encode_string s rest :
  scan_string (tail (encode_string s ++ rest)%string) = Some (s, rest).
Proof.
  unfold encode_string. simpl. rewrite append_assoc. apply scan_string_escape.
Qed.

(** *** White space *)

Lemma skip_ws_spaces n s : skip_ws (spaces n ++ s)%string = skip_ws s.
Proof. induction n as [|n IH]; simpl; auto. Qed.

Lemma skip_ws_newline_indent l s :
  skip_ws (newline_indent l ++ s)%string = skip_ws s.
Proof.
  unfold newline_indent. rewrite append_assoc. simpl. apply skip_ws_spaces.
Qed.

(** *** Numbers *)

(** What may follow a value in an encoded text: nothing, a comma or a
    line feed. *)
Definition delimited (s : string) : bool :=
  match s with
  | "" => true
  | String c _ => Ascii.eqb c "," || (code c =? 10)%nat
  end.

Lemma delimited_no_digit c r : delimited (String c r) = true -> is_digit c = false.
Proof.
  destruct c as [[] [] [] [] [] [] [] []]; simpl; intros H;
    try discriminate; reflexivity.
Qed.

Lemma delimited_no_float s : delimited s = true -> float_tail s = false.
Proof.
  destruct s as [|c r]; [reflexivity|].
  destruct c as [[] [] [] [] [] [] [] []]; simpl; intros H;
    try discriminate; reflexivity.
Qed.

Lemma span_digits_uint u rest :
  delimited rest = true ->
  span is_digit (DecimalString.NilEmpty.string_of_uint u ++ rest)%string
  = (DecimalString.NilEmpty.string_of_uint u, rest).
Proof.
  intros Hd. induction u; simpl; try (rewrite IHu; reflexivity).
  destruct rest as [|c r]; [reflexivity|].
  simpl. now rewrite (delimited_no_digit c r Hd).
Qed.

(** A normalised numeral is the lone zero or starts with a digit other
    than zero. *)
Definition leading (u : Decimal.uint) : Prop :=
  match u with
  | Decimal.Nil | Decimal.D0 _ => False
  | _ => True
  end.

Lemma nzhead_leading u : Decimal.nzhead u = Decimal.Nil \/ leading (Decimal.nzhead u).
Proof. induction u; simpl; auto. Qed.

Lemma unorm_leading u :
  Decimal.unorm u = Decimal.D0 Decimal.Nil \/ leading (Decimal.unorm u).
Proof.
  unfold Decimal.unorm.
  destruct (nzhead_leading u) as [-> | H]; [now left|].
  destruct (Decimal.nzhead u); simpl in *; try contradiction; now right.
Qed.

Lemma to_uint_leading n :
  N.to_uint n = Decimal.D0 Decimal.Nil \/ leading (N.to_uint n).
Proof.
  assert (H : N.to_uint n = Decimal.unorm (N.to_uint n)).
  { rewrite <- DecimalN.Unsigned.to_of. now rewrite DecimalN.Unsigned.of_to. }
  rewrite H. apply unorm_leading.
Qed.

Lemma scan_nat_encode n rest :
  delimited rest = true ->
  scan_nat (encode_nat n ++ rest)%string = Some (n, rest).
Proof.
  intros Hd. unfold encode_nat.
  pose proof (DecimalN.Unsigned.of_to n) as Hn.
  pose proof (span_digits_uint (N.to_uint n) rest Hd) as Hs.
  pose proof (DecimalString.NilEmpty.usu (N.to_uint n)) as Hu.
  destruct (to_uint_leading n) as [E | L].
  - rewrite E in *. simpl. simpl in Hn. now subst n.
  - destruct (N.to_uint n) eqn:E; simpl in L; try contradiction;
      unfold scan_nat; cbn [DecimalString.NilEmpty.string_of_uint append];
      cbn [DecimalString.NilEmpty.string_of_uint append] in Hs;
      rewrite Hs; cbn [DecimalString.NilEmpty.string_of_uint] in Hu;
      rewrite Hu, Hn; reflexivity.
Qed.

(** The first character of an encoded natural number is a digit. *)
Lemma encode_nat_head n :
  exists c r, encode_nat n = String c r /\ is_digit c = true.
Proof.
  unfold encode_nat.
  destruct (to_uint_leading n) as [E | L].
  - rewrite E. do 2 eexists. split; reflexivity.
  - destruct (N.to_uint n); simpl in L; try contradiction;
      do 2 eexists; split; reflexivity.
Qed.

Lemma scan_number_encode z rest :
  delimited rest = true ->
  scan_number (encode_int z ++ rest)%string = Some (JInt z, rest).
Proof.
  intros Hd. unfold scan_number, encode_int.
  destruct (z <? 0)%Z eqn:Hz.
  - simpl. rewrite scan_nat_encode, delimited_no_float by exact Hd.
    apply Z.ltb_lt in Hz. rewrite N2Z.inj_abs_N.
    replace (- Z.abs z)%Z with z by lia. reflexivity.
  - destruct (encode_nat_head (Z.abs_N z)) as (c & r & E & Hc).
    assert (Hneg : head_is "-" (encode_nat (Z.abs_N z) ++ rest)%string = false).
    { rewrite E. simpl.
      destruct c as [[] [] [] [] [] [] [] []]; try discriminate; reflexivity. }
    rewrite Hneg, scan_nat_encode, delimited_no_float by exact Hd.
    apply Z.ltb_ge in Hz. rewrite N2Z.inj_abs_N.
    replace (Z.abs z) with z by lia. reflexivity.
Qed.

(** *** Values *)

(** The fuel a value needs: one unit for each value and each item. *)
Fixpoint size (v : json) : nat :=
  match v with
  | JArr vs => S (fold_right (fun x acc => S (size x + acc)) 0 vs)
  | JObj kvs => S (fold_right (fun kv acc => S (size (snd kv) + acc)) 0 kvs)
  | _ => 1
  end.

Definition sizes (vs : list json) : nat :=
  fold_right (fun x acc => S (size x + acc)) 0 vs.

Definition member_sizes (kvs : list (string * json)) : nat :=
  fold_right (fun kv acc => S (size (snd kv) + acc)) 0 kvs.

Fixpoint nodupb (l : list string) : bool :=
  match l with
  | [] => true
  | k :: r => negb (existsb (String.eqb k) r) && nodupb r
  end.

(** A value as Python can hold it: no dictionary has a key twice. *)
Fixpoint wf (v : json) : bool :=
  match v with
  | JArr vs => forallb wf vs
  | JObj kvs => nodupb (map fst kvs) && forallb (fun kv => wf (snd kv)) kvs
  | _ => true
  end.

Definition encode_member (level : nat) (kv : string * json) : string :=
  let '(k, x) := kv in (encode_string k ++ ": " ++ encode level x)%string.

Lemma encode_array level v vs :
  encode level (JArr (v :: vs))
  = String "[" (newline_indent (S level)
                ++ join (item_separator (S level))
                        (map (encode (S level)) (v :: vs))
                ++ newline_indent level ++ "]")%string.
Proof. reflexivity. Qed.

Lemma encode_object level kv kvs :
  encode level (JObj (kv :: kvs))
  = String "{" (newline_indent (S level)
                ++ join (item_separator (S level))
                        (map (encode_member (S level)) (kv :: kvs))
                ++ newline_indent level ++ "}")%string.
Proof. reflexivity. Qed.

(** The characters a value can start with. *)
Definition value_start (c : ascii) : bool :=
  Ascii.eqb c DQ || Ascii.eqb c "{" || Ascii.eqb c "[" || Ascii.eqb c "n"
  || Ascii.eqb c "-" || is_digit c.

Definition started (s : string) : Prop :=
  exists c r, s = String c r /\ value_start c = true.

Lemma started_append a b : started a -> started (a ++ b)%string.
Proof. intros (c & r & -> & H). now exists c, (r ++ b)%string. Qed.

Lemma encode_started level v : started (encode level v).
Proof.
  destruct v as [|z|s|[|v vs]|[|kv kvs]];
    try (do 2 eexists; split; reflexivity).
  unfold encode, encode_int. destruct (z <? 0)%Z.
  - do 2 eexists; split; reflexivity.
  - destruct (encode_nat_head (Z.abs_N z)) as (c & r & -> & Hc).
    exists c, r. split; [reflexivity|].
    unfold value_start. rewrite Hc. now rewrite !orb_true_r.
Qed.

Lemma join_cons sep x y l :
  join sep (x :: y :: l) = (x ++ sep ++ join sep (y :: l))%string.
Proof. reflexivity. Qed.

Lemma join_single sep x : join sep [x] = x.
Proof. reflexivity. Qed.

Lemma join_map_cons {A} sep (g : A -> string) x y l :
  join sep (map g (x :: y :: l))
  = (g x ++ sep ++ join sep (map g (y :: l)))%string.
Proof. reflexivity. Qed.

Lemma skip_ws_item_separator l X :
  skip_ws (item_separator l ++ X)%string = String "," (newline_indent l ++ X).
Proof. reflexivity. Qed.

Lemma items_started sep level v vs :
  started (join sep (map (encode level) (v :: vs))).
Proof.
  destruct vs as [|v' vs]; simpl map.
  - apply encode_started.
  - rewrite join_cons. apply started_append, encode_started.
Qed.

Lemma value_start_facts c :
  value_start c = true ->
  is_ws c = false /\ Ascii.eqb c "]" = false /\ Ascii.eqb c "}" = false.
Proof.
  destruct c as [[] [] [] [] [] [] [] []]; simpl; intros H;
    try discriminate; repeat split.
Qed.

Lemma skip_ws_started s : started s -> skip_ws s = s.
Proof.
  intros (c & r & -> & H). simpl.
  now destruct (value_start_facts c H) as (-> & _).
Qed.

Lemma started_not_closing s :
  started s -> head_is "]" s = false /\ head_is "}" s = false.
Proof.
  intros (c & r & -> & H). simpl.
  destruct (value_start_facts c H) as (_ & -> & ->). now split.
Qed.

(** How [parse_value] goes on a text that starts as an encoded value
    of each kind does. *)
Lemma parse_value_null f rest :
  parse_value (S f) ("null" ++ rest)%string = Some (JNull, rest).
Proof. destruct rest; reflexivity. Qed.

Lemma parse_value_string f s rest :
  parse_value (S f) (encode_string s ++ rest)%string = Some (JStr s, rest).
Proof.
  change (parse_value (S f) (encode_string s ++ rest)%string)
    with (match scan_string (tail (encode_string s ++ rest)%string) with
          | Some (t, rest') => Some (JStr t, rest')
          | None => None
          end).
  now rewrite scan_encode_string.
Qed.

Lemma parse_value_is_number f s :
  (head_is "-" s = true \/
   exists c r, s = String c r /\ is_digit c = true) ->
  parse_value (S f) s = scan_number s.
Proof.
  intros [H | (c & r & -> & H)].
  - destruct s as [|c r]; [discriminate|]. simpl in H.
    destruct c as [[] [] [] [] [] [] [] []]; try discriminate; reflexivity.
  - destruct c as [[] [] [] [] [] [] [] []]; try discriminate; reflexivity.
Qed.

Lemma parse_value_int f z rest :
  delimited rest = true ->
  parse_value (S f) (encode_int z ++ rest)%string = Some (JInt z, rest).
Proof.
  intros Hd. rewrite parse_value_is_number; [now apply scan_number_encode|].
  unfold encode_int. destruct (z <? 0)%Z; [now left | right].
  destruct (encode_nat_head (Z.abs_N z)) as (c & r & -> & Hc).
  now exists c, (r ++ rest)%string.
Qed.

Lemma parse_value_empty_array f rest :
  parse_value (S f) ("[]" ++ rest)%string = Some (JArr [], rest).
Proof. reflexivity. Qed.

Lemma parse_value_empty_object f rest :
  parse_value (S f) ("{}" ++ rest)%string = Some (JObj [], rest).
Proof. reflexivity. Qed.

Lemma parse_value_array f l X :
  started X ->
  parse_value (S f) (String "[" (newline_indent l ++ X))
  = match parse_elements f X with
    | Some (vs, rest) => Some (JArr vs, rest)
    | None => None
    end.
Proof.
  intros HX.
  change (parse_value (S f) (String "[" (newline_indent l ++ X)))
    with (let r1 := skip_ws (newline_indent l ++ X)%string in
          if head_is "]" r1 then Some (JArr [], tail r1)
          else match parse_elements f r1 with
               | Some (vs, rest) => Some (JArr vs, rest)
               | None => None
               end).
  cbv zeta. rewrite skip_ws_newline_indent, skip_ws_started by exact HX.
  now destruct (started_not_closing X HX) as [-> _].
Qed.

Lemma parse_value_object f l X :
  head_is DQ X = true ->
  parse_value (S f) (String "{" (newline_indent l ++ X))
  = match parse_members f X with
    | Some (pairs, rest) => Some (JObj (dict_of_pairs pairs), rest)
    | None => None
    end.
Proof.
  intros HX.
  assert (HS : started X).
  { destruct X as [|c r]; [discriminate|]. exists c, r. split; [reflexivity|].
    simpl in HX. unfold value_start. now rewrite HX. }
  change (parse_value (S f) (String "{" (newline_indent l ++ X)))
    with (let r1 := skip_ws (newline_indent l ++ X)%string in
          if head_is "}" r1 then Some (JObj [], tail r1)
          else match parse_members f r1 with
               | Some (pairs, rest) => Some (JObj (dict_of_pairs pairs), rest)
               | None => None
               end).
  cbv zeta. rewrite skip_ws_newline_indent, skip_ws_started by exact HS.
  now destruct (started_not_closing X HS) as [_ ->].
Qed.

Lemma parse_elements_unfold f s :
  parse_elements (S f) s
  = match parse_value f s with
    | Some (v, r) =>
        let r1 := skip_ws r in
        if head_is "]" r1 then Some ([v], tail r1)
        else if head_is "," r1 then
          match parse_elements f (skip_ws (tail r1)) with
          | Some (vs, rest) => Some (v :: vs, rest)
          | None => None
          end
        else None
    | None => None
    end.
Proof. reflexivity. Qed.

Lemma parse_members_key f k X :
  parse_members (S f) (encode_string k ++ ": " ++ X)%string
  = match parse_value f (skip_ws X) with
    | Some (v, r3) =>
        let r4 := skip_ws r3 in
        if head_is "}" r4 then Some ([(k, v)], tail r4)
        else if head_is "," r4 then
          match parse_members f (skip_ws (tail r4)) with
          | Some (kvs, rest) => Some ((k, v) :: kvs, rest)
          | None => None
          end
        else None
    | None => None
    end.
Proof.
  change (parse_members (S f) (encode_string k ++ ": " ++ X)%string)
    with (match scan_string (tail (encode_string k ++ ": " ++ X)%string) with
          | Some (k, r1) =>
              let r2 := skip_ws r1 in
              if head_is ":" r2 then
                match parse_value f (skip_ws (tail r2)) with
                | Some (v, r3) =>
                    let r4 := skip_ws r3 in
                    if head_is "}" r4 then Some ([(k, v)], tail r4)
                    else if head_is "," r4 then
                      match parse_members f (skip_ws (tail r4)) with
                      | Some (kvs, rest) => Some ((k, v) :: kvs, rest)
                      | None => None
                      end
                    else None
                | None => None
                end
              else None
          | None => None
          end).
  rewrite scan_encode_string. reflexivity.
Qed.

Lemma members_head sep level kv kvs X :
  head_is DQ (join sep (map (encode_member level) (kv :: kvs)) ++ X)%string = true.
Proof. destruct kv as [k x]. destruct kvs; reflexivity. Qed.

Lemma delimited_newline_indent l X : delimited (newline_indent l ++ X)%string = true.
Proof. reflexivity. Qed.

Lemma delimited_item_separator l X : delimited (item_separator l ++ X)%string = true.
Proof. reflexivity. Qed.

Lemma size_pos v : 1 <= size v.
Proof. destruct v; simpl; lia. Qed.

(** *** Dictionaries without a repeated key *)

Lemma nodupb_NoDup l : nodupb l = true <-> NoDup l.
Proof.
  induction l as [|k l IH]; simpl.
  - split; [constructor | reflexivity].
  - rewrite andb_true_iff, negb_true_iff, IH. split.
    + intros [Hk Hl]. constructor; [|exact Hl].
      intros Hin. apply not_true_iff_false in Hk. apply Hk.
      apply existsb_exists. exists k. split; [exact Hin | apply String.eqb_refl].
    + intros H. inversion H as [|x l' Hk Hl]. subst. split; [|exact Hl].
      apply not_true_iff_false. intros He.
      apply existsb_exists in He as (x & Hin & Hx).
      apply String.eqb_eq in Hx. now subst x.
Qed.

Lemma dict_set_fresh k v d :
  ~ In k (map fst d) -> dict_set k v d = d ++ [(k, v)].
Proof.
  induction d as [|[k' v'] d IH]; simpl; intros Hk; [reflexivity|].
  destruct (String.eqb k' k) eqn:E.
  - apply String.eqb_eq in E. tauto.
  - rewrite IH; tauto.
Qed.

Lemma dict_of_pairs_from pairs : forall acc,
  NoDup (map fst (acc ++ pairs)) ->
  fold_left (fun d kv => dict_set (fst kv) (snd kv) d) pairs acc = acc ++ pairs.
Proof.
  induction pairs as [|[k v] pairs IH]; intros acc Hnd; simpl.
  - now rewrite app_nil_r.
  - rewrite dict_set_fresh.
    + rewrite IH; rewrite <- app_assoc; [reflexivity | exact Hnd].
    + rewrite map_app in Hnd. simpl in Hnd.
      apply NoDup_remove_2 in Hnd. intros Hin. apply Hnd.
      apply in_or_app. now left.
Qed.

Lemma dict_of_pairs_nodup pairs :
  nodupb (map fst pairs) = true -> dict_of_pairs pairs = pairs.
Proof.
  intros H. apply nodupb_NoDup in H.
  unfold dict_of_pairs. now rewrite dict_of_pairs_from.
Qed.

(** *** Decoding an encoded value *)

Lemma decode_encode_fuel f :
  (forall v level rest,
     size v <= f -> wf v = true -> delimited rest = true ->
     parse_value f (encode level v ++ rest)%string = Some (v, rest)) /\
  (forall v vs l1 l2 rest,
     sizes (v :: vs) <= f -> forallb wf (v :: vs) = true ->
     parse_elements f
       (join (item_separator l1) (map (encode l1) (v :: vs))
        ++ newline_indent l2 ++ String "]" rest)%string
     = Some (v :: vs, rest)) /\
  (forall kv kvs l1 l2 rest,
     member_sizes (kv :: kvs) <= f ->
     forallb (fun kv => wf (snd kv)) (kv :: kvs) = true ->
     parse_members f
       (join (item_separator l1) (map (encode_member l1) (kv :: kvs))
        ++ newline_indent l2 ++ String "}" rest)%string
     = Some (kv :: kvs, rest)).
Proof.
  induction f as [|f (IHv & IHe & IHm)].
  - split; [|split].
    + intros v ? ? H. pose proof (size_pos v). lia.
    + intros v vs ? ? ? H. simpl in H. lia.
    + intros kv kvs ? ? ? H. simpl in H. lia.
  - split; [|split].
    + intros v level rest Hs Hw Hd.
      destruct v as [|z|s|[|v vs]|[|kv kvs]].
      * apply parse_value_null.
      * now apply parse_value_int.
      * apply parse_value_string.
      * apply parse_value_empty_array.
      * rewrite encode_array. cbn [append]. rewrite !append_assoc.
        rewrite parse_value_array by apply started_append, items_started.
        cbn [append]. rewrite IHe; [reflexivity | | exact Hw].
        change (size (JArr (v :: vs))) with (S (sizes (v :: vs))) in Hs. lia.
      * apply parse_value_empty_object.
      * change (wf (JObj (kv :: kvs)))
          with (nodupb (map fst (kv :: kvs))
                && forallb (fun kv => wf (snd kv)) (kv :: kvs)) in Hw.
        apply andb_true_iff in Hw as [Hk Hw].
        rewrite encode_object. cbn [append]. rewrite !append_assoc.
        rewrite parse_value_object by apply members_head.
        cbn [append]. rewrite IHm; [| | exact Hw].
        -- now rewrite dict_of_pairs_nodup.
        -- change (size (JObj (kv :: kvs)))
             with (S (member_sizes (kv :: kvs))) in Hs. lia.
    + intros v vs l1 l2 rest Hs Hw.
      cbn [forallb] in Hw. apply andb_true_iff in Hw as [Hwv Hw].
      cbn [sizes fold_right] in Hs. fold (sizes vs) in Hs.
      rewrite parse_elements_unfold.
      destruct vs as [|v' vs].
      * cbn [map]. rewrite join_single.
        rewrite IHv; [| lia | exact Hwv | apply delimited_newline_indent].
        cbv zeta. rewrite skip_ws_newline_indent. reflexivity.
      * rewrite join_map_cons, !append_assoc.
        rewrite IHv; [| lia | exact Hwv | apply delimited_item_separator].
        cbv zeta. rewrite skip_ws_item_separator.
        cbn [head_is tail].
        change (Ascii.eqb "," "]") with false.
        change (Ascii.eqb "," ",") with true. cbv iota.
        rewrite skip_ws_newline_indent.
        rewrite skip_ws_started
          by apply started_append, (items_started _ l1 v' vs).
        rewrite (IHe v' vs l1 l2 rest); [reflexivity | lia | exact Hw].
    + intros [k x] kvs l1 l2 rest Hs Hw.
      cbn [forallb snd] in Hw. apply andb_true_iff in Hw as [Hwv Hw].
      cbn [member_sizes fold_right snd] in Hs. fold (member_sizes kvs) in Hs.
      destruct kvs as [|kv' kvs].
      * cbn [map encode_member]. rewrite join_single.
        rewrite !append_assoc, parse_members_key.
        change (skip_ws (String " " ?X)) with (skip_ws X).
        rewrite skip_ws_started by apply started_append, encode_started.
        rewrite IHv; [| lia | exact Hwv | apply delimited_newline_indent].
        cbv zeta. rewrite skip_ws_newline_indent. reflexivity.
      * rewrite join_map_cons. cbn [encode_member].
        rewrite !append_assoc, parse_members_key.
        change (skip_ws (String " " ?X)) with (skip_ws X).
        rewrite skip_ws_started by apply started_append, encode_started.
        rewrite IHv; [| lia | exact Hwv | apply delimited_item_separator].
        cbv zeta. rewrite skip_ws_item_separator.
        cbn [head_is tail].
        change (Ascii.eqb "," "}") with false.
        change (Ascii.eqb "," ",") with true. cbv iota.
        rewrite skip_ws_newline_indent.
        assert (HS : started
                  (join (item_separator l1) (map (encode_member l1) (kv' :: kvs))
                   ++ newline_indent l2 ++ String "}" rest)%string).
        { pose proof (members_head (item_separator l1) l1 kv' kvs
                        (newline_indent l2 ++ String "}" rest)%string) as Hh.
          destruct (join _ _ ++ _)%string as [|c r]; [discriminate|].
          exists c, r. split; [reflexivity|]. simpl in Hh.
          unfold value_start. now rewrite Hh. }
        rewrite skip_ws_started by exact HS.
        rewrite (IHm kv' kvs l1 l2 rest); [reflexivity | lia | exact Hw].
Qed.

(** *** Fuel: a text is longer than the value it encodes is large *)

Lemma newline_indent_length l : 1 <= String.length (newline_indent l).
Proof. unfold newline_indent. rewrite length_append. simpl. lia. Qed.

Lemma item_separator_length l : 1 <= String.length (item_separator l).
Proof. simpl. lia. Qed.

Lemma started_length s : started s -> 1 <= String.length s.
Proof. intros (c & r & -> & _). simpl. lia. Qed.

Lemma encode_member_length l k x :
  String.length (encode_member l (k, x))
  = String.length (encode_string k) + (2 + String.length (encode l x)).
Proof. unfold encode_member. rewrite !length_append. reflexivity. Qed.

Section Lengths.

Variable n : nat.
Hypothesis value_length :
  forall v level, size v <= n -> size v <= String.length (encode level v).

Lemma items_length sep level vs : forall v,
  1 <= String.length sep ->
  sizes (v :: vs) <= S n ->
  sizes (v :: vs)
  <= S (String.length (join sep (map (encode level) (v :: vs)))).
Proof.
  induction vs as [|v' vs IH]; intros v Hsep Hs.
  - cbn [map]. rewrite join_single. simpl in *.
    pose proof (value_length v level). lia.
  - rewrite join_map_cons, !length_append.
    change (sizes (v :: v' :: vs)) with (S (size v + sizes (v' :: vs))) in *.
    specialize (IH v' Hsep).
    pose proof (value_length v level). lia.
Qed.

Lemma members_length sep level kvs : forall kv,
  1 <= String.length sep ->
  member_sizes (kv :: kvs) <= S n ->
  member_sizes (kv :: kvs)
  <= S (String.length (join sep (map (encode_member level) (kv :: kvs)))).
Proof.
  induction kvs as [|kv' kvs IH]; intros [k x] Hsep Hs.
  - cbn [map]. rewrite join_single, encode_member_length.
    simpl in Hs |- *. pose proof (value_length x level). lia.
  - rewrite join_map_cons, !length_append, encode_member_length.
    change (member_sizes ((k, x) :: kv' :: kvs))
      with (S (size x + member_sizes (kv' :: kvs))) in *.
    specialize (IH kv' Hsep).
    pose proof (value_length x level). lia.
Qed.

End Lengths.

Lemma length_cons c s : String.length (String c s) = S (String.length s).
Proof. reflexivity. Qed.

Lemma size_le_length n : forall v level,
  size v <= n -> size v <= String.length (encode level v).
Proof.
  induction n as [|n IH]; intros v level Hs.
  - pose proof (size_pos v). lia.
  - destruct v as [|z|s|[|v vs]|[|kv kvs]];
      try (apply started_length, encode_started).
    + rewrite encode_array, length_cons, !length_append.
      change (size (JArr (v :: vs))) with (S (sizes (v :: vs))) in *.
      pose proof (items_length n IH (item_separator (S level)) (S level) vs v
                    (item_separator_length _)).
      pose proof (newline_indent_length (S level)).
      pose proof (newline_indent_length level). lia.
    + rewrite encode_object, length_cons, !length_append.
      change (size (JObj (kv :: kvs))) with (S (member_sizes (kv :: kvs))) in *.
      pose proof (members_length n IH (item_separator (S level)) (S level) kvs kv
                    (item_separator_length _)).
      pose proof (newline_indent_length (S level)).
      pose proof (newline_indent_length level). lia.
Qed.

(** Encoding a value that Python can hold and decoding the text gives
    the value back. *)
Lemma loads_dumps v : wf v = true -> json_loads (json_dumps v) = Some v.
Proof.
  intros Hw. unfold json_loads, json_dumps.
  rewrite skip_ws_started by apply encode_started.
  pose proof (proj1 (decode_encode_fuel (S (String.length (encode 0 v))))
                v 0 "") as H.
  rewrite append_nil_r in H. rewrite H; [reflexivity | | exact Hw | reflexivity].
  pose proof (size_le_length (size v) v 0 (le_n _)). lia.
Qed.

(** *** Documents *)

Import Segmenter Metadata Assembler.

Lemma wf_arr vs : wf (JArr vs) = forallb wf vs.
Proof. reflexivity. Qed.

Lemma wf_obj kvs :
  wf (JObj kvs) = nodupb (map fst kvs) && forallb (fun kv => wf (snd kv)) kvs.
Proof. reflexivity. Qed.

Lemma forallb_map_true {A B} (p : B -> bool) (g : A -> B) l :
  (forall x, p (g x) = true) -> forallb p (map g l) = true.
Proof.
  intros H. induction l as [|x l IH]; simpl; [reflexivity|].
  now rewrite H, IH.
Qed.

Lemma wf_jstr_or_null o : wf (jstr_or_null o) = true.
Proof. now destruct o. Qed.

Lemma wf_table t : wf (table_to_json t) = true.
Proof.
  unfold table_to_json. rewrite wf_arr. apply forallb_map_true.
  intros row. rewrite wf_arr. now apply forallb_map_true.
Qed.

Lemma wf_section_entry se : wf (section_entry_to_json se) = true.
Proof.
  unfold section_entry_to_json. rewrite wf_obj. cbn [map fst snd forallb].
  now rewrite wf_table, wf_jstr_or_null.
Qed.

Lemma wf_content c : wf (content_to_json c) = true.
Proof.
  destruct c; unfold content_to_json; rewrite wf_obj; cbn [map fst snd forallb];
    rewrite ?wf_table, ?wf_jstr_or_null; reflexivity.
Qed.

Lemma wf_page pe : wf (page_to_json pe) = true.
Proof.
  unfold page_to_json. rewrite wf_obj. cbn [map fst snd forallb].
  rewrite wf_arr, forallb_map_true by apply wf_content. reflexivity.
Qed.

Lemma map_fst_keyed {A B} (g : string * A -> B) (l : list (string * A)) :
  map fst (map (fun kv => (fst kv, g kv)) l) = map fst l.
Proof. induction l as [|x l IH]; simpl; [reflexivity | now rewrite IH]. Qed.

Lemma wf_document d :
  NoDup (map fst (doc_sections d)) -> wf (document_to_json d) = true.
Proof.
  intros Hk. unfold document_to_json. rewrite wf_obj.
  cbn [map fst snd forallb].
  rewrite wf_arr, (forallb_map_true wf page_to_json) by apply wf_page.
  rewrite (wf_obj (map _ _)), map_fst_keyed.
  rewrite (proj2 (nodupb_NoDup _) Hk).
  rewrite forallb_map_true; [reflexivity|].
  intros [k ses]. cbn [snd]. rewrite wf_arr.
  apply forallb_map_true, wf_section_entry.
Qed.

(** The keys of [sections] stay distinct. *)
Lemma setdefault_keys_in k v m x :
  In x (map fst (setdefault_append k v m)) -> x = k \/ In x (map fst m).
Proof.
  induction m as [|[k' vs] m IH]; simpl.
  - intros [<-|[]]. now left.
  - destruct (String.eqb k' k); simpl; intros [<-|H]; auto.
    destruct (IH H); auto.
Qed.

Lemma setdefault_keys_nodup k v m :
  NoDup (map fst m) -> NoDup (map fst (setdefault_append k v m)).
Proof.
  induction m as [|[k' vs] m IH]; simpl; intros Hnd.
  - repeat constructor. intros [].
  - inversion Hnd as [|x l Hx Hl]. subst.
    destruct (String.eqb k' k) eqn:E; simpl; constructor; auto.
    intros Hin. apply setdefault_keys_in in Hin as [->|Hin]; [|tauto].
    now rewrite String.eqb_refl in E.
Qed.

Lemma add_table_keys p st t :
  NoDup (map fst (ts_sections st)) ->
  NoDup (map fst (ts_sections (add_table p st t))).
Proof.
  intros H. unfold add_table.
  destruct (Classifier.classify_table (t_rows t)) as [[k|] lab]; simpl; [|exact H].
  destruct (is_empty k); simpl; [exact H|]. now apply setdefault_keys_nodup.
Qed.

Lemma add_tables_keys p ts : forall st,
  NoDup (map fst (ts_sections st)) ->
  NoDup (map fst (ts_sections (fold_left (add_table p) ts st))).
Proof.
  induction ts as [|t ts IH]; intros st H; simpl; [exact H|].
  now apply IH, add_table_keys.
Qed.

Lemma add_page_keys b f st ip :
  NoDup (map fst (as_sections st)) ->
  NoDup (map fst (as_sections (add_page b f st ip))).
Proof.
  intros H. destruct ip as [i pl]. unfold add_page.
  destruct (extract_tables_from_page _ _) as [ts n1]. simpl.
  now apply add_tables_keys.
Qed.

Lemma add_pages_keys b f l : forall st,
  NoDup (map fst (as_sections st)) ->
  NoDup (map fst (as_sections (fold_left (add_page b f) l st))).
Proof.
  induction l as [|ip l IH]; intros st H; simpl; [exact H|].
  now apply IH, add_page_keys.
Qed.

Lemma parse_keys b f pdf :
  NoDup (map fst (doc_sections (parse_pdf_to_json b f pdf))).
Proof.
  unfold parse_pdf_to_json. simpl. apply add_pages_keys.
  apply nodupb_NoDup. reflexivity.
Qed.

(** C9: for every document the assembler produces, encoding it to the
    persisted text and decoding the text gives back a value equal to
    the document field for field: same keys, same lists, same strings
    and numbers, with the empty lists of the categories without table
    and the null section of the unclassified tables. *)
Theorem document_round_trip (do_ocr : bool) (ocr_image : string -> string)
    (pdf : list pdf_page) :
  json_loads
    (json_dumps (document_to_json (parse_pdf_to_json do_ocr ocr_image pdf)))
  = Some (document_to_json (parse_pdf_to_json do_ocr ocr_image pdf)).
Proof.
  apply loads_dumps, wf_document, parse_keys.
Qed.

End JsonProps.

(** * Further properties *)

(** ** String primitives and clean_text *)

Module PyStrProps.

Local Open Scope list_scope.

(** [s] has no character of the class [p]. *)
Definition free_of (p : ascii -> bool) (s : string) : Prop :=
  existsb_str p s = false.

Lemma free_of_cons p c s :
  free_of p (String c s) <-> p c = false /\ free_of p s.
Proof. unfold free_of. simpl. apply orb_false_iff. Qed.

Lemma free_of_append p a b :
  free_of p a -> free_of p b -> free_of p (a ++ b)%string.
Proof.
  induction a as [|c a IH]; simpl; intros Ha Hb; [exact Hb|].
  apply free_of_cons in Ha as [Hc Ha]. apply free_of_cons. auto.
Qed.

(** *** strip *)

Lemma lstrip_free p s : free_of p s -> free_of p (lstrip s).
Proof.
  induction s as [|c s IH]; simpl; intros H; [exact H|].
  destruct (is_space c); [|exact H].
  apply free_of_cons in H as [_ H]. auto.
Qed.

Lemma rstrip_free p s : free_of p s -> free_of p (rstrip s).
Proof.
  induction s as [|c s IH]; simpl; intros H; [exact H|].
  apply free_of_cons in H as [Hc H].
  destruct (is_space c && is_empty (rstrip s)); [reflexivity|].
  apply free_of_cons. auto.
Qed.

Lemma strip_free p s : free_of p s -> free_of p (strip s).
Proof. intros H. unfold strip. now apply lstrip_free, rstrip_free. Qed.

Lemma lstrip_idem s : lstrip (lstrip s) = lstrip s.
Proof.
  induction s as [|c s IH]; simpl; [reflexivity|].
  destruct (is_space c) eqn:E; [exact IH|]. simpl. now rewrite E.
Qed.

Lemma rstrip_idem s : rstrip (rstrip s) = rstrip s.
Proof.
  induction s as [|c s IH]; simpl; [reflexivity|].
  destruct (is_space c && is_empty (rstrip s)) eqn:E; [reflexivity|].
  simpl. now rewrite IH, E.
Qed.

(** Stripping on the left keeps a text that has nothing to strip on
    the right that way. *)
Lemma rstrip_lstrip s : rstrip s = s -> rstrip (lstrip s) = lstrip s.
Proof.
  induction s as [|c s IH]; simpl; [reflexivity|].
  destruct (is_space c && is_empty (rstrip s)) eqn:E; [discriminate|].
  intros H. injection H as H.
  destruct (is_space c) eqn:Ec; [now apply IH|].
  simpl. now rewrite H, Ec.
Qed.

Lemma strip_idem s : strip (strip s) = strip s.
Proof.
  unfold strip.
  rewrite (rstrip_lstrip (rstrip s)) by apply rstrip_idem.
  apply lstrip_idem.
Qed.

(** A stripped text, as the two ends see it. *)
Lemma strip_fixed_ends s : strip s = s -> lstrip s = s /\ rstrip s = s.
Proof.
  intros H. split.
  - rewrite <- H at 1. unfold strip. rewrite lstrip_idem. exact H.
  - rewrite <- H at 1. unfold strip.
    rewrite (rstrip_lstrip (rstrip s)) by apply rstrip_idem. exact H.
Qed.

Lemma strip_of_ends s : lstrip s = s -> rstrip s = s -> strip s = s.
Proof. intros Hl Hr. unfold strip. now rewrite Hr. Qed.

Lemma lstrip_append a b :
  lstrip a = a -> is_empty a = false -> lstrip (a ++ b)%string = (a ++ b)%string.
Proof.
  destruct a as [|c a]; [discriminate|]. simpl.
  destruct (is_space c) eqn:E; [|reflexivity].
  intros H _. exfalso.
  assert (Hl : String.length (lstrip a) <= String.length a).
  { clear. induction a as [|d a IH]; simpl; [lia|].
    destruct (is_space d); simpl; lia. }
  rewrite H in Hl. simpl in Hl. lia.
Qed.

Lemma rstrip_append a b :
  rstrip b = b -> is_empty b = false -> rstrip (a ++ b)%string = (a ++ b)%string.
Proof.
  intros Hb Hne. induction a as [|c a IH]; simpl; [exact Hb|].
  rewrite IH.
  replace (is_empty (a ++ b)%string) with false.
  - now rewrite andb_false_r.
  - destruct a; simpl; [now rewrite Hne | reflexivity].
Qed.

(** *** splitlines *)

Lemma splitlines_single s :
  free_of is_linebreak s -> is_empty s = false -> splitlines s = [s].
Proof.
  induction s as [|c s IH]; [discriminate|].
  intros H _. apply free_of_cons in H as [Hc H].
  simpl. rewrite Hc.
  destruct s as [|d s]; [reflexivity|].
  now rewrite IH.
Qed.

Lemma splitlines_line l rest :
  free_of is_linebreak l ->
  splitlines (l ++ LF ++ rest)%string = l :: splitlines rest.
Proof.
  induction l as [|c l IH]; intros H.
  - reflexivity.
  - apply free_of_cons in H as [Hc H].
    change (splitlines (String c l ++ LF ++ rest)%string)
      with (splitlines (String c (l ++ LF ++ rest)%string)).
    cbn [splitlines]. rewrite Hc, IH by exact H. reflexivity.
Qed.

(** The pieces [splitlines] cuts have no line boundary left in them. *)
Lemma splitlines_free_bound n : forall s,
  String.length s <= n -> Forall (free_of is_linebreak) (splitlines s).
Proof.
  induction n as [|n IH]; intros s Hn.
  - destruct s; [constructor | simpl in Hn; lia].
  - destruct s as [|c r]; [constructor|].
    simpl in Hn. cbn [splitlines].
    destruct (is_linebreak c) eqn:Hc.
    + constructor; [reflexivity|]. apply IH.
      destruct (code c =? 13)%nat; [|lia].
      destruct r as [|d r']; [simpl; lia|].
      destruct (code d =? 10)%nat; simpl in *; lia.
    + assert (Hr : Forall (free_of is_linebreak) (splitlines r)) by (apply IH; lia).
      destruct (splitlines r) as [|l ls].
      * constructor; [|constructor]. apply free_of_cons. now split.
      * inversion Hr as [|x xs Hl Hls]. subst.
        constructor; [|exact Hls]. apply free_of_cons. now split.
Qed.

Lemma splitlines_free s : Forall (free_of is_linebreak) (splitlines s).
Proof. apply (splitlines_free_bound (String.length s)). lia. Qed.

(** *** Lines joined by a separator *)

(** A line as the loops keep it: not empty, stripped, without a line
    boundary. *)
Definition clean_line (l : string) : Prop :=
  is_empty l = false /\ strip l = l /\ free_of is_linebreak l.

Lemma join_two sep x y l :
  join sep (x :: y :: l) = (x ++ sep ++ join sep (y :: l))%string.
Proof. reflexivity. Qed.

Lemma join_nonempty sep l ls :
  is_empty l = false -> is_empty (join sep (l :: ls)) = false.
Proof.
  intros H. destruct ls as [|y ls]; [exact H|].
  rewrite join_two. destruct l; [discriminate | reflexivity].
Qed.

Lemma join_free p sep ls :
  free_of p sep -> Forall (free_of p) ls -> free_of p (join sep ls).
Proof.
  intros Hsep H. induction H as [|l ls Hl Hls IH]; [reflexivity|].
  destruct ls as [|y ls]; [exact Hl|].
  rewrite join_two. auto using free_of_append.
Qed.

Lemma join_lstrip sep l ls :
  lstrip l = l -> is_empty l = false ->
  lstrip (join sep (l :: ls)) = join sep (l :: ls).
Proof.
  intros Hl Hne. destruct ls as [|y ls]; [exact Hl|].
  rewrite join_two. now apply lstrip_append.
Qed.

Lemma join_rstrip sep ls : forall l,
  Forall (fun x => rstrip x = x /\ is_empty x = false) (l :: ls) ->
  rstrip (join sep (l :: ls)) = join sep (l :: ls).
Proof.
  induction ls as [|y ls IH]; intros l H.
  - inversion H as [|x xs [Hr _] _]. exact Hr.
  - inversion H as [|x xs _ H']. subst.
    rewrite join_two, <- JsonProps.append_assoc.
    apply rstrip_append; [now apply IH|].
    inversion H' as [|x xs [_ Hy] _]. subst. now apply join_nonempty.
Qed.

Lemma clean_line_join_space l ls :
  Forall clean_line (l :: ls) -> clean_line (join " " (l :: ls)).
Proof.
  intros H.
  assert (Hl : clean_line l) by now inversion H.
  destruct Hl as (Hne & Hs & _).
  apply strip_fixed_ends in Hs as [Hls _].
  split; [now apply join_nonempty|]. split.
  - apply strip_of_ends; [now apply join_lstrip|].
    apply join_rstrip. eapply Forall_impl; [|exact H].
    intros x (Hx & Hsx & _). split; [|exact Hx].
    now apply strip_fixed_ends in Hsx.
  - apply join_free; [reflexivity|].
    eapply Forall_impl; [|exact H]. now intros x (_ & _ & Hx).
Qed.

Lemma splitlines_join_LF ls : forall l,
  Forall clean_line (l :: ls) -> splitlines (join LF (l :: ls)) = l :: ls.
Proof.
  induction ls as [|y ls IH]; intros l H;
    inversion H as [|x xs (Hne & _ & Hf) H']; subst.
  - now apply splitlines_single.
  - rewrite join_two, splitlines_line by exact Hf. now rewrite IH.
Qed.

Lemma map_strip_clean ls : Forall clean_line ls -> map strip ls = ls.
Proof.
  induction 1 as [|l ls (_ & Hs & _) _ IH]; simpl; [reflexivity|].
  now rewrite Hs, IH.
Qed.

Lemma filter_nonempty_clean ls :
  Forall clean_line ls -> filter (fun l => negb (is_empty l)) ls = ls.
Proof.
  induction 1 as [|l ls (Hne & _) _ IH]; simpl; [reflexivity|].
  now rewrite Hne, IH.
Qed.

(** [clean_text] on clean lines joined by line feeds: the same lines
    joined by spaces. *)
Lemma clean_text_join_LF ls :
  Forall clean_line ls -> clean_text (Some (join LF ls)) = join " " ls.
Proof.
  intros H. destruct ls as [|l ls]; [reflexivity|].
  unfold clean_text.
  assert (Hne : is_empty (join LF (l :: ls)) = false).
  { apply join_nonempty. now inversion H as [|x xs (Hx & _) _]. }
  rewrite Hne, splitlines_join_LF, map_strip_clean, filter_nonempty_clean by exact H.
  reflexivity.
Qed.

(** The lines [clean_text] joins are clean. *)
Lemma clean_text_lines s :
  Forall clean_line
    (filter (fun l => negb (is_empty l)) (map strip (splitlines s))).
Proof.
  pose proof (splitlines_free s) as H.
  induction H as [|l ls Hl _ IH]; simpl; [constructor|].
  destruct (is_empty (strip l)) eqn:E; simpl; [exact IH|].
  constructor; [|exact IH].
  split; [exact E|]. split; [apply strip_idem | now apply strip_free].
Qed.

Lemma clean_line_single s :
  clean_line s -> clean_text (Some s) = s.
Proof.
  intros H. apply (clean_text_join_LF [s]). now constructor.
Qed.

End PyStrProps.

(** ** clean_text and the text segmenter, further *)

Module SegmenterExtra.

Import Segmenter PyStrProps.
Local Open Scope list_scope.

(** X1: [clean_text] is idempotent, and what it returns is empty or one
    clean line: not blank, without a line boundary and without white
    space at either end. *)
Theorem clean_text_idempotent (s : option string) :
  clean_text (Some (clean_text s)) = clean_text s /\
  (clean_text s = "" \/ clean_line (clean_text s)).
Proof.
  assert (H : clean_text s = "" \/ clean_line (clean_text s)).
  { destruct s as [s|]; [|now left]. unfold clean_text.
    destruct (is_empty s); [now left|].
    pose proof (clean_text_lines s) as Hl.
    destruct (filter _ _) as [|l ls]; [now left | right].
    now apply clean_line_join_space. }
  split; [|exact H].
  destruct H as [-> | H]; [reflexivity | now apply clean_line_single].
Qed.

(** *** The buffer holds clean lines *)

Lemma raw_lines_free text : Forall (free_of is_linebreak) (raw_lines text).
Proof.
  unfold raw_lines. pose proof (splitlines_free text) as H.
  induction H; simpl; constructor; auto using rstrip_free.
Qed.

Lemma strip_clean raw :
  free_of is_linebreak raw -> is_empty (strip raw) = false ->
  clean_line (strip raw).
Proof.
  intros Hf He. split; [exact He|].
  split; [apply strip_idem | now apply strip_free].
Qed.

(** The state of the loop with the buffers that were flushed so far. *)
Record buffered (bs : list (list string)) (st : seg_state) : Prop := {
  bf_texts : map p_text (result st) = map (join " ") bs;
  bf_flushed : Forall (fun b => b <> [] /\ Forall clean_line b) bs;
  bf_pending : Forall clean_line (current_text st)
}.

Lemma flushed_text st :
  Forall clean_line (current_text st) ->
  p_text (flushed st) = join " " (current_text st).
Proof. intros H. simpl. now apply clean_text_join_LF. Qed.

Lemma buffered_flush bs st :
  buffered bs st ->
  exists bs', buffered bs' (flush st) /\
    concat bs' ++ current_text (flush st) = concat bs ++ current_text st.
Proof.
  intros [Ht Hf Hp]. unfold flush. destruct (pending st) eqn:E.
  - exists (bs ++ [current_text st]). split.
    + constructor; simpl.
      * rewrite !map_app, Ht. cbn [map]. now rewrite flushed_text.
      * apply Forall_app. split; [exact Hf|]. constructor; [|constructor].
        split; [|exact Hp]. unfold pending in E.
        apply andb_true_iff in E as [_ E]. now destruct (current_text st).
      * constructor.
    + simpl. rewrite concat_app. simpl. now rewrite !app_nil_r.
  - exists bs. now split.
Qed.

(** The lines that are neither blank nor a heading of either kind. *)
Definition is_body (l : string) : bool :=
  negb (is_empty l) && negb (is_main_heading l) && negb (is_subsection l).

Lemma buffered_step bs st raw :
  free_of is_linebreak raw ->
  buffered bs st ->
  exists bs', buffered bs' (step st raw) /\
    concat bs' ++ current_text (step st raw)
    = (concat bs ++ current_text st) ++ filter is_body [strip raw].
Proof.
  intros Hf Hb. unfold step. simpl filter. unfold is_body.
  destruct (is_empty (strip raw)) eqn:He; simpl.
  - exists bs. split; [exact Hb | now rewrite app_nil_r].
  - destruct (is_main_heading (strip raw)) eqn:Hh; simpl.
    + destruct (buffered_flush bs st Hb) as (bs' & [Ht Hfl Hp] & Hc).
      exists bs'. split; [now constructor | now rewrite app_nil_r].
    + destruct (is_subsection (strip raw)) eqn:Hs; simpl.
      * destruct (buffered_flush bs st Hb) as (bs' & [Ht Hfl Hp] & Hc).
        exists bs'. split; [now constructor | now rewrite app_nil_r].
      * destruct Hb as [Ht Hfl Hp]. exists bs. split.
        -- constructor; simpl; auto.
           apply Forall_app. split; [exact Hp|].
           constructor; [now apply strip_clean | constructor].
        -- now rewrite app_assoc.
Qed.

Lemma buffered_fold lines : forall bs st,
  Forall (free_of is_linebreak) lines ->
  buffered bs st ->
  exists bs', buffered bs' (fold_left step lines st) /\
    concat bs' ++ current_text (fold_left step lines st)
    = (concat bs ++ current_text st) ++ filter is_body (map strip lines).
Proof.
  induction lines as [|raw lines IH]; intros bs st Hl Hb; simpl fold_left.
  - exists bs. split; [exact Hb | simpl; now rewrite app_nil_r].
  - inversion Hl as [|x xs Hraw Hl']. subst.
    destruct (buffered_step bs st raw Hraw Hb) as (bs1 & Hb1 & Hc1).
    destruct (IH bs1 (step st raw) Hl' Hb1) as (bs2 & Hb2 & Hc2).
    exists bs2. split; [exact Hb2|].
    rewrite Hc2, Hc1, <- !app_assoc. f_equal. f_equal.
    change (map strip (raw :: lines)) with ([strip raw] ++ map strip lines).
    now rewrite filter_app.
Qed.

Lemma buffered_init : buffered [] seg_init.
Proof. constructor; simpl; constructor. Qed.

(** With or without the guard on the empty text. *)
Lemma detect_as_fold text :
  detect_sections_from_text text
  = finish (fold_left step (raw_lines text) seg_init).
Proof.
  unfold detect_sections_from_text. destruct text; reflexivity.
Qed.

Lemma detect_buffers text :
  exists bs,
    map p_text (detect_sections_from_text text) = map (join " ") bs /\
    Forall (fun b => b <> [] /\ Forall clean_line b) bs /\
    (pending (fold_left step (raw_lines text) seg_init) = true \/
     current_text (fold_left step (raw_lines text) seg_init) = [] ->
     concat bs = filter is_body (seen_lines text)).
Proof.
  rewrite detect_as_fold.
  destruct (buffered_fold (raw_lines text) [] seg_init
              (raw_lines_free text) buffered_init)
    as (bs & [Ht Hf Hp] & Hc).
  simpl in Hc. fold (seen_lines text) in Hc.
  set (st := fold_left step (raw_lines text) seg_init) in *.
  unfold finish. destruct (pending st) eqn:E.
  - exists (bs ++ [current_text st]). split; [|split].
    + rewrite !map_app, Ht. cbn [map]. now rewrite flushed_text.
    + apply Forall_app. split; [exact Hf|]. constructor; [|constructor].
      split; [|exact Hp]. unfold pending in E.
      apply andb_true_iff in E as [_ E]. now destruct (current_text st).
    + intros _. rewrite concat_app. simpl. now rewrite app_nil_r.
  - exists bs. split; [exact Ht|]. split; [exact Hf|].
    intros [H|H]; [discriminate|]. rewrite H, app_nil_r in Hc. exact Hc.
Qed.

(** X2: the text of every emitted paragraph is one clean line: it is
    not empty, has no line boundary in it and no white space at either
    end. *)
Theorem paragraph_text_clean (text : string) (r : paragraph) :
  In r (detect_sections_from_text text) -> clean_line (p_text r).
Proof.
  intros Hin. destruct (detect_buffers text) as (bs & Ht & Hf & _).
  apply (in_map p_text) in Hin. rewrite Ht in Hin.
  apply in_map_iff in Hin as (b & <- & Hb).
  rewrite Forall_forall in Hf. destruct (Hf b Hb) as [Hne Hcl].
  destruct b as [|l b]; [contradiction|]. now apply clean_line_join_space.
Qed.

Lemma paragraph_text_clean_witness :
  clean_line (p_text (mk_paragraph (Some "SUMMARY") None "hello world")).
Proof.
  apply (paragraph_text_clean ("hello" ++ LF ++ "SUMMARY" ++ LF ++ "  world  ")).
  vm_compute. left. reflexivity.
Defined.

(** *** A heading always has a name *)
















Lemma join_app sep (a b : list string) :
  a <> [] -> b <> [] ->
  join sep (a ++ b) = (join sep a ++ sep ++ join sep b)%string.
Proof.
  intros Ha Hb. induction a as [|x a IH]; [contradiction|].
  destruct a as [|y a].
  - destruct b as [|z b]; [contradiction | reflexivity].
  - change ((x :: y :: a) ++ b) with (x :: y :: (a ++ b)).
    rewrite !join_two.
    change (y :: a ++ b) with ((y :: a) ++ b).
    rewrite IH by discriminate. now rewrite !JsonProps.append_assoc.
Qed.



(** *** Blank lines and indentation *)

Lemma step_strip st raw : step st (strip raw) = step st raw.
Proof. unfold step. now rewrite strip_idem. Qed.

Lemma fold_step_seen lines : forall st,
  fold_left step lines st
  = fold_left step
      (filter (fun l => negb (is_empty l)) (map strip lines)) st.
Proof.
  induction lines as [|raw lines IH]; intros st; simpl; [reflexivity|].
  destruct (is_empty (strip raw)) eqn:E; simpl.
  - rewrite <- IH. f_equal. unfold step. now rewrite E.
  - rewrite step_strip. apply IH.
Qed.

(** X4: blank lines and the white space around a line do not matter:
    two texts with the same non-blank lines, once stripped, are
    segmented into the same paragraphs. *)
Theorem blank_lines_ignored (text1 text2 : string) :
  filter (fun l => negb (is_empty l)) (seen_lines text1)
  = filter (fun l => negb (is_empty l)) (seen_lines text2) ->
  detect_sections_from_text text1 = detect_sections_from_text text2.
Proof.
  intros H. rewrite !detect_as_fold.
  rewrite (fold_step_seen (raw_lines text1)), (fold_step_seen (raw_lines text2)).
  unfold seen_lines in H. now rewrite H.
Qed.

Lemma blank_lines_ignored_witness :
  detect_sections_from_text
    (LF ++ "  SUMMARY " ++ LF ++ LF ++ "   " ++ LF ++ " alpha" ++ LF)
  = detect_sections_from_text ("SUMMARY" ++ LF ++ "alpha").
Proof.
  apply blank_lines_ignored. vm_compute. reflexivity.
Defined.

(** *** Where a sub_section comes from *)

Definition labelled_by (L : list string) (o : option string) : Prop :=
  o = None \/
  exists l, In l L /\ is_subsection l = true /\ is_main_heading l = false /\
            o = Some l.

Definition subsections_from (L : list string) (st : seg_state) : Prop :=
  (forall r, In r (result st) -> labelled_by L (p_sub_section r)) /\
  labelled_by L (current_subsection st).

Lemma flush_subsections_from L st :
  subsections_from L st -> subsections_from L (flush st).
Proof.
  intros [Hr Hc]. unfold flush. destruct (pending st); [|now split].
  split; simpl; [|exact Hc].
  intros r Hin. apply in_app_or in Hin as [Hin|[<-|[]]]; auto.
Qed.

Lemma step_subsections_from L st raw :
  In (strip raw) L -> subsections_from L st -> subsections_from L (step st raw).
Proof.
  intros Hin Hinv. unfold step.
  destruct (is_empty (strip raw)); [exact Hinv|].
  destruct (is_main_heading (strip raw)) eqn:Hh.
  - destruct (flush_subsections_from L st Hinv) as [Hr _].
    split; simpl; [exact Hr | now left].
  - destruct (is_subsection (strip raw)) eqn:Hs.
    + destruct (flush_subsections_from L st Hinv) as [Hr _].
      split; simpl; [exact Hr|]. right. now exists (strip raw).
    + destruct Hinv as [Hr Hc]. now split.
Qed.

Lemma fold_subsections_from L lines : forall st,
  (forall raw, In raw lines -> In (strip raw) L) ->
  subsections_from L st -> subsections_from L (fold_left step lines st).
Proof.
  induction lines as [|raw lines IH]; intros st Hl Hinv; simpl; [exact Hinv|].
  apply IH.
  - intros x Hx. apply Hl. now right.
  - apply step_subsections_from; [apply Hl; now left | exact Hinv].
Qed.

(** X5: the sub_section of an emitted paragraph is null or a line of
    the text that is a colon label shorter than 120 characters and not
    a main heading. *)
Theorem sub_section_is_label (text : string) (r : paragraph) :
  In r (detect_sections_from_text text) ->
  p_sub_section r = None \/
  exists l, In l (seen_lines text) /\ is_subsection l = true /\
            is_main_heading l = false /\ p_sub_section r = Some l.
Proof.
  rewrite detect_as_fold.
  assert (H : subsections_from (seen_lines text)
                (fold_left step (raw_lines text) seg_init)).
  { apply fold_subsections_from.
    - intros raw Hraw. unfold seen_lines. now apply in_map.
    - split; [intros ? [] | now left]. }
  destruct H as [Hr Hc]. unfold finish.
  destruct (pending _); [|apply Hr].
  intros Hin. apply in_app_or in Hin as [Hin|[<-|[]]]; [now apply Hr | exact Hc].
Qed.

Lemma sub_section_is_label_witness :
  p_sub_section (mk_paragraph (Some "SUMMARY") (Some "Benchmark: X") "Beta line")
  = None \/
  exists l,
    In l (seen_lines ("SUMMARY" ++ LF ++ "Alpha line" ++ LF ++ "Benchmark: X"
                      ++ LF ++ "Beta line")) /\
    is_subsection l = true /\ is_main_heading l = false /\
    p_sub_section (mk_paragraph (Some "SUMMARY") (Some "Benchmark: X") "Beta line")
    = Some l.
Proof.
  apply (sub_section_is_label
           ("SUMMARY" ++ LF ++ "Alpha line" ++ LF ++ "Benchmark: X" ++ LF
            ++ "Beta line")).
  vm_compute. right. left. reflexivity.
Defined.

End SegmenterExtra.

(** ** The table classifier, further *)

Module ClassifierExtra.

Import Classifier.
Local Open Scope list_scope.

(** *** Substrings *)

Lemma prefix_nil x : prefix "" x = true.
Proof. now destruct x. Qed.

Lemma prefix_app_l x : forall a b,
  prefix (a ++ b)%string x = true -> prefix a x = true.
Proof.
  induction x as [|d x IH]; intros [|c a] b H; try reflexivity.
  - discriminate.
  - simpl in *. destruct (ascii_dec c d); [now apply (IH a b) | discriminate].
Qed.

Lemma prefix_ext x : forall a t,
  prefix a x = true -> prefix a (x ++ t)%string = true.
Proof.
  induction x as [|d x IH]; intros [|c a] t H.
  - apply prefix_nil.
  - discriminate.
  - reflexivity.
  - simpl in *. destruct (ascii_dec c d); [now apply IH | discriminate].
Qed.

Lemma str_in_unfold a h :
  str_in a h = if prefix a h then true
               else match h with
                    | "" => false
                    | String _ r => str_in a r
                    end.
Proof. now destruct h. Qed.

Lemma str_in_app_l a b h : str_in (a ++ b)%string h = true -> str_in a h = true.
Proof.
  induction h as [|d h IH]; rewrite (str_in_unfold (a ++ b)), (str_in_unfold a).
  - destruct (prefix (a ++ b) "") eqn:E; [|discriminate].
    now rewrite (prefix_app_l _ _ _ E).
  - destruct (prefix (a ++ b) (String d h)) eqn:E.
    + now rewrite (prefix_app_l _ _ _ E).
    + intros H. destruct (prefix a (String d h)); auto.
Qed.

Lemma str_in_ext a h t : str_in a h = true -> str_in a (h ++ t)%string = true.
Proof.
  induction h as [|d h IH].
  - rewrite str_in_unfold. destruct (prefix a "") eqn:E; [|discriminate].
    intros _. rewrite str_in_unfold. now rewrite (prefix_ext "" a t E).
  - rewrite str_in_unfold. intros H.
    change (String d h ++ t)%string with (String d (h ++ t)).
    rewrite str_in_unfold.
    destruct (prefix a (String d h)) eqn:E.
    + change (String d (h ++ t)) with (String d h ++ t)%string.
      now rewrite (prefix_ext _ a t E).
    + destruct (prefix a (String d (h ++ t))); auto.
Qed.

Lemma str_in_ext_l a h t : str_in a t = true -> str_in a (h ++ t)%string = true.
Proof.
  intros H. induction h as [|d h IH]; [exact H|].
  change (String d h ++ t)%string with (String d (h ++ t)).
  rewrite str_in_unfold. now destruct (prefix a (String d (h ++ t))).
Qed.

Lemma str_in_within a p h t :
  str_in a h = true -> str_in a (p ++ h ++ t)%string = true.
Proof. intros H. now apply str_in_ext_l, str_in_ext. Qed.

Lemma any_in_exists xs h :
  any_in xs h = true <-> exists x, In x xs /\ str_in x h = true.
Proof. unfold any_in. apply existsb_exists. Qed.

(** *** What the holdings rule takes *)

Definition holdings_outcomes : list (option string * option string) :=
  [ (Some "scheme_performance", Some "Performance Data");
    (Some "scheme_performance", Some "SIP Performance");
    (Some "portfolio", Some "Holdings");
    (Some "debt_portfolio", Some "Debt Holdings") ].

Lemma holdings_rule_decides h :
  rule_holdings h = true -> In (classify_header h) holdings_outcomes.
Proof.
  intros H. unfold classify_header, holdings_outcomes. rewrite H.
  destruct (rule_performance h); [simpl; tauto|].
  destruct (rule_sip h); [simpl; tauto|].
  destruct (rule_debt h); simpl; tauto.
Qed.

(** X6: a header with one of the holdings keywords in it (a percent
    sign, or "name", "sector", "company", ...) is classified by the
    first three rules: it comes out as scheme_performance, portfolio or
    debt_portfolio, never as allocation, risk or macro, and never
    unclassified. *)
Theorem holdings_keyword_decides (row0 : list string) (rest : table)
    (keyword : string) :
  In keyword ["company"; "issuer"; "instrument"; "name"; "sector"; "%";
              "weight"; "net assets"] ->
  str_in keyword (header_str row0) = true ->
  In (classify_table (row0 :: rest)) holdings_outcomes.
Proof.
  intros Hk Hin. apply holdings_rule_decides.
  apply any_in_exists. now exists keyword.
Qed.

Lemma holdings_keyword_decides_witness :
  In (classify_table [["Risk ratio (%)"; "Beta"]; ["1"; "2"]]) holdings_outcomes.
Proof.
  apply (holdings_keyword_decides _ _ "%").
  - simpl. tauto.
  - vm_compute. reflexivity.
Defined.

(** X7: the phrase "sector allocation" of the allocation rule can never
    decide: a header that contains it contains "sector", which the
    holdings rule takes first, so the table is never classified as
    allocation. *)
Theorem sector_allocation_never_allocation (row0 : list string) (rest : table) :
  str_in "sector allocation" (header_str row0) = true ->
  In (classify_table (row0 :: rest)) holdings_outcomes /\
  fst (classify_table (row0 :: rest)) <> Some "allocation".
Proof.
  intros H.
  assert (Hs : str_in "sector" (header_str row0) = true)
    by exact (str_in_app_l "sector" " allocation" _ H).
  assert (Ho : In (classify_table (row0 :: rest)) holdings_outcomes).
  { apply holdings_rule_decides. apply any_in_exists.
    exists "sector". split; [simpl; tauto | exact Hs]. }
  split; [exact Ho|].
  set (r := classify_table (row0 :: rest)) in *.
  unfold holdings_outcomes in Ho. simpl in Ho.
  repeat (destruct Ho as [Ho|Ho]; [rewrite <- Ho; discriminate|]).
  contradiction.
Qed.

Lemma sector_allocation_never_allocation_witness :
  In (classify_table [["Sector Allocation"; "Value"]]) holdings_outcomes /\
  fst (classify_table [["Sector Allocation"; "Value"]]) <> Some "allocation".
Proof.
  apply (sector_allocation_never_allocation ["Sector Allocation"; "Value"] []).
  vm_compute. reflexivity.
Defined.

(** *** More columns *)

(** Whether some rule matches the header string. *)
Definition some_rule (h : string) : bool :=
  rule_performance h || rule_sip h || rule_holdings h || rule_allocation h
  || rule_risk h || rule_macro h.

Lemma classified_some_rule h :
  fst (classify_header h) <> None <-> some_rule h = true.
Proof.
  unfold classify_header, some_rule.
  destruct (rule_performance h); [simpl; split; [reflexivity | discriminate]|].
  destruct (rule_sip h); [simpl; split; [reflexivity | discriminate]|].
  destruct (rule_holdings h);
    [destruct (rule_debt h); simpl; split; (reflexivity || discriminate)|].
  destruct (rule_allocation h); [simpl; split; [reflexivity | discriminate]|].
  destruct (rule_risk h); [simpl; split; [reflexivity | discriminate]|].
  destruct (rule_macro h); simpl; split; try reflexivity; try discriminate.
  intros H. now contradiction H.
Qed.

Lemma any_in_within xs p h t :
  any_in xs h = true -> any_in xs (p ++ h ++ t)%string = true.
Proof.
  intros H. apply any_in_exists in H as (x & Hx & Hin).
  apply any_in_exists. exists x. split; [exact Hx | now apply str_in_within].
Qed.

Lemma some_rule_within p h t :
  some_rule h = true -> some_rule (p ++ h ++ t)%string = true.
Proof.
  unfold some_rule, rule_performance, rule_sip, rule_holdings, rule_allocation,
    rule_risk, rule_macro.
  intros H.
  repeat match type of H with
         | (_ || _) = true => apply orb_true_iff in H as [H|H]
         | (_ && _) = true => apply andb_true_iff in H as [H ?]
         end;
    repeat match goal with
           | Hs : str_in ?x h = true |- _ =>
               rewrite (str_in_within x p h t Hs); clear Hs
           | Ha : any_in ?xs h = true |- _ =>
               rewrite (any_in_within xs p h t Ha); clear Ha
           end;
    rewrite ?orb_true_r; reflexivity.
Qed.


Lemma header_str_within pre row post :
  exists p t,
    header_str (pre ++ row ++ post) = (p ++ header_str row ++ t)%string.
Proof.
  unfold header_str. rewrite !map_app.
  set (a := map lower pre). set (b := map lower row). set (c := map lower post).
  assert (Hbc : exists t, join " " (b ++ c) = (join " " b ++ t)%string).
  { destruct b as [|x b]; [now exists (join " " c)|].
    destruct c as [|y c]; [exists ""; now rewrite app_nil_r, JsonProps.append_nil_r|].
    exists (" " ++ join " " (y :: c))%string. now apply SegmenterExtra.join_app. }
  destruct Hbc as (t & Ht).
  destruct a as [|x a]; [exists "", t; exact Ht|].
  destruct (b ++ c) as [|y bc] eqn:E.
  - destruct b; [|discriminate]. simpl in Ht.
    exists (join " " (x :: a)), "". rewrite app_nil_r. simpl.
    now rewrite JsonProps.append_nil_r.
  - exists (join " " (x :: a) ++ " ")%string, t.
    rewrite SegmenterExtra.join_app by discriminate.
    now rewrite Ht, !JsonProps.append_assoc.
Qed.

(** X8: more columns never unclassify a table: when a header row is
    classified, so is every header row that has the same cells in a
    row among further cells before and after them. *)
Theorem more_columns_stay_classified (pre row post : list string)
    (rest rest' : table) :
  fst (classify_table (row :: rest)) <> None ->
  fst (classify_table ((pre ++ row ++ post) :: rest')) <> None.
Proof.
  simpl. intros H. apply classified_some_rule in H.
  apply classified_some_rule.
  destruct (header_str_within pre row post) as (p & t & ->).
  now apply some_rule_within.
Qed.

Lemma more_columns_stay_classified_witness :
  fst (classify_table (["Sr"; "Beta"; "Sharpe"; "Remarks"] :: [["1"; "2"; "3"; "4"]]))
  <> None.
Proof.
  apply (more_columns_stay_classified ["Sr"] ["Beta"; "Sharpe"] ["Remarks"] []).
  vm_compute. discriminate.
Defined.

End ClassifierExtra.

(** ** The metadata extractor, further *)

Module MetadataExtra.

Import Metadata MetadataProps.
Local Open Scope list_scope.

(** *** Where a value comes from *)

Definition captured_from (L : list string) (f : field) (m : metadata) : Prop :=
  get f m = NA \/ exists l, In l L /\ capture f l = Some (get f m).

Lemma step_captured_from L f m line :
  In line L -> captured_from L f m -> captured_from L f (step m line).
Proof.
  intros Hin H. unfold captured_from. rewrite step_get.
  destruct (is_NA (get f m)) eqn:E; [|exact H].
  destruct (capture f line) as [v|] eqn:Ec.
  - right. now exists line.
  - left. now apply is_NA_true.
Qed.

Lemma fold_captured_from L f lines : forall m,
  (forall l, In l lines -> In l L) ->
  captured_from L f m -> captured_from L f (fold_left step lines m).
Proof.
  induction lines as [|l lines IH]; intros m Hl H; simpl; [exact H|].
  apply IH.
  - intros x Hx. apply Hl. now right.
  - apply step_captured_from; [apply Hl; now left | exact H].
Qed.

Lemma extract_captured_from f pages :
  captured_from (doc_lines pages) f (extract_metadata pages).
Proof.
  rewrite extract_metadata_fold. apply fold_captured_from; [auto|].
  left. now destruct f.
Qed.

(** X9: every field of the extracted metadata is "N/A" or was captured
    by the field's rule from a line of the document that is not a
    skipped line. *)
Theorem metadata_from_lines (f : field) (pages : list (option string)) :
  get f (extract_metadata pages) = NA \/
  exists l, In l (doc_lines pages) /\ skipped (lower l) = false /\
            capture f l = Some (get f (extract_metadata pages)).
Proof.
  destruct (extract_captured_from f pages) as [H | (l & Hin & Hc)];
    [now left | right].
  exists l. split; [exact Hin|]. split; [|exact Hc].
  unfold capture in Hc. now destruct (skipped (lower l)).
Qed.

(** *** Scanning again *)

Lemma metadata_ext m1 m2 : (forall f, get f m1 = get f m2) -> m1 = m2.
Proof.
  intros H. destruct m1, m2.
  pose proof (H FundName). pose proof (H Aum). pose proof (H Benchmark).
  pose proof (H AdditionalBenchmark). pose proof (H FundManager).
  pose proof (H LaunchDate). simpl in *. congruence.
Qed.

Lemma fold_NA_inv f lines : forall m,
  get f (fold_left step lines m) = NA ->
  get f m = NA /\
  forall l, In l lines -> capture f l = None \/ capture f l = Some NA.
Proof.
  induction lines as [|l lines IH]; intros m H; simpl in *.
  - split; [exact H | intros ? []].
  - destruct (IH _ H) as [Hs Hl]. rewrite step_get in Hs.
    destruct (is_NA (get f m)) eqn:E.
    + split; [now apply is_NA_true|].
      intros x [<-|Hx]; [|now apply Hl].
      destruct (capture f l) as [v|]; [right; now rewrite Hs | now left].
    + apply is_NA_false in E. contradiction.
Qed.

Lemma fold_twice lines m :
  fold_left step lines (fold_left step lines m) = fold_left step lines m.
Proof.
  apply metadata_ext. intros f.
  destruct (String.eqb (get f (fold_left step lines m)) NA) eqn:E.
  - apply String.eqb_eq in E.
    destruct (fold_NA_inv f lines m E) as [_ Hl].
    rewrite E. now apply fold_stays_NA.
  - apply String.eqb_neq in E. now apply fold_keeps_found.
Qed.

(** X10: scanning the same lines a second time changes nothing: the
    pass over the lines is idempotent on the record, from whatever
    record it starts, and a document followed by a copy of itself
    gives the metadata of the document. *)
Theorem rescan_changes_nothing (pages : list (option string)) :
  (forall lines m,
     fold_left step lines (fold_left step lines m) = fold_left step lines m) /\
  extract_metadata (pages ++ pages) = extract_metadata pages.
Proof.
  split; [apply fold_twice|].
  rewrite !extract_metadata_fold. unfold doc_lines.
  rewrite flat_map_app, fold_left_app. apply fold_twice.
Qed.

(** *** Page breaks *)

Lemma split_lf_nonempty s : split_lf s <> [].
Proof.
  destruct s as [|c s]; simpl; [discriminate|].
  destruct (code c =? 10)%nat; [discriminate|].
  destruct (split_lf s); discriminate.
Qed.

Lemma split_lf_app a b :
  split_lf (a ++ LF ++ b)%string = split_lf a ++ split_lf b.
Proof.
  induction a as [|c a IH]; [reflexivity|].
  change (String c a ++ LF ++ b)%string with (String c (a ++ LF ++ b)%string).
  cbn [split_lf]. rewrite IH.
  destruct (code c =? 10)%nat; [reflexivity|].
  pose proof (split_lf_nonempty a). now destruct (split_lf a).
Qed.

Lemma page_lines_app a b :
  page_lines (a ++ LF ++ b)%string = page_lines a ++ page_lines b.
Proof.
  unfold page_lines. now rewrite split_lf_app, filter_app, map_app.
Qed.

Lemma doc_lines_app p q : doc_lines (p ++ q) = doc_lines p ++ doc_lines q.
Proof. apply flat_map_app. Qed.

Lemma doc_lines_cons p q :
  doc_lines (p :: q) = page_lines (text_or_empty p) ++ doc_lines q.
Proof. reflexivity. Qed.

(** X11: where the page breaks fall does not matter to the metadata: a
    page whose text is [a], a line feed and [b] counts as the two pages
    [a] and [b], and a page without text, or with nothing but blank
    lines, counts for nothing. *)
Theorem page_breaks_ignored (pre post : list (option string)) (a b : string) :
  extract_metadata (pre ++ Some (a ++ LF ++ b)%string :: post)
  = extract_metadata (pre ++ Some a :: Some b :: post) /\
  extract_metadata (pre ++ None :: post) = extract_metadata (pre ++ post) /\
  (page_lines a = [] ->
   extract_metadata (pre ++ Some a :: post) = extract_metadata (pre ++ post)).
Proof.
  rewrite !extract_metadata_fold, !doc_lines_app, !doc_lines_cons.
  cbn [text_or_empty].
  split; [|split].
  - now rewrite page_lines_app, <- app_assoc.
  - reflexivity.
  - intros H. now rewrite H.
Qed.

Lemma page_breaks_ignored_witness :
  extract_metadata [Some ("  " ++ LF ++ " ")%string; Some "Benchmark: Nifty 50"]
  = extract_metadata [Some "Benchmark: Nifty 50"].
Proof.
  apply (proj2 (proj2 (page_breaks_ignored [] [Some "Benchmark: Nifty 50"]
                         ("  " ++ LF ++ " ")%string ""))).
  vm_compute. reflexivity.
Defined.

(** *** The shape of a captured AUM *)

(** Every character of [s] is in the class [p]. *)
Definition all_of (p : ascii -> bool) (s : string) : Prop :=
  PyStrProps.free_of (fun c => negb (p c)) s.










End MetadataExtra.

(** ** Table extraction and the assembler, further *)

Module AssemblerExtra.

Import Classifier Segmenter Assembler AssemblerProps.
Local Open Scope list_scope.

(** *** The tables that are kept *)

(** A row as [extract_tables_from_page] leaves it: every cell is
    stripped, and some cell is not empty. *)
Definition clean_row (row : list string) : Prop :=
  (exists cell, In cell row /\ cell <> "") /\
  (forall cell, In cell row -> strip cell = cell).

Lemma clean_cell_stripped c : strip (clean_cell c) = clean_cell c.
Proof. destruct c as [s|]; [apply PyStrProps.strip_idem | reflexivity]. Qed.

Lemma clean_table_rows tbl row : In row (clean_table tbl) -> clean_row row.
Proof.
  unfold clean_table. intros H. apply filter_In in H as [Hin Hne].
  split.
  - apply existsb_exists in Hne as (cell & Hc & Hn).
    exists cell. split; [exact Hc|].
    apply negb_true_iff in Hn. now apply String.eqb_neq in Hn.
  - intros cell Hc. apply in_map_iff in Hin as (raw & <- & _).
    apply in_map_iff in Hc as (c & <- & _). apply clean_cell_stripped.
Qed.

Definition kept (rows : table) : Prop :=
  rows <> [] /\ forall row, In row rows -> clean_row row.

Lemma kept_filter raw rows :
  In rows (filter (fun t => match t with [] => false | _ => true end)
                  (map clean_table raw)) ->
  kept rows.
Proof.
  intros H. apply filter_In in H as [Hin Hne].
  apply in_map_iff in Hin as (tbl & <- & _). split.
  - now destruct (clean_table tbl).
  - intros row. apply clean_table_rows.
Qed.

(** X13: a table that [extract_tables_from_page] returns has at least
    one row, every row of it has a cell that is not empty, and no cell
    has white space at either end; there are at most as many tables as
    the page had raw ones. *)
Theorem extracted_tables_clean (n : oid)
    (raw : list (list (list (option string)))) (t : table_obj) :
  In t (fst (extract_tables_from_page n raw)) ->
  kept (t_rows t) /\
  List.length (fst (extract_tables_from_page n raw)) <= List.length raw.
Proof.
  intros Hin. unfold extract_tables_from_page in *.
  destruct (extract_tables_from raw [] n) as (ts & Hf & _ & Hrows).
  rewrite Hf in *. simpl in *. split.
  - apply (kept_filter raw). rewrite <- Hrows. now apply in_map.
  - rewrite <- (length_map t_rows), Hrows.
    etransitivity; [apply filter_length_le | now rewrite length_map].
Qed.

Lemma extracted_tables_clean_witness :
  kept [["Company"; ""]; ["a"; "1"]] /\
  List.length
    (fst (extract_tables_from_page 0
            [[[Some "Company "; None]; [None; Some " "]; [Some " a"; Some "1"]];
             [[None]]]))
  <= 2.
Proof.
  apply (extracted_tables_clean 0
           [[[Some "Company "; None]; [None; Some " "]; [Some " a"; Some "1"]];
            [[None]]]
           (mk_table_obj 0 [["Company"; ""]; ["a"; "1"]])).
  vm_compute. left. reflexivity.
Defined.

(** *** Pages *)

Section Pages.

Variable do_ocr : bool.
Variable ocr_image : string -> string.

(** A property of each page entry, relative to the page it is built
    from, carries over to the document. *)
Lemma add_pages_Forall2 (R : nat * pdf_page -> page_entry -> Prop) :
  (forall st ip, exists pe,
     as_pages (add_page do_ocr ocr_image st ip) = as_pages st ++ [pe] /\ R ip pe) ->
  forall l st done,
    Forall2 R done (as_pages st) ->
    Forall2 R (done ++ l) (as_pages (fold_left (add_page do_ocr ocr_image) l st)).
Proof.
  intros HR. induction l as [|ip l IH]; intros st done HF; simpl.
  - now rewrite app_nil_r.
  - destruct (HR st ip) as (pe & Hpe & Hr).
    specialize (IH (add_page do_ocr ocr_image st ip) (done ++ [ip])).
    rewrite <- app_assoc in IH. apply IH.
    rewrite Hpe. apply Forall2_app; [exact HF | now constructor].
Qed.

Lemma parse_Forall2 (R : nat * pdf_page -> page_entry -> Prop) pdf :
  (forall st ip, exists pe,
     as_pages (add_page do_ocr ocr_image st ip) = as_pages st ++ [pe] /\ R ip pe) ->
  Forall2 R (enumerate pdf) (doc_pages (parse_pdf_to_json do_ocr ocr_image pdf)).
Proof.
  intros HR. simpl.
  apply (add_pages_Forall2 R HR (enumerate pdf) _ []). constructor.
Qed.

(** What of a content entry shows it is a table entry: the rows and
    the label. *)
Definition table_view (c : content_entry) : option (table * option string) :=
  match c with
  | CTable _ section table_data => Some (t_rows table_data, section)
  | _ => None
  end.

Definition classified_view (rows : table) : option (table * option string) :=
  Some (rows, snd (classify_table rows)).

Lemma add_table_content p st t :
  ts_content (add_table p st t)
  = ts_content st
    ++ [CTable (ts_next (add_table p st t) - 1)
               (snd (classify_table (t_rows t))) t].
Proof.
  unfold add_table.
  destruct (classify_table (t_rows t)) as [[k|] lab]; simpl;
    [destruct (is_empty k); simpl|]; now rewrite ?Nat.sub_0_r.
Qed.

Lemma add_tables_content p ts : forall st,
  exists T,
    ts_content (fold_left (add_table p) ts st) = ts_content st ++ T /\
    map table_view T = map (fun t => classified_view (t_rows t)) ts.
Proof.
  induction ts as [|t ts IH]; intros st; simpl.
  - exists []. now rewrite app_nil_r.
  - destruct (IH (add_table p st t)) as (T & Hc & Hv).
    rewrite add_table_content in Hc.
    eexists (_ :: T). split.
    + rewrite Hc, <- app_assoc. reflexivity.
    + simpl. now rewrite Hv.
Qed.

(** The layout of a page entry. *)
Definition laid_out (ip : nat * pdf_page) (pe : page_entry) : Prop :=
  page_number pe = fst ip + 1 /\
  exists T,
    content pe
    = map CParagraph
          (detect_sections_from_text
             (Metadata.text_or_empty (extract_text (snd ip))))
      ++ T
      ++ map (chart_entry do_ocr ocr_image) (page_images (snd ip)) /\
    map table_view T = map classified_view (kept_tables (snd ip)).

Lemma add_page_laid_out st ip :
  exists pe,
    as_pages (add_page do_ocr ocr_image st ip) = as_pages st ++ [pe] /\
    laid_out ip pe.
Proof.
  destruct ip as [i pl]. unfold add_page.
  destruct (extract_tables_from_page_spec (as_next st) pl)
    as (ts & He & _ & Hrows).
  rewrite He.
  match goal with
  | |- context [fold_left (add_table ?p) ts ?st0] =>
      destruct (add_tables_content p ts st0) as (T & Hc & Hv)
  end.
  eexists. split; [reflexivity|].
  split; [reflexivity|]. simpl. exists T. split.
  - rewrite Hc. simpl. now rewrite app_assoc.
  - rewrite Hv, <- Hrows, map_map. reflexivity.
Qed.

End Pages.

Lemma fst_combine {A B} (l1 : list A) : forall (l2 : list B),
  List.length l1 = List.length l2 -> map fst (combine l1 l2) = l1.
Proof.
  induction l1 as [|a l1 IH]; intros [|b l2] H; simpl in *;
    try reflexivity; try discriminate.
  now rewrite IH by lia.
Qed.

(** X14: the document has one page entry for each page of the PDF, in
    order, numbered from 1. *)
Theorem pages_numbered (do_ocr : bool) (ocr_image : string -> string)
    (pdf : list pdf_page) :
  map page_number (doc_pages (parse_pdf_to_json do_ocr ocr_image pdf))
  = seq 1 (List.length pdf).
Proof.
  pose proof (parse_Forall2 do_ocr ocr_image (laid_out do_ocr ocr_image) pdf
                (add_page_laid_out do_ocr ocr_image)) as HF.
  assert (Hm : forall l ps, Forall2 (laid_out do_ocr ocr_image) l ps ->
             map page_number ps = map (fun ip => fst ip + 1) l).
  { induction 1 as [|ip pe l ps [Hn _] _ IH]; simpl; [reflexivity|].
    now rewrite Hn, IH. }
  rewrite (Hm _ _ HF). unfold enumerate.
  rewrite <- (map_map fst (fun i => i + 1)).
  rewrite fst_combine by apply length_seq.
  rewrite <- seq_shift. apply map_ext. intros a. lia.
Qed.

(** X15: the content of each page entry is laid out in three runs: the
    paragraphs of the page's text in the order the segmenter emits
    them, then one table entry for each table kept of the page, in
    order, labelled as the classifier labels its rows, then one chart
    entry for each image of the page. *)
Theorem page_content_layout (do_ocr : bool) (ocr_image : string -> string)
    (pdf : list pdf_page) :
  Forall2 (laid_out do_ocr ocr_image) (enumerate pdf)
          (doc_pages (parse_pdf_to_json do_ocr ocr_image pdf)).
Proof.
  apply parse_Forall2. apply add_page_laid_out.
Qed.

(** *** Every table entry has a header row *)

Lemma Forall2_in_r {A B} (R : A -> B -> Prop) l ps b :
  Forall2 R l ps -> In b ps -> exists a, In a l /\ R a b.
Proof.
  induction 1 as [|a b' l ps Hr _ IH]; intros Hin; [contradiction|].
  destruct Hin as [<-|Hin].
  - exists a. split; [now left | exact Hr].
  - destruct (IH Hin) as (a' & Ha & Hr'). exists a'. split; [now right | exact Hr'].
Qed.

Lemma page_table_kept b f pdf tr :
  In tr (page_tables (doc_pages (parse_pdf_to_json b f pdf))) ->
  kept (t_rows (tr_table tr)).
Proof.
  intros Hin. destruct (parse_linked b f pdf) as [_ HF].
  unfold page_tables in Hin. apply in_flat_map in Hin as (pe & Hpe & Hin).
  destruct (Forall2_in_r _ _ _ _ HF Hpe) as ([i pl] & _ & _ & Hrows).
  apply (kept_filter (extract_tables pl)).
  fold (kept_tables pl). simpl in Hrows. rewrite <- Hrows.
  now apply (in_map (fun tr => t_rows (tr_table tr))).
Qed.

(** X16: every table entry of the document, in a content list or in a
    sections list, has at least one row, and each of its rows, the
    header row among them, has a cell that is not empty: the classifier
    is never given an empty table, and [table_data[0]] always exists. *)
Theorem table_entries_have_header (do_ocr : bool)
    (ocr_image : string -> string) (pdf : list pdf_page) :
  let d := parse_pdf_to_json do_ocr ocr_image pdf in
  (forall tr, In tr (page_tables (doc_pages d)) -> kept (t_rows (tr_table tr))) /\
  (forall k se, In (k, se) (section_tables (doc_sections d)) ->
     kept (t_rows (se_table_data se))).
Proof.
  cbv zeta. split.
  - intros tr. apply page_table_kept.
  - intros k se Hin.
    destruct (parse_linked do_ocr ocr_image pdf) as [[n L] _].
    destruct (lk_section_source _ _ _ L k se Hin) as (_ & tr & Htr & <- & _).
    now apply (page_table_kept do_ocr ocr_image pdf).
Qed.

Lemma table_entries_have_header_witness :
  kept [["Company"; "Weight"]].
Proof.
  apply (proj1 (table_entries_have_header false (fun s => s) one_table_pdf)
           (mk_table_ref 1 2 (Some "Holdings"%string)
                         (mk_table_obj 0 [["Company"; "Weight"]%string]))).
  vm_compute. left. reflexivity.
Defined.

(** *** The keys of sections *)

Definition categories : list string :=
  ["portfolio"; "scheme_performance"; "allocation"; "risk"; "macro";
   "debt_portfolio"]%string.

Lemma category_known t k :
  fst (classify_table t) = Some k -> In k categories.
Proof.
  pose proof (classify_table_in_outcomes t) as H.
  unfold ClassifierProps.outcomes in H. simpl in H.
  repeat (destruct H as [H|H];
          [rewrite <- H; simpl; intros E; inversion E; simpl; tauto|]).
  contradiction.
Qed.

Lemma label_given t k :
  fst (classify_table t) = Some k -> snd (classify_table t) <> None.
Proof.
  pose proof (classify_table_in_outcomes t) as H.
  unfold ClassifierProps.outcomes in H. simpl in H.
  repeat (destruct H as [H|H]; [rewrite <- H; simpl; congruence|]).
  contradiction.
Qed.

Lemma setdefault_keys_same k v m :
  In k (map fst m) -> map fst (setdefault_append k v m) = map fst m.
Proof.
  induction m as [|[k' vs] m IH]; simpl; [tauto|].
  destruct (String.eqb k' k) eqn:E; simpl; [reflexivity|].
  intros [->|H]; [now rewrite String.eqb_refl in E | now rewrite IH].
Qed.

Lemma add_table_same_keys p st t :
  map fst (ts_sections st) = categories ->
  map fst (ts_sections (add_table p st t)) = categories.
Proof.
  intros H. unfold add_table.
  destruct (classify_table (t_rows t)) as [[k|] lab] eqn:E; simpl; [|exact H].
  destruct (is_empty k); simpl; [exact H|].
  rewrite setdefault_keys_same; [exact H|].
  rewrite H. apply (category_known (t_rows t)). now rewrite E.
Qed.

Lemma add_tables_same_keys p ts : forall st,
  map fst (ts_sections st) = categories ->
  map fst (ts_sections (fold_left (add_table p) ts st)) = categories.
Proof.
  induction ts as [|t ts IH]; intros st H; simpl; [exact H|].
  now apply IH, add_table_same_keys.
Qed.

Lemma add_page_same_keys b f st ip :
  map fst (as_sections st) = categories ->
  map fst (as_sections (add_page b f st ip)) = categories.
Proof.
  intros H. destruct ip as [i pl]. unfold add_page.
  destruct (extract_tables_from_page _ _) as [ts n1]. simpl.
  now apply add_tables_same_keys.
Qed.

Lemma add_pages_same_keys b f l : forall st,
  map fst (as_sections st) = categories ->
  map fst (as_sections (fold_left (add_page b f) l st)) = categories.
Proof.
  induction l as [|ip l IH]; intros st H; simpl; [exact H|].
  now apply IH, add_page_same_keys.
Qed.

(** X17: the keys of sections are the six categories the document
    starts with, in that order, whatever the tables are: a category
    without table keeps its empty list, and [setdefault] never adds a
    key. *)
Theorem sections_keys_fixed (do_ocr : bool) (ocr_image : string -> string)
    (pdf : list pdf_page) :
  map fst (doc_sections (parse_pdf_to_json do_ocr ocr_image pdf)) = categories.
Proof.
  unfold parse_pdf_to_json. simpl. now apply add_pages_same_keys.
Qed.

(** X18: the sections lists agree with the classifier.  The section of
    a table entry of a page is the label the classifier gives its rows,
    null when it gives none; an entry of sections[k] is for a table
    that the classifier puts in category k, and its section_name is
    that table's label, never null; a table that the classifier leaves
    unclassified is in no sections list. *)
Theorem sections_follow_classifier (do_ocr : bool)
    (ocr_image : string -> string) (pdf : list pdf_page) :
  let d := parse_pdf_to_json do_ocr ocr_image pdf in
  (forall tr, In tr (page_tables (doc_pages d)) ->
     tr_section tr = snd (classify_table (t_rows (tr_table tr)))) /\
  (forall k se, In (k, se) (section_tables (doc_sections d)) ->
     classify_table (t_rows (se_table_data se)) = (Some k, se_section_name se) /\
     se_section_name se <> None) /\
  (forall tr k se,
     In tr (page_tables (doc_pages d)) ->
     fst (classify_table (t_rows (tr_table tr))) = None ->
     In (k, se) (section_tables (doc_sections d)) ->
     se_table_data se <> tr_table tr).
Proof.
  cbv zeta.
  destruct (parse_linked do_ocr ocr_image pdf) as [[n L] _].
  assert (Hs : forall k se,
             In (k, se) (section_tables
                           (doc_sections (parse_pdf_to_json do_ocr ocr_image pdf))) ->
             classify_table (t_rows (se_table_data se))
             = (Some k, se_section_name se)).
  { intros k se Hin.
    destruct (lk_section_source _ _ _ L k se Hin) as (Hk & tr & Htr & Ht & _ & Hl).
    destruct (lk_classified _ _ _ L tr Htr) as [Hlab _].
    rewrite Ht, Hl in Hlab.
    rewrite (surjective_pairing (classify_table _)). now rewrite Hk, Hlab. }
  split; [|split].
  - intros tr Hin. now destruct (lk_classified _ _ _ L tr Hin).
  - intros k se Hin. split; [now apply Hs|].
    pose proof (Hs k se Hin) as H.
    pose proof (label_given (t_rows (se_table_data se)) k) as Hl.
    rewrite H in Hl. simpl in Hl. now apply Hl.
  - intros tr k se Htr Hnone Hin E.
    pose proof (Hs k se Hin) as H. rewrite E, (surjective_pairing (classify_table _)) in H.
    rewrite Hnone in H. discriminate.
Qed.

Lemma sections_follow_classifier_witness :
  classify_table (t_rows (mk_table_obj 0 [["Company"; "Weight"]%string]))
  = (Some "portfolio"%string, Some "Holdings"%string) /\
  Some "Holdings"%string <> None.
Proof.
  apply (proj1 (proj2 (sections_follow_classifier false (fun s => s) one_table_pdf))
           "portfolio"%string
           (mk_section_entry 1 1 (mk_table_obj 0 [["Company"; "Weight"]%string])
                             (Some "Holdings"%string))).
  vm_compute. left. reflexivity.
Defined.

(** *** Page order in the sections lists *)

(** Every list of [m] is in page order, and no entry is of a page
    after page [p]. *)
Definition paged (p : nat) (m : sections_map) : Prop :=
  forall k,
    StronglySorted le (map se_page (lookup k m)) /\
    Forall (fun se => se_page se <= p) (lookup k m).

Lemma paged_weaken p p' m : p <= p' -> paged p m -> paged p' m.
Proof.
  intros Hle H k. destruct (H k) as [Hs Hb]. split; [exact Hs|].
  eapply Forall_impl; [|exact Hb]. intros se Hse. simpl in Hse. lia.
Qed.

Lemma sorted_snoc l x :
  StronglySorted le l -> Forall (fun y => y <= x) l ->
  StronglySorted le (l ++ [x]).
Proof.
  induction 1 as [|y l Hs IH Hy]; intros Hb; simpl.
  - repeat constructor.
  - inversion Hb as [|? ? Hyx Hb']. subst. constructor; [now apply IH|].
    apply Forall_app. split; [exact Hy | now constructor].
Qed.

Lemma paged_setdefault p k v m :
  paged p m -> se_page v = p -> paged p (setdefault_append k v m).
Proof.
  intros H Hv k0. destruct (H k0) as [Hs Hb].
  destruct (string_dec k0 k) as [->|Hne].
  - rewrite lookup_setdefault_same. split.
    + rewrite map_app. simpl. apply sorted_snoc; [exact Hs|].
      rewrite Forall_map, Hv. exact Hb.
    + apply Forall_app. split; [exact Hb|]. constructor; [lia | constructor].
  - rewrite lookup_setdefault_other by exact Hne. now split.
Qed.

Lemma add_table_paged p st t :
  paged p (ts_sections st) -> paged p (ts_sections (add_table p st t)).
Proof.
  intros H. unfold add_table.
  destruct (classify_table (t_rows t)) as [[k|] lab]; simpl; [|exact H].
  destruct (is_empty k); simpl; [exact H|]. now apply paged_setdefault.
Qed.

Lemma add_tables_paged p ts : forall st,
  paged p (ts_sections st) ->
  paged p (ts_sections (fold_left (add_table p) ts st)).
Proof.
  induction ts as [|t ts IH]; intros st H; simpl; [exact H|].
  now apply IH, add_table_paged.
Qed.

Lemma add_page_paged b f st i pl :
  paged i (as_sections st) ->
  paged (i + 1) (as_sections (add_page b f st (i, pl))).
Proof.
  intros H. unfold add_page.
  destruct (extract_tables_from_page _ _) as [ts n1]. simpl.
  apply add_tables_paged. simpl. apply (paged_weaken i); [lia | exact H].
Qed.

Lemma add_pages_paged b f l : forall a st,
  paged a (as_sections st) ->
  paged (a + List.length l)
        (as_sections
           (fold_left (add_page b f) (combine (seq a (List.length l)) l) st)).
Proof.
  induction l as [|pl l IH]; intros a st H; simpl.
  - now rewrite Nat.add_0_r.
  - replace (a + S (List.length l)) with (S a + List.length l) by lia.
    apply IH. replace (S a) with (a + 1) by lia. now apply add_page_paged.
Qed.

Lemma lookup_init k : lookup k sections_init = [].
Proof.
  unfold sections_init. cbn [lookup].
  repeat match goal with
         | |- context [String.eqb ?a k] => destruct (String.eqb a k)
         end; reflexivity.
Qed.

(** X19: in each sections list the entries come in page order: the
    page numbers never decrease along the list, so the first entry of a
    category is the first table of the category in the document. *)
Theorem sections_in_page_order (do_ocr : bool) (ocr_image : string -> string)
    (pdf : list pdf_page) (k : string) :
  StronglySorted le
    (map se_page (lookup k (doc_sections (parse_pdf_to_json do_ocr ocr_image pdf)))).
Proof.
  unfold parse_pdf_to_json, enumerate. simpl.
  apply (add_pages_paged do_ocr ocr_image pdf 0 (mk_asm_state 0 sections_init [])).
  intros k0. cbn [as_sections]. rewrite lookup_init. split; constructor.
Qed.

End AssemblerExtra.

(** ** Image files *)

Module ImagesExtra.

Import Images.
Local Open Scope list_scope.

(** *** File names *)

Lemma string_of_uint_inj u u' :
  DecimalString.NilEmpty.string_of_uint u
  = DecimalString.NilEmpty.string_of_uint u' -> u = u'.
Proof.
  intros H.
  pose proof (DecimalString.NilEmpty.usu u) as Hu.
  rewrite H, DecimalString.NilEmpty.usu in Hu. now injection Hu.
Qed.

Lemma str_of_nat_inj a b : str_of_nat a = str_of_nat b -> a = b.
Proof.
  unfold str_of_nat, Json.encode_nat. intros H.
  apply string_of_uint_inj, DecimalN.Unsigned.to_uint_inj in H.
  now apply Nnat.Nat2N.inj.
Qed.

Lemma string_of_uint_digits u :
  MetadataExtra.all_of is_digit (DecimalString.NilEmpty.string_of_uint u).
Proof.
  unfold MetadataExtra.all_of, PyStrProps.free_of.
  induction u; simpl; auto.
Qed.

(** A text that does not go on with a digit. *)
Definition no_digit_ahead (s : string) : Prop :=
  match s with
  | "" => True
  | String c _ => is_digit c = false
  end.

Lemma digits_split a : forall a' r r',
  MetadataExtra.all_of is_digit a -> MetadataExtra.all_of is_digit a' ->
  no_digit_ahead r -> no_digit_ahead r' ->
  (a ++ r = a' ++ r')%string -> a = a' /\ r = r'.
Proof.
  unfold MetadataExtra.all_of.
  induction a as [|c a IH]; intros [|c' a'] r r' Ha Ha' Hr Hr' H; simpl in H.
  - now split.
  - subst r. apply PyStrProps.free_of_cons in Ha' as [Hc _].
    simpl in Hr. rewrite Hr in Hc. discriminate.
  - subst r'. apply PyStrProps.free_of_cons in Ha as [Hc _].
    simpl in Hr'. rewrite Hr' in Hc. discriminate.
  - injection H as -> H.
    apply PyStrProps.free_of_cons in Ha as [_ Ha].
    apply PyStrProps.free_of_cons in Ha' as [_ Ha'].
    destruct (IH a' r r' Ha Ha' Hr Hr' H) as [-> ->]. now split.
Qed.

Lemma str_of_nat_digits n : MetadataExtra.all_of is_digit (str_of_nat n).
Proof. apply string_of_uint_digits. Qed.

Lemma base_name_inj p i p' i' :
  base_name p i = base_name p' i' -> p = p' /\ i = i'.
Proof.
  unfold base_name. intros H. simpl in H.
  injection H as H.
  apply digits_split in H as [Hp H];
    [| apply str_of_nat_digits | apply str_of_nat_digits
     | reflexivity | reflexivity].
  simpl in H. injection H as H.
  apply digits_split in H as [Hi _];
    [| apply str_of_nat_digits | apply str_of_nat_digits
     | reflexivity | reflexivity].
  apply str_of_nat_inj in Hp, Hi. split; [lia | exact Hi].
Qed.

Section Paths.

Variable path_join : string -> string -> string.

Definition meta_of (images_dir : string) (page_idx : nat) (ii : nat * bool)
    : image_meta :=
  mk_image_meta (path_join images_dir (base_name page_idx (fst ii)))
                (page_idx + 1).

Lemma extract_images_from images_dir p imgs : forall n acc,
  fold_left
    (fun results ii =>
       let '(img_idx, saved) := ii in
       let path := path_join images_dir (base_name p img_idx) in
       if saved : bool
       then results ++ [mk_image_meta path (p + 1)]
       else results)
    (enumerate_from n imgs) acc
  = acc ++ map (meta_of images_dir p) (filter snd (enumerate_from n imgs)).
Proof.
  induction imgs as [|b imgs IH]; intros n acc; simpl.
  - now rewrite app_nil_r.
  - rewrite IH. destruct b; simpl; [|reflexivity].
    now rewrite <- app_assoc.
Qed.

Lemma extract_images_map images_dir p imgs :
  extract_images_with_pymupdf path_join images_dir p imgs
  = map (meta_of images_dir p) (filter snd (enumerate_from 1 imgs)).
Proof. apply (extract_images_from images_dir p imgs 1 []). Qed.

Lemma enumerate_from_indices {A} (l : list A) : forall n,
  map fst (enumerate_from n l) = seq n (List.length l).
Proof. induction l as [|x l IH]; intros n; simpl; [reflexivity | now rewrite IH]. Qed.

Lemma NoDup_filter_fst {A} (f : nat * A -> bool) l :
  NoDup (map fst l) -> NoDup (map fst (filter f l)).
Proof.
  induction l as [|x l IH]; simpl; intros H; [constructor|].
  inversion H as [|y ys Hx Hl]. subst.
  destruct (f x); simpl; [|now apply IH].
  constructor; [|now apply IH].
  intros Hin. apply Hx. apply in_map_iff in Hin as (y & Hy & Hin).
  apply filter_In in Hin as [Hin _]. rewrite <- Hy. now apply in_map.
Qed.

Lemma NoDup_map_by {A B} (g : nat * A -> B) l :
  (forall x y, g x = g y -> fst x = fst y) ->
  NoDup (map fst l) -> NoDup (map g l).
Proof.
  intros Hg. induction l as [|x l IH]; simpl; intros H; constructor;
    inversion H as [|y ys Hx Hl]; subst; [|now apply IH].
  intros Hin. apply Hx. apply in_map_iff in Hin as (y & Hy & Hin).
  rewrite <- (Hg _ _ Hy). now apply in_map.
Qed.

(** X20: no two images are saved under the same path.  Where
    [os.path.join] gives different paths for different names in one
    directory, the paths of the images of a page are pairwise
    distinct, the images of two different pages have no path in common,
    and every record carries the page number, one more than the page
    index. *)
Theorem image_paths_distinct (images_dir : string) :
  (forall a b, path_join images_dir a = path_join images_dir b -> a = b) ->
  forall p imgs,
    NoDup (map image_path
               (extract_images_with_pymupdf path_join images_dir p imgs)) /\
    (forall m, In m (extract_images_with_pymupdf path_join images_dir p imgs) ->
       page_index m = p + 1) /\
    (forall p' imgs' m m',
       p <> p' ->
       In m (extract_images_with_pymupdf path_join images_dir p imgs) ->
       In m' (extract_images_with_pymupdf path_join images_dir p' imgs') ->
       image_path m <> image_path m').
Proof.
  intros Hj p imgs. rewrite extract_images_map. split; [|split].
  - rewrite map_map. apply NoDup_map_by.
    + intros x y H. simpl in H. apply Hj, base_name_inj in H. tauto.
    + apply NoDup_filter_fst. rewrite enumerate_from_indices. apply seq_NoDup.
  - intros m Hin. apply in_map_iff in Hin as (ii & <- & _). reflexivity.
  - intros p' imgs' m m' Hp Hin Hin'. rewrite extract_images_map in Hin'.
    apply in_map_iff in Hin as (ii & <- & _).
    apply in_map_iff in Hin' as (ii' & <- & _).
    simpl. intros H. apply Hj, base_name_inj in H. tauto.
Qed.

End Paths.

Lemma image_paths_distinct_witness :
  NoDup (map image_path
             (extract_images_with_pymupdf
                (fun d b => (d ++ "/" ++ b)%string) "images" 0
                [true; false; true])).
Proof.
  apply (image_paths_distinct (fun d b => (d ++ "/" ++ b)%string) "images").
  intros a b H. simpl in H. now injection H.
Defined.

(** *** Hashing a file *)

Section Hashing.

Variable hasher : Type.
Variable md5 : hasher.
Variable update : hasher -> list Byte.byte -> hasher.
Variable hexdigest : hasher -> string.







End Hashing.


(** *** Removing duplicates *)

Section Duplicates.

Variable hasher : Type.
Variable md5 : hasher.
Variable update : hasher -> list Byte.byte -> hasher.
Variable hexdigest : hasher -> string.
Variable path_join : string -> string -> string.
Variable images_dir : string.

Abbreviation digest := (digest_of hasher md5 update hexdigest).
Abbreviation step := (visit hasher md5 update hexdigest path_join images_dir).

(** A file that could be removed is there only as the first of its
    digest. *)
Definition first_of_digest (K : list entry) : Prop :=
  forall a e b c h,
    K = a ++ e :: b -> snd e = NFile c true -> digest e = Some h ->
    forall e', In e' a -> digest e' <> Some h.

(** [seen] holds the digests of the files that are still there. *)
Definition seen_kept (st : dedup_state) : Prop :=
  forall h, In h (map fst (seen st)) <->
            exists e, In e (kept st) /\ digest e = Some h.

Record dedup_inv (P : list entry) (st : dedup_state) : Prop := {
  di_seen : seen_kept st;
  di_deleted :
    forall e, In e (deleted st) ->
      (exists c, snd e = NFile c true) /\
      exists e', In e' (kept st) /\ digest e' = digest e /\ digest e <> None;
  di_count : removed st = List.length (deleted st);
  di_perm : Permutation P (kept st ++ deleted st);
  di_first : first_of_digest (kept st)
}.

Lemma existsb_eqb_in h l : existsb (String.eqb h) l = true <-> In h l.
Proof.
  rewrite existsb_exists. split.
  - intros (x & Hin & E). apply String.eqb_eq in E. now subst.
  - intros H. exists h. split; [exact H | apply String.eqb_refl].
Qed.

Lemma snoc_split {A} (l : list A) x a y b :
  l ++ [x] = a ++ y :: b ->
  (b = [] /\ a = l /\ y = x) \/ exists b', b = b' ++ [x] /\ l = a ++ y :: b'.
Proof.
  revert l. induction a as [|z a IH]; intros l H.
  - destruct l as [|w l]; simpl in H.
    + injection H as <- <-. now left.
    + injection H as -> H. right. exists l. now rewrite H.
  - destruct l as [|w l]; simpl in H.
    + injection H as _ H. now destruct a.
    + injection H as -> H. destruct (IH l H) as [(-> & -> & ->) | (b' & -> & ->)].
      * now left.
      * right. now exists b'.
Qed.

(** The three ways an iteration can go. *)
Inductive outcome (st : dedup_state) (e : entry) : dedup_state -> Prop :=
| Stays :
    (digest e = None \/
     exists h c, digest e = Some h /\ In h (map fst (seen st)) /\
                 snd e = NFile c false) ->
    outcome st e (mk_dedup (seen st) (removed st) (kept st ++ [e]) (deleted st))
| Goes h c :
    digest e = Some h -> In h (map fst (seen st)) -> snd e = NFile c true ->
    outcome st e (mk_dedup (seen st) (S (removed st)) (kept st) (deleted st ++ [e]))
| Recorded h :
    digest e = Some h -> ~ In h (map fst (seen st)) ->
    outcome st e (mk_dedup (seen st ++ [(h, path_join images_dir (fst e))])
                           (removed st) (kept st ++ [e]) (deleted st)).

Lemma visit_outcome st e : outcome st e (step st e).
Proof.
  unfold visit, digest_of. destruct e as [name [content removable|]]; simpl.
  - destruct (file_hash _ _ _ _ content 65536) as [h|] eqn:E.
    + destruct (existsb (String.eqb h) (map fst (seen st))) eqn:Hs.
      * apply existsb_eqb_in in Hs. destruct removable.
        -- apply (Goes st (name, NFile content true) h content); auto.
        -- apply (Stays st (name, NFile content false)).
           right. exists h, content. auto.
      * apply (Recorded st (name, NFile content removable) h); [exact E|].
        intros Hin. apply existsb_eqb_in in Hin. congruence.
    + apply (Stays st (name, NFile content removable)). now left.
  - apply (Stays st (name, NOther)). now left.
Qed.

Lemma outcome_inv P st e st' :
  outcome st e st' -> dedup_inv P st -> dedup_inv (P ++ [e]) st'.
Proof.
  intros Ho [Hseen Hdel Hcount Hperm Hfirst].
  destruct Ho as [Hstay | h c Hd Hin Hrem | h Hd Hnin]; constructor; simpl.
  - (* stays: seen *)
    intros h'. cbn [seen kept]. rewrite (Hseen h'). split.
    + intros (e' & Hin & He'). exists e'. split; [apply in_or_app; now left | exact He'].
    + intros (e' & Hin & He'). apply in_app_or in Hin as [Hin|[<-|[]]].
      * now exists e'.
      * destruct Hstay as [Hn | (h0 & c & Hd & Hs & _)]; [congruence|].
        apply Hseen. congruence.
  - intros e' Hin. destruct (Hdel e' Hin) as (Hr & e'' & Hin'' & H'').
    split; [exact Hr|]. exists e''. split; [apply in_or_app; now left | exact H''].
  - exact Hcount.
  - rewrite <- app_assoc.
    apply (Permutation_trans (Permutation_app_tail [e] Hperm)).
    rewrite <- app_assoc. apply Permutation_app_head, Permutation_app_comm.
  - intros a e0 b c h Hk Hr Hd e' Hin.
    apply snoc_split in Hk as [(-> & -> & ->) | (b' & -> & Hk)].
    + destruct Hstay as [Hn | (h0 & c0 & _ & _ & Hc)]; congruence.
    + now apply (Hfirst a e0 b' c h).
  - (* goes *)
    exact Hseen.
  - intros e' Hin'. apply in_app_or in Hin' as [Hin'|[<-|[]]]; [now apply Hdel|].
    split; [now exists c|].
    apply Hseen in Hin as (e'' & Hin'' & H'').
    exists e''. split; [exact Hin''|]. split; congruence.
  - rewrite length_app, Hcount. simpl. lia.
  - rewrite app_assoc. now apply Permutation_app_tail.
  - exact Hfirst.
  - (* recorded *)
    intros h'. cbn [seen kept]. rewrite map_app, in_app_iff, (Hseen h'). simpl. split.
    + intros [(e' & Hin & He') | [<-|[]]].
      * exists e'. split; [apply in_or_app; now left | exact He'].
      * exists e. split; [apply in_or_app; right; now left | exact Hd].
    + intros (e' & Hin & He'). apply in_app_or in Hin as [Hin|[<-|[]]].
      * left. now exists e'.
      * right. left. congruence.
  - intros e' Hin. destruct (Hdel e' Hin) as (Hr & e'' & Hin'' & H'').
    split; [exact Hr|]. exists e''. split; [apply in_or_app; now left | exact H''].
  - exact Hcount.
  - rewrite <- app_assoc.
    apply (Permutation_trans (Permutation_app_tail [e] Hperm)).
    rewrite <- app_assoc. apply Permutation_app_head, Permutation_app_comm.
  - intros a e0 b c h0 Hk Hr Hd0 e' Hin.
    apply snoc_split in Hk as [(-> & -> & ->) | (b' & -> & Hk)].
    + intros He'. apply Hnin. apply Hseen. exists e'. split; [exact Hin|]. congruence.
    + now apply (Hfirst a e0 b' c h0).
Qed.

Lemma fold_inv entries : forall P st,
  dedup_inv P st -> dedup_inv (P ++ entries) (fold_left step entries st).
Proof.
  induction entries as [|e entries IH]; intros P st H; simpl.
  - now rewrite app_nil_r.
  - replace (P ++ e :: entries) with ((P ++ [e]) ++ entries)
      by now rewrite <- app_assoc.
    apply IH. apply (outcome_inv P st e); [apply visit_outcome | exact H].
Qed.

Lemma dedup_init : dedup_inv [] (mk_dedup [] 0 [] []).
Proof.
  constructor; simpl.
  - intros h. split; [intros [] | intros (e & [] & _)].
  - intros e [].
  - reflexivity.
  - constructor.
  - intros a e b c h H. now destruct a.
Qed.

Lemma run_inv entries :
  dedup_inv entries (fold_left step entries (mk_dedup [] 0 [] [])).
Proof. apply (fold_inv entries [] _ dedup_init). Qed.

(** X22: removing duplicates loses no content.  The entries left and
    the entries deleted are together the entries of the listing, and
    the counter is the number of deletions; what is deleted is a
    regular file whose digest is also the digest of a file that is
    left.  What is not a file, and a file that cannot be hashed, is
    never deleted. *)
Theorem duplicates_removed_safely (entries : list entry) :
  exists left_over gone,
    remove_duplicate_images hasher md5 update hexdigest path_join images_dir
                            (Some entries)
    = (Some left_over, gone, List.length gone) /\
    Permutation entries (left_over ++ gone) /\
    forall e, In e gone ->
      (exists c, snd e = NFile c true) /\
      exists e', In e' left_over /\ digest e' = digest e /\ digest e <> None.
Proof.
  destruct (run_inv entries) as [_ Hdel Hcount Hperm _].
  eexists _, _. unfold remove_duplicate_images.
  split; [rewrite Hcount; reflexivity|]. split; [exact Hperm | exact Hdel].
Qed.



End Duplicates.

End ImagesExtra.

(** ** The analysis script on the documents of the extractor *)

Module AnalyzeExtra.

Import Classifier Assembler AssemblerProps Json Analyze.
Local Open Scope list_scope.

(** The record the script builds for a table entry of a page. *)
Definition rec_of (tr : table_ref) : table_rec :=
  mk_table_rec (table_to_json (tr_table tr))
               (jstr_or_null (tr_section tr))
               (jnat (tr_page tr)).

Lemma for_each_blocks pe cs : forall acc,
  for_each (visit_block (page_to_json pe)) (map content_to_json cs) acc
  = Some (acc ++ map rec_of (content_tables (page_number pe) cs)).
Proof.
  induction cs as [|c cs IH]; intros acc.
  - simpl. now rewrite app_nil_r.
  - destruct c as [p | id section table_data | image description].
    + change (for_each (visit_block (page_to_json pe))
                (map content_to_json cs) acc = Some
                (acc ++ map rec_of (content_tables (page_number pe) cs))).
      apply IH.
    + change (for_each (visit_block (page_to_json pe))
                (map content_to_json cs)
                (acc ++ [rec_of (mk_table_ref (page_number pe) id section
                                              table_data)])
              = Some (acc ++ rec_of (mk_table_ref (page_number pe) id section
                                                  table_data)
                          :: map rec_of (content_tables (page_number pe) cs))).
      rewrite IH, <- app_assoc. reflexivity.
    + change (for_each (visit_block (page_to_json pe))
                (map content_to_json cs) acc = Some
                (acc ++ map rec_of (content_tables (page_number pe) cs))).
      apply IH.
Qed.

Lemma for_each_pages ps : forall acc,
  for_each visit_page (map page_to_json ps) acc
  = Some (acc ++ map rec_of (page_tables ps)).
Proof.
  induction ps as [|pe ps IH]; intros acc.
  - simpl. now rewrite app_nil_r.
  - change (for_each visit_page (map page_to_json (pe :: ps)) acc)
      with (match for_each (visit_block (page_to_json pe))
                           (map content_to_json (content pe)) acc with
            | Some acc' => for_each visit_page (map page_to_json ps) acc'
            | None => None
            end).
    rewrite for_each_blocks, IH, <- app_assoc.
    unfold page_tables. simpl. now rewrite map_app.
Qed.

Lemma collect_tables_document d :
  collect_tables (document_to_json d)
  = Some (map rec_of (page_tables (doc_pages d))).
Proof.
  change (collect_tables (document_to_json d))
    with (for_each visit_page (map page_to_json (doc_pages d)) []).
  apply for_each_pages.
Qed.

(** X24: the script reads the file the extractor writes without an
    exception, and its list of tables has one record for each table
    entry of the pages, in page order, with the rows, the label (null
    for an unclassified table) and the page number of the entry. *)
Theorem analyzer_collects_every_table (do_ocr : bool)
    (ocr_image : string -> string) (pdf : list pdf_page) :
  exists data,
    json_loads
      (json_dumps (document_to_json (parse_pdf_to_json do_ocr ocr_image pdf)))
    = Some data /\
    collect_tables data
    = Some (map rec_of
                (page_tables
                   (doc_pages (parse_pdf_to_json do_ocr ocr_image pdf)))).
Proof.
  exists (document_to_json (parse_pdf_to_json do_ocr ocr_image pdf)). split.
  - apply JsonProps.loads_dumps, JsonProps.wf_document, JsonProps.parse_keys.
  - apply collect_tables_document.
Qed.

Section Selection.

Variable py_repr : json -> string.

(** [str(table_data[0])] for a table of the extractor. *)
Definition header_text (tr : table_ref) : string :=
  py_repr (JArr (map JStr (hd [] (t_rows (tr_table tr))))).

(** The label of a table entry is one the classifier gives. *)
Definition labelled (tr : table_ref) : Prop :=
  In (tr_section tr) (map snd ClassifierProps.outcomes).

Lemma first_row_header tr :
  t_rows (tr_table tr) <> [] ->
  first_row py_repr (a_table_data (rec_of tr)) = Some (header_text tr).
Proof.
  unfold header_text. destruct tr as [p i s [tid rows]]. simpl.
  destruct rows as [|row rows]; [congruence|]. reflexivity.
Qed.

Lemma truthy_rows tr :
  t_rows (tr_table tr) <> [] -> truthy (a_table_data (rec_of tr)) = true.
Proof.
  destruct tr as [p i s [tid rows]]. simpl.
  destruct rows as [|row rows]; [congruence|]. reflexivity.
Qed.

Lemma label_not_macro tr :
  labelled tr ->
  PyStr.str_in "macro" (PyStr.lower (py_str py_repr (a_section (rec_of tr))))
  = false.
Proof.
  unfold labelled. destruct tr as [p i s t]. simpl.
  intros H. repeat (destruct H as [<-|H]; [reflexivity|]). contradiction.
Qed.

Lemma label_performance tr :
  labelled tr ->
  PyStr.str_in "Performance Data" (py_str py_repr (a_section (rec_of tr)))
  = match tr_section tr with
    | Some l => String.eqb l "Performance Data"
    | None => false
    end.
Proof.
  unfold labelled. destruct tr as [p i s t]. simpl.
  intros H. repeat (destruct H as [<-|H]; [reflexivity|]). contradiction.
Qed.

Definition from_extractor (tr : table_ref) : Prop :=
  t_rows (tr_table tr) <> [] /\ labelled tr.

Definition is_macro (tr : table_ref) : bool :=
  PyStr.str_in "macro-economic indicators" (PyStr.lower (header_text tr)).

Definition is_performance (tr : table_ref) : bool :=
  match tr_section tr with
  | Some l => String.eqb l "Performance Data"
  | None => false
  end
  || PyStr.str_in "Scheme Performance" (header_text tr)
  || PyStr.str_in "PTP" (header_text tr).

Lemma macro_filter ts : forall acc,
  Forall from_extractor ts ->
  for_each (visit_macro py_repr) (map rec_of ts) acc
  = Some (acc ++ map rec_of (filter is_macro ts)).
Proof.
  induction ts as [|tr ts IH]; intros acc HF.
  - simpl. now rewrite app_nil_r.
  - inversion HF as [|x l [Hrows Hlab] HF']. subst.
    cbn [map for_each filter]. unfold visit_macro.
    rewrite (first_row_header tr Hrows), (label_not_macro tr Hlab),
            (truthy_rows tr Hrows), andb_true_r.
    cbn [orb]. fold (is_macro tr). destruct (is_macro tr).
    + rewrite (IH _ HF'), <- app_assoc. reflexivity.
    + apply (IH _ HF').
Qed.

Lemma performance_filter ts : forall acc,
  Forall from_extractor ts ->
  for_each (visit_performance py_repr) (map rec_of ts) acc
  = Some (acc ++ map rec_of (filter is_performance ts)).
Proof.
  induction ts as [|tr ts IH]; intros acc HF.
  - simpl. now rewrite app_nil_r.
  - inversion HF as [|x l [Hrows Hlab] HF']. subst.
    cbn [map for_each filter]. unfold visit_performance.
    rewrite (first_row_header tr Hrows), (label_performance tr Hlab).
    fold (is_performance tr). destruct (is_performance tr).
    + rewrite (IH _ HF'), <- app_assoc. reflexivity.
    + apply (IH _ HF').
Qed.

Lemma parse_from_extractor b f pdf :
  Forall from_extractor
         (page_tables (doc_pages (parse_pdf_to_json b f pdf))).
Proof.
  apply Forall_forall. intros tr Hin. split.
  - apply (AssemblerExtra.page_table_kept b f pdf tr Hin).
  - destruct (parse_linked b f pdf) as [[n L] _].
    destruct (lk_classified _ _ _ L tr Hin) as [E _].
    unfold labelled. rewrite E.
    apply in_map, classify_table_in_outcomes.
Qed.

(** X25: on the tables of a document of the extractor, the loop that
    looks for macro-economic tables raises no exception, and its test on
    the section never holds, since no label of the classifier contains
    "macro": a table is selected exactly when the text of its header row
    contains "macro-economic indicators", whatever its label. *)
Theorem macro_tables_by_header_only (do_ocr : bool)
    (ocr_image : string -> string) (pdf : list pdf_page) :
  macro_tables py_repr
    (map rec_of
         (page_tables (doc_pages (parse_pdf_to_json do_ocr ocr_image pdf))))
  = Some (map rec_of
              (filter is_macro
                 (page_tables
                    (doc_pages (parse_pdf_to_json do_ocr ocr_image pdf))))).
Proof.
  unfold macro_tables.
  now rewrite (macro_filter _ [] (parse_from_extractor do_ocr ocr_image pdf)).
Qed.

(** X26: on the tables of a document of the extractor, the loop that
    looks for performance tables raises no exception and selects
    exactly the tables labelled "Performance Data" and those whose
    header row text contains "Scheme Performance" or "PTP"; the label
    "SIP Performance" alone does not select a table. *)
Theorem performance_tables_selected (do_ocr : bool)
    (ocr_image : string -> string) (pdf : list pdf_page) :
  performance_tables py_repr
    (map rec_of
         (page_tables (doc_pages (parse_pdf_to_json do_ocr ocr_image pdf))))
  = Some (map rec_of
              (filter is_performance
                 (page_tables
                    (doc_pages (parse_pdf_to_json do_ocr ocr_image pdf))))).
Proof.
  unfold performance_tables.
  now rewrite (performance_filter _ []
                 (parse_from_extractor do_ocr ocr_image pdf)).
Qed.

End Selection.

End AnalyzeExtra.
